(** * The OpenStack machine actuator

    Package machine, the second unit of src/cmd/manager/main.go; the line
    numbers quoted below are those of that file.

    A shallow embedding of the instance lifecycle actuator: [Create],
    [Delete], [Update], [Exists], the shared status write-back
    [updateAnnotation], the error path [handleMachineError], the address
    computation [getIPsFromInstance] and the timeout helper [getTimeout].

    Go code is embedded as follows.
    - A Go [error] value is [goerr := option error] ([None] is [nil]).
    - A call returning a pointer and an error is a pair
      [option T * goerr]; a nil pointer that the code dereferences makes
      the run [Panic].
    - The actuator works on one pointer to a Machine; that record is part
      of the state, next to the chronological log of every call made to a
      collaborator (provider, API clients, event recorder).
    - What a collaborator answers is given by a [World]: each answer may
      depend on the whole log so far, so answers may change over time.
    - The actuator is built with an event recorder; the client may be
      nil.
    - A poll without a time limit may go on for ever. A run is watched for
      the number of ticks the world gives as its [Horizon]; a run that is
      still polling then is [Unfinished]. That Create does not return is
      the statement that it is [Unfinished] whatever the horizon. *)

From Stdlib Require Import ZArith String Ascii List Lia Permutation.
From stdpp Require Import base strings gmap list.
Import ListNotations.

Local Open Scope string_scope.
Local Open Scope list_scope.
Local Open Scope Z_scope.

(** ** Go base types *)

Module Go.

(** [int] and [int64] on the 64-bit targets the manager is built for. *)
Definition MinInt64 : Z := - 2 ^ 63.
Definition MaxInt64 : Z := 2 ^ 63 - 1.

(** Two's complement wrap-around of int64 arithmetic. *)
Definition wrap64 (z : Z) : Z := (z + 2 ^ 63) mod 2 ^ 64 - 2 ^ 63.

Definition mul64 (a b : Z) : Z := wrap64 (a * b).

Definition digit (c : ascii) : option Z :=
  let n := Z.of_N (N_of_ascii c) in
  if (48 <=? n) && (n <=? 57) then Some (n - 48) else None.

Fixpoint digits (s : string) (acc : Z) : option Z :=
  match s with
  | EmptyString => Some acc
  | String c r =>
      match digit c with
      | Some d => digits r (acc * 10 + d)
      | None => None
      end
  end.

(** strconv.Atoi: an optional sign followed by at least one decimal
    digit, within the range of [int]; anything else is an error
    ([None]). *)
Definition Atoi (s : string) : option Z :=
  match s with
  | EmptyString => None
  | String c r =>
      let neg := Ascii.eqb c "-" in
      let body := if neg || Ascii.eqb c "+" then r else s in
      match body with
      | EmptyString => None
      | _ =>
          match digits body 0 with
          | Some n =>
              let v := if neg then - n else n in
              if (MinInt64 <=? v) && (v <=? MaxInt64) then Some v else None
          | None => None
          end
      end
  end.

(** os.Getenv: the empty string when the variable is not set. *)
Definition Getenv (environ : gmap string string) (name : string) : string :=
  default "" (environ !! name).

End Go.

(** ** package time *)

Module time.
(** A Duration is an int64 count of nanoseconds. *)
Definition Duration := Z.
Definition Nanosecond : Duration := 1.
Definition Second : Duration := 1000000000.
Definition Minute : Duration := 60 * Second.
End time.

(** ** Constants of the actuator *)

Definition UserDataKey := "userData".
Definition DisableTemplatingKey := "disableTemplating".
Definition PostprocessorKey := "postprocessor".

Definition TimeoutInstanceCreate : Z := 5.
Definition TimeoutInstanceDelete : Z := 5.
Definition RetryIntervalInstanceStatus : time.Duration := 10 * time.Second.

Definition MachineInstanceStateAnnotationName := "machine.uccp.io/instance-state".
Definition ErrorState := "ERROR".
Definition OpenstackIdAnnotationKey := "openstack-resourceId".

Definition createEventAction := "Create".
Definition updateEventAction := "Update".
Definition deleteEventAction := "Delete".
Definition noEventAction := "".

Definition ClusterLabel := "machine.uccp.io/cluster-api-cluster".
Definition InstanceCreateTimeoutEnv := "CLUSTER_API_OPENSTACK_INSTANCE_CREATE_TIMEOUT".

(** ** getTimeout *)

Definition getTimeout (environ : gmap string string) (name : string) (timeout : Z)
  : time.Duration :=
  let v := Go.Getenv environ name in
  if negb (String.eqb v "") then
    match Go.Atoi v with
    | Some timeout' => timeout'
    | None => timeout
    end
  else timeout.

(** The timeout [Create] hands to the poll:
    [getTimeout(...) * time.Minute], an int64 product. *)
Definition instanceCreateTimeout (environ : gmap string string) : time.Duration :=
  Go.mul64 (getTimeout environ InstanceCreateTimeoutEnv TimeoutInstanceCreate) time.Minute.

(** ** Errors *)

Module apierrors.

(** machine-api-operator's MachineError: a reason code and a message. *)
Record MachineError := { Reason : string; Message : string }.

Definition InvalidConfigurationMachineError := "InvalidConfiguration".
Definition CreateMachineError := "CreateError".
Definition DeleteMachineError := "DeleteError".

Definition InvalidMachineConfiguration (msg : string) : MachineError :=
  {| Reason := InvalidConfigurationMachineError; Message := msg |}.
Definition CreateMachine (msg : string) : MachineError :=
  {| Reason := CreateMachineError; Message := msg |}.
Definition DeleteMachine (msg : string) : MachineError :=
  {| Reason := DeleteMachineError; Message := msg |}.

End apierrors.

(** A non-nil Go [error]: a classified MachineError, or any other error
    (built by fmt.Errorf or handed back by a collaborator), which carries
    only its text. *)
Inductive error :=
| Classified (e : apierrors.MachineError)
| Plain (msg : string).

Definition goerr := option error.

(** err.Error(), what the verbs %v, %s and %w print. *)
Definition errorString (e : error) : string :=
  match e with
  | Classified m => apierrors.Message m
  | Plain msg => msg
  end.

Definition Errorf (msg : string) : error := Plain msg.

(** ** The records *)

Module corev1.

Inductive NodeAddressType :=
| NodeHostName | NodeExternalIP | NodeInternalIP | NodeExternalDNS | NodeInternalDNS.

Record NodeAddress := { Type_ : NodeAddressType; Address : string }.

Record Secret := { SecretName : string; Data : gmap string string }.

Inductive EventType := EventTypeNormal | EventTypeWarning.

End corev1.

Module metav1.
(** [Annotations] is [None] for a nil map; [Labels] is only read, and a
    read of a nil map and of an empty one both give the empty string. *)
Record ObjectMeta := {
  Name : string;
  Namespace : string;
  Labels : gmap string string;
  Annotations : option (gmap string string)
}.
End metav1.

Module machinev1.

Record MachineSpec := {
  ProviderID : option string;
  ProviderSpec : string  (* the raw provider configuration blob *)
}.

Record MachineStatus := {
  ErrorReason : option string;
  ErrorMessage : option string;
  Addresses : list corev1.NodeAddress
}.

Record Machine := {
  ObjectMeta : metav1.ObjectMeta;
  Spec : MachineSpec;
  Status : MachineStatus
}.

End machinev1.

Module openstackconfigv1.

Record SecretReference := { Name : string; Namespace : string }.

(** The fields of the decoded provider spec the actuator reads;
    [RootVolume] is only tested against nil. *)
Record OpenstackProviderSpec := {
  UserDataSecret : option SecretReference;
  FloatingIP : string;
  KeyName : string;
  Image : string;
  Flavor : string;
  AvailabilityZone : string;
  RootVolume : option unit
}.

End openstackconfigv1.

(** The element type [getIPsFromInstance] unmarshals into. [Version] is
    a float64 in the source; it is only compared with the constant 4. *)
Record networkInterface := {
  Address : string;
  Version : Z;
  Type_ : string
}.

Module clients.

(** One value of the [Addresses] map of a server, an [interface{}]: what
    the json.Marshal / json.Unmarshal round trip makes of it. *)
Inductive AddressBlob :=
| Interfaces (l : list networkInterface)
| MarshalError (msg : string)
| UnmarshalError (msg : string).

(** [Addresses] lists the map in the order the [range] statement visits
    it. *)
Record Instance := {
  ID : string;
  Status : string;
  Addresses : list (string * AddressBlob)
}.

Record InstanceListOpts := { Name : string; Image : string; Flavor : string }.

End clients.

#[global] Instance NodeAddressType_eq_dec : EqDecision corev1.NodeAddressType.
Proof. solve_decision. Defined.
#[global] Instance NodeAddress_eq_dec : EqDecision corev1.NodeAddress.
Proof. solve_decision. Defined.

(** *** Field updates *)

Definition setAnnotations (a : option (gmap string string)) (m : machinev1.Machine)
  : machinev1.Machine :=
  let o := machinev1.ObjectMeta m in
  {| machinev1.ObjectMeta :=
       {| metav1.Name := metav1.Name o; metav1.Namespace := metav1.Namespace o;
          metav1.Labels := metav1.Labels o; metav1.Annotations := a |};
     machinev1.Spec := machinev1.Spec m;
     machinev1.Status := machinev1.Status m |}.

Definition setProviderID (p : option string) (m : machinev1.Machine) : machinev1.Machine :=
  {| machinev1.ObjectMeta := machinev1.ObjectMeta m;
     machinev1.Spec :=
       {| machinev1.ProviderID := p;
          machinev1.ProviderSpec := machinev1.ProviderSpec (machinev1.Spec m) |};
     machinev1.Status := machinev1.Status m |}.

Definition setStatus (s : machinev1.MachineStatus) (m : machinev1.Machine) : machinev1.Machine :=
  {| machinev1.ObjectMeta := machinev1.ObjectMeta m;
     machinev1.Spec := machinev1.Spec m;
     machinev1.Status := s |}.

Definition setErrorReason (r : option string) (s : machinev1.MachineStatus)
  : machinev1.MachineStatus :=
  {| machinev1.ErrorReason := r;
     machinev1.ErrorMessage := machinev1.ErrorMessage s;
     machinev1.Addresses := machinev1.Addresses s |}.

Definition setErrorMessage (msg : option string) (s : machinev1.MachineStatus)
  : machinev1.MachineStatus :=
  {| machinev1.ErrorReason := machinev1.ErrorReason s;
     machinev1.ErrorMessage := msg;
     machinev1.Addresses := machinev1.Addresses s |}.

Definition setAddresses (l : list corev1.NodeAddress) (s : machinev1.MachineStatus)
  : machinev1.MachineStatus :=
  {| machinev1.ErrorReason := machinev1.ErrorReason s;
     machinev1.ErrorMessage := machinev1.ErrorMessage s;
     machinev1.Addresses := l |}.

(** Shorthands for the promoted fields [machine.Name] and so on. *)
Definition machineName (m : machinev1.Machine) : string :=
  metav1.Name (machinev1.ObjectMeta m).
Definition machineNamespace (m : machinev1.Machine) : string :=
  metav1.Namespace (machinev1.ObjectMeta m).
Definition machineAnnotations (m : machinev1.Machine) : option (gmap string string) :=
  metav1.Annotations (machinev1.ObjectMeta m).
Definition machineProviderID (m : machinev1.Machine) : option string :=
  machinev1.ProviderID (machinev1.Spec m).

(** [m[k]] on a Go map: the zero value when the key is absent or the map nil. *)
Definition mapGet (m : gmap string string) (k : string) : string := default "" (m !! k).
Definition label (m : machinev1.Machine) (k : string) : string :=
  mapGet (metav1.Labels (machinev1.ObjectMeta m)) k.
Definition annotation (m : machinev1.Machine) (k : string) : string :=
  mapGet (default ∅ (machineAnnotations m)) k.

(** [if m.Annotations == nil { m.Annotations = make(...) }; m.Annotations[k] = v] *)
Definition annotate (k v : string) (m : machinev1.Machine) : machinev1.Machine :=
  setAnnotations (Some (<[k := v]> (default ∅ (machineAnnotations m)))) m.

(** ** Calls to collaborators *)

(** One entry of the log: a call the actuator made, with its arguments. *)
Inductive Effect :=
| CallInfrastructuresGet (name : string)
| CallNewInstanceServiceFromMachine (m : machinev1.Machine)
| CallDoesImageExist (image : string)
| CallDoesFlavorExist (flavor : string)
| CallDoesAvailabilityZoneExist (az : string)
| CallSecretsGet (namespace name : string)
| CallGenerateBootstrapToken
| CallNow
| CallClientCreate (secret : option corev1.Secret)
| CallInstanceCreate (clusterName name : string)
    (providerSpec : openstackconfigv1.OpenstackProviderSpec) (userData keyName : string)
| CallGetInstance (id : string)
| CallAssociateFloatingIP (id ip : string)
| CallSetMachineLabels (m : machinev1.Machine) (id : string)
| CallInstanceDelete (id : string)
| CallGetInstanceList (opts : clients.InstanceListOpts)
| CallEventf (eventtype : corev1.EventType) (reason message : string)
| CallClientUpdate (m : machinev1.Machine)
| CallStatusUpdate (m : machinev1.Machine)
| Sleep (d : time.Duration).

Definition Log := list Effect.

(** What the collaborators answer. The functions that take the log are
    calls to a service, whose answer may depend on everything that happened
    before; the others are pure helpers of packages that are not part of
    the actuator (spec decoding, templates, the transpiler). *)
Record World := {
  Environ : gmap string string;
  (** [oc.client != nil] *)
  hasClient : bool;
  TokenTTL : time.Duration;
  InfrastructuresGet : Log -> string -> option string * goerr;
  NewInstanceServiceFromMachine : Log -> machinev1.Machine -> goerr;
  MachineSpecFromProviderSpec :
    string -> option openstackconfigv1.OpenstackProviderSpec * goerr;
  DoesImageExist : Log -> string -> goerr;
  DoesFlavorExist : Log -> string -> goerr;
  DoesAvailabilityZoneExist : Log -> string -> goerr;
  SecretsGet : Log -> string -> string -> option corev1.Secret * goerr;
  masterStartupScript : machinev1.Machine -> string -> string * goerr;
  nodeStartupScript : machinev1.Machine -> string -> string -> string * goerr;
  GenerateBootstrapToken : Log -> string * goerr;
  Now : Log -> Z;
  GenerateTokenSecret : string -> Z -> option corev1.Secret * goerr;
  ClientCreate : Log -> option corev1.Secret -> goerr;
  clconfigParse : string -> string * list string;
  clconfigConvert : string -> string * list string;
  jsonMarshal : string -> string * goerr;
  InstanceCreate :
    Log -> string -> string -> openstackconfigv1.OpenstackProviderSpec ->
    string -> string -> option clients.Instance * goerr;
  GetInstance : Log -> string -> option clients.Instance * goerr;
  AssociateFloatingIP : Log -> string -> string -> goerr;
  SetMachineLabels : Log -> machinev1.Machine -> string -> goerr;
  InstanceDelete : Log -> string -> goerr;
  GetInstanceList : Log -> clients.InstanceListOpts -> list clients.Instance * goerr;
  ClientUpdate : Log -> machinev1.Machine -> goerr;
  StatusUpdate : Log -> machinev1.Machine -> goerr;
  (** The number of ticks for which a poll without a time limit is
      watched. *)
  Horizon : nat
}.

(** ** The monad of a function body *)

(** The record the actuator's [machine] pointer refers to, and the log. *)
Record State := { machine : machinev1.Machine; log : Log }.

(** A statement either goes on with a value, or executes [return r], or
    panics, or is still waiting in a poll without a time limit when the
    horizon is reached. *)
Inductive Res (R A : Type) :=
| Val (a : A)
| Returned (r : R)
| Panic
| Unfinished.
Arguments Val {R A} a.
Arguments Returned {R A} r.
Arguments Panic {R A}.
Arguments Unfinished {R A}.

Definition M (R A : Type) : Type := State -> Res R A * State.

Definition ret {R A} (a : A) : M R A := fun s => (Val a, s).

Definition Return {R A} (r : R) : M R A := fun s => (Returned r, s).

Definition panic {R A} : M R A := fun s => (Panic, s).

Definition unfinished {R A} : M R A := fun s => (Unfinished, s).

Definition bind {R A B} (c : M R A) (k : A -> M R B) : M R B :=
  fun s =>
    match c s with
    | (Val a, s') => k a s'
    | (Returned r, s') => (Returned r, s')
    | (Panic, s') => (Panic, s')
    | (Unfinished, s') => (Unfinished, s')
    end.

(** A call of a function whose body is [body]: the caller gets what the
    body returned. *)
Definition call {R R'} (body : M R R) : M R' R :=
  fun s =>
    match body s with
    | (Val r, s') => (Val r, s')
    | (Returned r, s') => (Val r, s')
    | (Panic, s') => (Panic, s')
    | (Unfinished, s') => (Unfinished, s')
    end.

Notation "'let*' p ':=' c1 'in' c2" := (bind c1 (fun p => c2))
  (at level 10, p pattern, c1 at level 100, c2 at level 200).
Notation "c1 ;; c2" := (bind c1 (fun _ => c2))
  (at level 100, right associativity).

Definition getMachine {R} : M R machinev1.Machine := fun s => (Val (machine s), s).

Definition modifyMachine {R} (f : machinev1.Machine -> machinev1.Machine) : M R unit :=
  fun s => (Val tt, {| machine := f (machine s); log := log s |}).

(** A call to a collaborator: it answers from the log so far, and the call
    is logged. *)
Definition invoke {R A} (e : Effect) (answer : Log -> A) : M R A :=
  fun s => (Val (answer (log s)), {| machine := machine s; log := log s ++ [e] |}).

(** [p.f] on a pointer [p]. *)
Definition deref {R A} (p : option A) : M R A :=
  match p with
  | Some a => ret a
  | None => panic
  end.

(** [if err != nil { return err }] *)
Definition check (err : goerr) : M goerr unit :=
  match err with
  | Some e => Return (Some e)
  | None => ret tt
  end.

(** [if err != nil { return f(err) }] *)
Definition checkWith {R} (err : goerr) (f : error -> M R R) : M R unit :=
  match err with
  | Some e => let* r := f e in Return r
  | None => ret tt
  end.

Definition isNil {A} (p : option A) : bool :=
  match p with
  | Some _ => false
  | None => true
  end.

(** ** wait.PollImmediate, in discrete time

    [util.PollImmediate] hands its arguments to [wait.PollImmediate] of
    k8s.io/apimachinery. That function tries the condition at once. If
    the condition is neither done nor failed, a ticker of the interval
    and, unless the timeout is zero, a timer of the timeout are started;
    the condition is tried again at every tick, and once more when the
    timer fires and closes the channel of the ticks; only then the poll
    ends with [ErrWaitTimeout]. With a timeout of zero there is no timer
    and the poll has no time limit.

    Time is discrete here: a call takes no time, a wait is logged as
    [Sleep d], and a tick that falls on the instant of the timer is
    delivered before the channel is closed. The interval is positive (the
    actuator polls every 10 seconds). *)

Definition ErrWaitTimeout : error := Plain "timed out waiting for the condition".

(** The number of ticks of the interval that fit in the timeout. *)
Definition pollTicks (interval timeout : time.Duration) : nat :=
  Z.to_nat (timeout / interval).

(** The condition is tried at once and then after every tick, as long as
    it is neither done nor failed and ticks are left. The result is what
    the condition answered last: an error, or done, or (after the last
    tick) not done yet. [V] holds the variables the closure captures and
    assigns. *)
Fixpoint pollLoop {R V} (ticks : nat) (interval : time.Duration)
  (condition : V -> M R (V * (bool * goerr))) (vars : V) : M R (V * (bool * goerr)) :=
  let* (vars', (done, err)) := condition vars in
  match err with
  | Some e => ret (vars', (done, Some e))
  | None =>
      if done then ret (vars', (true, None))
      else
        match ticks with
        | O => ret (vars', (false, None))
        | S n => invoke (Sleep interval) (fun _ => tt) ;; pollLoop n interval condition vars'
        end
  end.

(** How a poll ends on an answer of the condition that is final. *)
Definition pollAnswer {R V} (vars : V) (done : bool) (err : goerr)
  (otherwise : M R (V * goerr)) : M R (V * goerr) :=
  match err with
  | Some e => ret (vars, Some e)
  | None => if done then ret (vars, None) else otherwise
  end.

(** With a timeout the ticks that fit in it are taken; then the timer
    fires, after what is left of the timeout, and the condition is tried
    a last time. Without one the ticks go on, here up to the horizon. *)
Definition PollImmediate {R V} (horizon : nat) (interval timeout : time.Duration)
  (condition : V -> M R (V * (bool * goerr))) (vars : V) : M R (V * goerr) :=
  if timeout =? 0 then
    let* (vars', (done, err)) := pollLoop horizon interval condition vars in
    pollAnswer vars' done err unfinished
  else
    let ticks := pollTicks interval timeout in
    let* (vars', (done, err)) := pollLoop ticks interval condition vars in
    pollAnswer vars' done err (
      let remaining := timeout - Z.of_nat ticks * interval in
      (if 0 <? remaining then invoke (Sleep remaining) (fun _ => tt) else ret tt) ;;
      let* (vars'', (done, err)) := condition vars' in
      pollAnswer vars'' done err (ret (vars'', Some ErrWaitTimeout))).

(** ** getIPsFromInstance *)

Definition addressType (t : string) : option corev1.NodeAddressType :=
  if String.eqb t "floating" then Some corev1.NodeExternalIP
  else if String.eqb t "fixed" then Some corev1.NodeInternalIP
  else None.

(** The body of the inner loop: one interface of one network. *)
Definition appendInterface (nodeAddresses : list corev1.NodeAddress)
  (address : networkInterface) : list corev1.NodeAddress :=
  if negb (Version address =? 4) then nodeAddresses
  else
    match addressType (Type_ address) with
    | Some t =>
        nodeAddresses ++ [ {| corev1.Type_ := t; corev1.Address := Address address |} ]
    | None => nodeAddresses
    end.

(** The outer loop over [instance.Addresses]. *)
Fixpoint rangeAddresses (id : string) (addresses : list (string * clients.AddressBlob))
  (nodeAddresses : list corev1.NodeAddress) : list corev1.NodeAddress * goerr :=
  match addresses with
  | [] => (nodeAddresses, None)
  | (_, b) :: rest =>
      match b with
      | clients.MarshalError msg =>
          ([], Some (Errorf ("error marshalling addresses for instance " +:+ id +:+ ": " +:+ msg)))
      | clients.UnmarshalError msg =>
          ([], Some (Errorf ("error unmarshalling addresses for instance " +:+ id +:+ ": " +:+ msg)))
      | clients.Interfaces interfaceList =>
          rangeAddresses id rest (fold_left appendInterface interfaceList nodeAddresses)
      end
  end.

Definition getIPsFromInstance (instance : clients.Instance)
  : list corev1.NodeAddress * goerr :=
  rangeAddresses (clients.ID instance) (clients.Addresses instance) [].

(** equality.Semantic.DeepEqual on two address slices: element-wise and in
    order; a nil and an empty slice are equal. *)
Definition DeepEqual (a b : list corev1.NodeAddress) : bool := bool_decide (a = b).

Definition nl : string := String (ascii_of_nat 10) "".

Definition BootstrapTokenIDKey := "token-id".
Definition BootstrapTokenSecretKey := "token-secret".
Definition TokenFromIDAndSecret (id secret : string) : string := id +:+ "." +:+ secret.

(** Lines 558-567 of [handleMachineError]: the reason and the message of
    the error are set on the status, and the instance-state annotation is
    set to the error state. *)
Definition recordError (err : apierrors.MachineError) (m : machinev1.Machine)
  : machinev1.Machine :=
  let reason := apierrors.Reason err in
  let message := apierrors.Message err in
  let m := setStatus (setErrorReason (Some reason) (machinev1.Status m)) m in
  let m := setStatus (setErrorMessage (Some message) (machinev1.Status m)) m in
  annotate MachineInstanceStateAnnotationName ErrorState m.

(** Line 579 of [updateAnnotation]: the providerID of an instance. *)
Definition providerIDOf (instance : clients.Instance) : string :=
  "openstack:///" +:+ clients.ID instance.

(** The machine after lines 581-590 of [updateAnnotation] when the check
    passes: bound to the instance if it was not bound. *)
Definition bindProviderID (instance : clients.Instance) (m : machinev1.Machine)
  : machinev1.Machine :=
  match machineProviderID m with
  | Some _ => m
  | None => setProviderID (Some (providerIDOf instance)) m
  end.

(** Lines 594-598 of [updateAnnotation]: the resource id and the state of
    the instance are annotated. *)
Definition annotateInstance (instance : clients.Instance) (m : machinev1.Machine)
  : machinev1.Machine :=
  annotate MachineInstanceStateAnnotationName (clients.Status instance)
    (annotate OpenstackIdAnnotationKey (clients.ID instance) m).

(** Lines 609-617 of [updateAnnotation]: the host name and the internal
    DNS name, both the name of the machine, are appended. *)
Definition withHostAddresses (nodeAddresses : list corev1.NodeAddress) (name : string)
  : list corev1.NodeAddress :=
  let nodeAddresses :=
    nodeAddresses ++ [ {| corev1.Type_ := corev1.NodeHostName; corev1.Address := name |} ] in
  nodeAddresses ++ [ {| corev1.Type_ := corev1.NodeInternalDNS; corev1.Address := name |} ].

(** The error of the providerID check of [updateAnnotation]. *)
Definition providerIDChanged (old new : string) : apierrors.MachineError :=
  apierrors.InvalidMachineConfiguration
    ("providerID has changed from " +:+ old +:+ " to " +:+ new
     +:+ ". This is not supported. "
     +:+ "The recommended action is to delete and recreate this machine.").

(** The error of the providerID guard of [Create]. *)
Definition instanceDestroyed (name : string) : apierrors.MachineError :=
  apierrors.InvalidMachineConfiguration
    ("the instance has been destroyed for the machine " +:+ name
     +:+ ", cannot recreate it." +:+ nl).

(** ** The actuator *)

Section Actuator.

Variable w : World.

(** *** The collaborators' methods *)

Definition Eventf {R} (eventtype : corev1.EventType) (reason message : string) : M R unit :=
  invoke (CallEventf eventtype reason message) (fun _ => tt).

(** A method of [oc.client], a nil interface when there is no client. *)
Definition client_Update {R} (m : machinev1.Machine) : M R goerr :=
  if hasClient w then invoke (CallClientUpdate m) (fun l => ClientUpdate w l m)
  else panic.

Definition client_Status_Update {R} (m : machinev1.Machine) : M R goerr :=
  if hasClient w then invoke (CallStatusUpdate m) (fun l => StatusUpdate w l m)
  else panic.

Definition client_Create {R} (secret : option corev1.Secret) : M R goerr :=
  if hasClient w then invoke (CallClientCreate secret) (fun l => ClientCreate w l secret)
  else panic.

Definition newInstanceService {R} : M R goerr :=
  let* m := getMachine in
  invoke (CallNewInstanceServiceFromMachine m) (fun l => NewInstanceServiceFromMachine w l m).

(** *** getClusterInfraName *)

Definition getClusterInfraName {R} : M R (string * goerr) :=
  call (
    let* (clusterInfra, err) :=
      invoke (CallInfrastructuresGet "cluster") (fun l => InfrastructuresGet w l "cluster") in
    match err with
    | Some e =>
        Return ("", Some (Errorf ("Failed to retrieve cluster Infrastructure object: "
                                    +:+ errorString e)))
    | None =>
        let* infrastructureName := deref clusterInfra in
        Return (infrastructureName, None)
    end).

(** *** handleMachineError *)

Definition handleMachineError {R} (err : apierrors.MachineError) (eventAction : string)
  : M R goerr :=
  call (
    (if negb (String.eqb eventAction noEventAction) then
       Eventf corev1.EventTypeWarning ("Failed" +:+ eventAction) (apierrors.Reason err)
     else ret tt) ;;
    (if hasClient w then
       modifyMachine (recordError err) ;;
       let* m := getMachine in
       let* err := client_Update m in
       match err with
       | Some e => Return (Some (Errorf ("unable to update machine status: " +:+ errorString e)))
       | None => ret tt
       end
     else ret tt) ;;
    Return (Some (Classified err))).

(** *** updateAnnotation *)

Definition updateAnnotation {R} (instance : option clients.Instance)
  (clusterInfraName : string) : M R goerr :=
  call (
    let* i := deref instance in
    let providerID := providerIDOf i in
    let* m := getMachine in
    match machineProviderID m with
    | Some p =>
        if negb (String.eqb p providerID) then
          let verr := providerIDChanged p providerID in
          let* e := handleMachineError verr updateEventAction in
          Return e
        else ret tt
    | None => modifyMachine (setProviderID (Some providerID))
    end ;;
    let* m := getMachine in
    let statusCopy := machinev1.Status m in
    modifyMachine (annotateInstance i) ;;
    let* m := getMachine in
    let* err := client_Update m in
    check err ;;
    let (nodeAddresses, err) := getIPsFromInstance i in
    check err ;;
    let* m := getMachine in
    let nodeAddresses := withHostAddresses nodeAddresses (machineName m) in
    let machineCopy := setStatus (setAddresses nodeAddresses (machinev1.Status m)) m in
    (if negb (DeepEqual (machinev1.Addresses (machinev1.Status m))
                (machinev1.Addresses (machinev1.Status machineCopy)))
     then
       let* err := client_Status_Update machineCopy in
       check err
     else ret tt) ;;
    modifyMachine (setStatus statusCopy) ;;
    let* m := getMachine in
    let* err := client_Update m in
    Return err).

(** *** instanceExists *)

Definition instanceExists {R} : M R (option clients.Instance * goerr) :=
  call (
    let* m := getMachine in
    let (machineSpec, err) :=
      MachineSpecFromProviderSpec w (machinev1.ProviderSpec (machinev1.Spec m)) in
    checkWith err (fun e =>
      ret (None, Some (Errorf (nl +:+ "Error getting the machine spec from the provider spec (machine/actuator.go 457): "
                                 +:+ errorString e)))) ;;
    let* spec := deref machineSpec in
    let opts := {| clients.Name := machineName m;
                   clients.Image := openstackconfigv1.Image spec;
                   clients.Flavor := openstackconfigv1.Flavor spec |} in
    let* err := newInstanceService in
    checkWith err (fun e =>
      ret (None, Some (Errorf (nl +:+ "Error getting a new instance service from the machine (machine/actuator.go 467): "
                                 +:+ errorString e)))) ;;
    let* (instanceList, err) :=
      invoke (CallGetInstanceList opts) (fun l => GetInstanceList w l opts) in
    checkWith err (fun e =>
      ret (None, Some (Errorf (nl +:+ "Error listing the instances: " +:+ errorString e)))) ;;
    match instanceList with
    | [] => Return (None, None)
    | i :: _ => Return (Some i, None)
    end).

(** *** createBootstrapToken *)

Definition createBootstrapToken {R} : M R (string * goerr) :=
  call (
    let* (token, err) :=
      invoke CallGenerateBootstrapToken (fun l => GenerateBootstrapToken w l) in
    checkWith err (fun e => ret ("", Some e)) ;;
    let* now := invoke CallNow (fun l => Now w l) in
    let expiration := now + TokenTTL w in
    let (tokenSecret, err) := GenerateTokenSecret w token expiration in
    match err with
    | Some _ => panic
    | None =>
        let* err := client_Create tokenSecret in
        checkWith err (fun e => ret ("", Some e)) ;;
        let* secret := deref tokenSecret in
        Return (TokenFromIDAndSecret
                  (mapGet (corev1.Data secret) BootstrapTokenIDKey)
                  (mapGet (corev1.Data secret) BootstrapTokenSecretKey), None)
    end).

(** *** validateMachine *)

Definition validateMachine {R} : M R goerr :=
  call (
    let* m := getMachine in
    let (machineSpec, err) :=
      MachineSpecFromProviderSpec w (machinev1.ProviderSpec (machinev1.Spec m)) in
    checkWith err (fun e =>
      ret (Some (Errorf (nl +:+ "Error getting the machine spec from the provider spec: "
                           +:+ errorString e)))) ;;
    let* err := newInstanceService in
    checkWith err (fun e =>
      ret (Some (Errorf (nl +:+ "Error getting a new instance service from the machine: "
                           +:+ errorString e)))) ;;
    let* spec := deref machineSpec in
    (if isNil (openstackconfigv1.RootVolume spec) then
       let* err := invoke (CallDoesImageExist (openstackconfigv1.Image spec))
                     (fun l => DoesImageExist w l (openstackconfigv1.Image spec)) in
       check err
     else ret tt) ;;
    let* err := invoke (CallDoesFlavorExist (openstackconfigv1.Flavor spec))
                  (fun l => DoesFlavorExist w l (openstackconfigv1.Flavor spec)) in
    check err ;;
    let* err := invoke (CallDoesAvailabilityZoneExist (openstackconfigv1.AvailabilityZone spec))
                  (fun l => DoesAvailabilityZoneExist w l
                              (openstackconfigv1.AvailabilityZone spec)) in
    check err ;;
    Return None).

(** *** Create, Delete, Update, Exists

    The four operations are called by the reconcile driver; their
    result is a value or a panic. *)

(** Lines 272-304: the cluster label, the instance service, the provider
    spec and the validation of the machine. *)
Definition Create_validate
  : M goerr (string * option openstackconfigv1.OpenstackProviderSpec) :=
  let* (clusterInfraName, err) := getClusterInfraName in
  check err ;;
  let* m := getMachine in
  let clusterNameLabel := label m ClusterLabel in
  (if negb (String.eqb clusterNameLabel clusterInfraName) then
     let verr := apierrors.InvalidMachineConfiguration
       (ClusterLabel +:+ " label value is incorrect: " +:+ clusterNameLabel
        +:+ ", machine " +:+ machineName m +:+ " cannot join cluster " +:+ clusterInfraName) in
     let* e := handleMachineError verr createEventAction in
     Return e
   else ret tt) ;;
  let* err := newInstanceService in
  check err ;;
  let (providerSpec, err) :=
    MachineSpecFromProviderSpec w (machinev1.ProviderSpec (machinev1.Spec m)) in
  checkWith err (fun e =>
    handleMachineError
      (apierrors.InvalidMachineConfiguration
         ("Cannot unmarshal providerSpec field: " +:+ errorString e))
      createEventAction) ;;
  let* err := validateMachine in
  checkWith err (fun e =>
    handleMachineError
      (apierrors.InvalidMachineConfiguration
         ("Machine validation failed: " +:+ errorString e))
      createEventAction) ;;
  ret (clusterInfraName, providerSpec).

(** Lines 311-316: a machine that already has a providerID is refused. *)
Definition Create_guard : M goerr unit :=
  let* m := getMachine in
  if negb (isNil (machineProviderID m)) then
    let verr := instanceDestroyed (machineName m) in
    let* e := handleMachineError verr createEventAction in
    Return e
  else ret tt.

(** Lines 318-351: the startup script of the machine. The result is
    [(userData, disableTemplating, postprocessor, postprocess)]. *)
Definition Create_userData (providerSpec : option openstackconfigv1.OpenstackProviderSpec)
  : M goerr (openstackconfigv1.OpenstackProviderSpec * (string * bool * string * bool)) :=
  let* spec := deref providerSpec in
  match openstackconfigv1.UserDataSecret spec with
  | None => ret (spec, ("", false, "", false))
  | Some ref =>
      let* m := getMachine in
      let namespace :=
        if String.eqb (openstackconfigv1.Namespace ref) "" then machineNamespace m
        else openstackconfigv1.Namespace ref in
      (if String.eqb (openstackconfigv1.Name ref) "" then
         Return (Some (Errorf "UserDataSecret name must be provided"))
       else ret tt) ;;
      let* (userDataSecret, err) :=
        invoke (CallSecretsGet namespace (openstackconfigv1.Name ref))
          (fun l => SecretsGet w l namespace (openstackconfigv1.Name ref)) in
      check err ;;
      let* secret := deref userDataSecret in
      match corev1.Data secret !! UserDataKey with
      | None =>
          Return (Some (Errorf ("Machine's userdata secret " +:+ openstackconfigv1.Name ref
                                  +:+ " in namespace " +:+ namespace
                                  +:+ " did not contain key " +:+ UserDataKey)))
      | Some userData =>
          let disableTemplating :=
            negb (isNil (corev1.Data secret !! DisableTemplatingKey)) in
          let p := corev1.Data secret !! PostprocessorKey in
          ret (spec, (userData, disableTemplating, default "" p, negb (isNil p)))
      end
  end.

(** Lines 353-377: templating of the startup script. *)
Definition Create_render (userData : string) (disableTemplating : bool) : M goerr string :=
  if negb (String.eqb userData "") && negb disableTemplating then
    let* m := getMachine in
    if negb (String.eqb (machineName m) "") then
      let (userDataRendered, err) := masterStartupScript w m userData in
      checkWith err (fun e =>
        handleMachineError
          (apierrors.CreateMachine ("error creating Openstack instance: " +:+ errorString e))
          createEventAction) ;;
      ret userDataRendered
    else
      let* (token, err) := createBootstrapToken in
      checkWith err (fun e =>
        handleMachineError
          (apierrors.CreateMachine ("error creating Openstack instance: " +:+ errorString e))
          createEventAction) ;;
      let (userDataRendered, err) := nodeStartupScript w m token userData in
      checkWith err (fun e =>
        handleMachineError
          (apierrors.CreateMachine ("error creating Openstack instance: " +:+ errorString e))
          createEventAction) ;;
      ret userDataRendered
  else ret userData.

Definition reportString (entries : list string) : string := String.concat nl entries.

(** Lines 385-409: the optional postprocessor. *)
Definition Create_postprocess (userDataRendered : string) (postprocessor : string)
  (postprocess : bool) : M goerr string :=
  if postprocess then
    if String.eqb postprocessor "ct" then
      let (clcfg, report) := clconfigParse w userDataRendered in
      match report with
      | _ :: _ => Return (Some (Errorf ("Postprocessor error: " +:+ reportString report)))
      | [] => ret tt
      end ;;
      let (ignCfg, report) := clconfigConvert w clcfg in
      match report with
      | _ :: _ => Return (Some (Errorf ("Postprocessor error: " +:+ reportString report)))
      | [] => ret tt
      end ;;
      let (ud, err) := jsonMarshal w ignCfg in
      checkWith err (fun e =>
        ret (Some (Errorf ("Postprocessor error: " +:+ errorString e)))) ;;
      ret ud
    else
      Return (Some (Errorf ("Postprocessor error: unknown postprocessor: '"
                              +:+ postprocessor +:+ "'")))
  else ret userDataRendered.

(** The closure handed to PollImmediate (lines 419-425). It assigns the
    variable [instance] of [Create], which it also reads. *)
Definition pollCondition (instance : option clients.Instance)
  : M goerr (option clients.Instance * (bool * goerr)) :=
  let* i := deref instance in
  let* (instance', err) :=
    invoke (CallGetInstance (clients.ID i)) (fun l => GetInstance w l (clients.ID i)) in
  match err with
  | Some _ => ret (instance', (false, None))
  | None =>
      let* i' := deref instance' in
      ret (instance', (String.eqb (clients.Status i') "ACTIVE", None))
  end.

(** Lines 411-438: the instance is created, polled until it is active,
    and given its floating IP. *)
Definition Create_provision (providerSpec : openstackconfigv1.OpenstackProviderSpec)
  (userDataRendered : string) : M goerr (option clients.Instance) :=
  let* m := getMachine in
  let clusterName := machineNamespace m +:+ "-" +:+ label m ClusterLabel in
  let* (instance, err) :=
    invoke (CallInstanceCreate clusterName (machineName m) providerSpec userDataRendered
              (openstackconfigv1.KeyName providerSpec))
      (fun l => InstanceCreate w l clusterName (machineName m) providerSpec userDataRendered
                  (openstackconfigv1.KeyName providerSpec)) in
  checkWith err (fun e =>
    handleMachineError
      (apierrors.CreateMachine ("error creating Openstack instance: " +:+ errorString e))
      createEventAction) ;;
  let instanceCreateTimeout := instanceCreateTimeout (Environ w) in
  let* (instance, err) :=
    PollImmediate (Horizon w) RetryIntervalInstanceStatus instanceCreateTimeout
      pollCondition instance in
  checkWith err (fun e =>
    handleMachineError
      (apierrors.CreateMachine ("error creating Openstack instance: " +:+ errorString e))
      createEventAction) ;;
  (if negb (String.eqb (openstackconfigv1.FloatingIP providerSpec) "") then
     let* i := deref instance in
     let* err :=
       invoke (CallAssociateFloatingIP (clients.ID i) (openstackconfigv1.FloatingIP providerSpec))
         (fun l => AssociateFloatingIP w l (clients.ID i)
                     (openstackconfigv1.FloatingIP providerSpec)) in
     checkWith err (fun e =>
       handleMachineError
         (apierrors.CreateMachine ("Associate floatingIP err: " +:+ errorString e))
         createEventAction)
   else ret tt) ;;
  ret instance.

(** Lines 440-446: the labels of the instance, the event and the status
    write-back. *)
Definition Create_finish (instance : option clients.Instance) (clusterInfraName : string)
  : M goerr unit :=
  let* i := deref instance in
  let* m := getMachine in
  let* err :=
    invoke (CallSetMachineLabels m (clients.ID i))
      (fun l => SetMachineLabels w l m (clients.ID i)) in
  (match err with
   | Some _ => Return None
   | None => ret tt
   end) ;;
  let* m := getMachine in
  Eventf corev1.EventTypeNormal "Created" ("Created machine " +:+ machineName m) ;;
  let* e := updateAnnotation instance clusterInfraName in
  Return e.

(** Lines 272-438: everything up to the provisioned instance. *)
Definition Create_provisioned : M goerr (string * option clients.Instance) :=
  let* (clusterInfraName, providerSpec) := Create_validate in
  Create_guard ;;
  let* (spec, (userData, disableTemplating, postprocessor, postprocess)) :=
    Create_userData providerSpec in
  let* userDataRendered := Create_render userData disableTemplating in
  let* userDataRendered := Create_postprocess userDataRendered postprocessor postprocess in
  let* instance := Create_provision spec userDataRendered in
  ret (clusterInfraName, instance).

Definition Create : M Empty_set goerr :=
  call (
    let* (clusterInfraName, instance) := Create_provisioned in
    Create_finish instance clusterInfraName ;;
    Return None).

(** *** Delete *)

Definition Delete : M Empty_set goerr :=
  call (
    let* err := newInstanceService in
    check err ;;
    let* (instance, err) := instanceExists in
    check err ;;
    (if isNil instance then Return None else ret tt) ;;
    let* m := getMachine in
    let id := annotation m OpenstackIdAnnotationKey in
    let* err := invoke (CallInstanceDelete id) (fun l => InstanceDelete w l id) in
    checkWith err (fun e =>
      handleMachineError
        (apierrors.DeleteMachine ("error deleting Openstack instance: " +:+ errorString e))
        deleteEventAction) ;;
    Eventf corev1.EventTypeNormal "Deleted" ("Deleted machine " +:+ machineName m) ;;
    Return None).

(** *** Update *)

Definition Update : M Empty_set goerr :=
  call (
    let* (clusterInfraName, err) := getClusterInfraName in
    check err ;;
    let* (instance, err) := instanceExists in
    let* m := getMachine in
    checkWith err (fun e =>
      ret (Some (Errorf ("error fetching OpenStack server for machine " +:+ machineName m
                           +:+ ": " +:+ errorString e)))) ;;
    let* e := updateAnnotation instance clusterInfraName in
    Return e).

(** *** Exists *)

Definition Exists : M Empty_set (bool * goerr) :=
  call (
    let* (instance, err) := instanceExists in
    checkWith err (fun e =>
      ret (false, Some (Errorf ("Error checking if instance exists (machine/actuator.go 346): "
                                  +:+ errorString e)))) ;;
    Return (negb (isNil instance), err)).

End Actuator.

(** ** Properties of runs *)

(** Classes of log entries. *)
Definition notInstanceCreate (e : Effect) : Prop :=
  match e with
  | CallInstanceCreate _ _ _ _ _ => False
  | _ => True
  end.

Definition notInstanceDelete (e : Effect) : Prop :=
  match e with
  | CallInstanceDelete _ => False
  | _ => True
  end.

(** The calls that only look something up: they write nothing to the
    record store, record no event, and create or delete no instance. *)
Definition isLookup (e : Effect) : Prop :=
  match e with
  | CallInfrastructuresGet _ | CallNewInstanceServiceFromMachine _
  | CallDoesImageExist _ | CallDoesFlavorExist _ | CallDoesAvailabilityZoneExist _
  | CallSecretsGet _ _ | CallGetInstanceList _ => True
  | _ => False
  end.

Definition anyCall (e : Effect) : Prop := True.

Definition notStatusUpdate (e : Effect) : Prop :=
  match e with
  | CallStatusUpdate _ => False
  | _ => True
  end.

Definition isStatusUpdate (e : Effect) : bool :=
  match e with
  | CallStatusUpdate _ => true
  | _ => false
  end.

Definition isGetInstance (e : Effect) : bool :=
  match e with
  | CallGetInstance _ => true
  | _ => false
  end.

(** Whatever the outcome, the run only adds entries of class [P] to the
    log. *)
Definition emits {R A} (P : Effect -> Prop) (c : M R A) : Prop :=
  forall s, exists ext, log (c s).2 = log s ++ ext /\ Forall P ext.

(** Whatever the outcome, the run leaves the machine record alone and
    only adds entries of class [P] to the log. *)
Definition quiet {R A} (P : Effect -> Prop) (c : M R A) : Prop :=
  forall s,
    machine (c s).2 = machine s /\ exists ext, log (c s).2 = log s ++ ext /\ Forall P ext.

(** A stretch of a function that returns an [error]: when it goes on, the
    machine record is as before and the log only grew by entries of class
    [P]; when it executes [return], what it returns is not nil. *)
Definition phase {A} (P : Effect -> Prop) (c : M goerr A) : Prop :=
  forall s,
    match (c s).1 with
    | Val _ =>
        machine (c s).2 = machine s /\ exists ext, log (c s).2 = log s ++ ext /\ Forall P ext
    | Returned r => r <> None
    | Panic => True
    | Unfinished => True
    end.

(** ** Concrete worlds *)

(** A scenario fixes the answers that vary between the runs below; every
    other collaborator succeeds. [sc_getInstance n] is the answer to the
    call of GetInstance that follows [n] earlier ones. *)
Record Scenario := {
  sc_environ : gmap string string;
  sc_infra : string;
  sc_service : goerr;
  sc_spec : option openstackconfigv1.OpenstackProviderSpec * goerr;
  sc_secret : option corev1.Secret * goerr;
  sc_client : bool;
  sc_update : goerr;
  sc_labels : goerr;
  sc_created : option clients.Instance * goerr;
  sc_getInstance : nat -> option clients.Instance * goerr;
  sc_list : list clients.Instance;
  sc_delete : goerr
}.

Definition worldOf (sc : Scenario) : World :=
  {| Environ := sc_environ sc;
     hasClient := sc_client sc;
     TokenTTL := 45 * time.Minute;
     InfrastructuresGet := fun _ _ => (Some (sc_infra sc), None);
     NewInstanceServiceFromMachine := fun _ _ => sc_service sc;
     MachineSpecFromProviderSpec := fun _ => sc_spec sc;
     DoesImageExist := fun _ _ => None;
     DoesFlavorExist := fun _ _ => None;
     DoesAvailabilityZoneExist := fun _ _ => None;
     SecretsGet := fun _ _ _ => sc_secret sc;
     masterStartupScript := fun _ userData => (userData, None);
     nodeStartupScript := fun _ _ userData => (userData, None);
     GenerateBootstrapToken := fun _ => ("abcdef.0123456789abcdef", None);
     Now := fun _ => 0;
     GenerateTokenSecret := fun _ _ =>
       (Some {| corev1.SecretName := "bootstrap-token-abcdef";
                corev1.Data := {[ BootstrapTokenIDKey := "abcdef";
                                  BootstrapTokenSecretKey := "0123456789abcdef" ]} |}, None);
     ClientCreate := fun _ _ => None;
     clconfigParse := fun s => (s, []);
     clconfigConvert := fun s => (s, []);
     jsonMarshal := fun s => (s, None);
     InstanceCreate := fun _ _ _ _ _ _ => sc_created sc;
     GetInstance := fun l _ => sc_getInstance sc (length (filter isGetInstance l));
     AssociateFloatingIP := fun _ _ _ => None;
     SetMachineLabels := fun _ _ _ => sc_labels sc;
     InstanceDelete := fun _ _ => sc_delete sc;
     GetInstanceList := fun _ _ => (sc_list sc, None);
     ClientUpdate := fun _ _ => sc_update sc;
     StatusUpdate := fun _ _ => None;
     Horizon := 360 |}.

(** The same world, watched for [h] ticks. *)
Definition with_horizon (h : nat) (w : World) : World :=
  {| Environ := Environ w;
     hasClient := hasClient w;
     TokenTTL := TokenTTL w;
     InfrastructuresGet := InfrastructuresGet w;
     NewInstanceServiceFromMachine := NewInstanceServiceFromMachine w;
     MachineSpecFromProviderSpec := MachineSpecFromProviderSpec w;
     DoesImageExist := DoesImageExist w;
     DoesFlavorExist := DoesFlavorExist w;
     DoesAvailabilityZoneExist := DoesAvailabilityZoneExist w;
     SecretsGet := SecretsGet w;
     masterStartupScript := masterStartupScript w;
     nodeStartupScript := nodeStartupScript w;
     GenerateBootstrapToken := GenerateBootstrapToken w;
     Now := Now w;
     GenerateTokenSecret := GenerateTokenSecret w;
     ClientCreate := ClientCreate w;
     clconfigParse := clconfigParse w;
     clconfigConvert := clconfigConvert w;
     jsonMarshal := jsonMarshal w;
     InstanceCreate := InstanceCreate w;
     GetInstance := GetInstance w;
     AssociateFloatingIP := AssociateFloatingIP w;
     SetMachineLabels := SetMachineLabels w;
     InstanceDelete := InstanceDelete w;
     GetInstanceList := GetInstanceList w;
     ClientUpdate := ClientUpdate w;
     StatusUpdate := StatusUpdate w;
     Horizon := h |}.

Definition floating4 : networkInterface :=
  {| Address := "203.0.113.7"; Version := 4; Type_ := "floating" |}.
Definition fixed4 : networkInterface :=
  {| Address := "10.0.0.5"; Version := 4; Type_ := "fixed" |}.
Definition fixed6 : networkInterface :=
  {| Address := "fd00::5"; Version := 6; Type_ := "fixed" |}.

Definition server1 (status : string) : clients.Instance :=
  {| clients.ID := "srv-1";
     clients.Status := status;
     clients.Addresses :=
       [ ("private", clients.Interfaces [fixed4; fixed6]);
         ("public", clients.Interfaces [floating4]) ] |}.

Definition spec1 (secret : option openstackconfigv1.SecretReference)
  : openstackconfigv1.OpenstackProviderSpec :=
  {| openstackconfigv1.UserDataSecret := secret;
     openstackconfigv1.FloatingIP := "";
     openstackconfigv1.KeyName := "key";
     openstackconfigv1.Image := "rhcos";
     openstackconfigv1.Flavor := "m1.large";
     openstackconfigv1.AvailabilityZone := "nova";
     openstackconfigv1.RootVolume := None |}.

Definition userDataRef : openstackconfigv1.SecretReference :=
  {| openstackconfigv1.Name := "worker-user-data"; openstackconfigv1.Namespace := "" |}.

(** A machine named worker-0 of cluster infra-1, with the given
    providerID, annotations and addresses. *)
Definition machine1 (providerID : option string) (annotations : option (gmap string string))
  (addresses : list corev1.NodeAddress) (cluster : string) : machinev1.Machine :=
  {| machinev1.ObjectMeta :=
       {| metav1.Name := "worker-0";
          metav1.Namespace := "openshift-machine-api";
          metav1.Labels := {[ ClusterLabel := cluster ]};
          metav1.Annotations := annotations |};
     machinev1.Spec :=
       {| machinev1.ProviderID := providerID; machinev1.ProviderSpec := "{}" |};
     machinev1.Status :=
       {| machinev1.ErrorReason := None;
          machinev1.ErrorMessage := None;
          machinev1.Addresses := addresses |} |}.

(** The scenario in which everything succeeds and the instance is active
    at the first poll. *)
Definition calm : Scenario :=
  {| sc_environ := ∅;
     sc_infra := "infra-1";
     sc_service := None;
     sc_spec := (Some (spec1 None), None);
     sc_secret := (Some {| corev1.SecretName := "worker-user-data";
                           corev1.Data := {[ UserDataKey := "#!/bin/sh" ]} |}, None);
     sc_client := true;
     sc_update := None;
     sc_labels := None;
     sc_created := (Some (server1 "BUILD"), None);
     sc_getInstance := fun _ => (Some (server1 "ACTIVE"), None);
     sc_list := [server1 "ACTIVE"];
     sc_delete := None |}.

Definition start (m : machinev1.Machine) : State := {| machine := m; log := [] |}.

Definition fresh : machinev1.Machine := machine1 None None [] "infra-1".

(** Variations of a scenario. *)
Definition with_service (e : goerr) (sc : Scenario) : Scenario :=
  Build_Scenario (sc_environ sc) (sc_infra sc) e (sc_spec sc) (sc_secret sc) (sc_client sc)
    (sc_update sc) (sc_labels sc) (sc_created sc) (sc_getInstance sc) (sc_list sc)
    (sc_delete sc).

Definition with_spec (p : option openstackconfigv1.OpenstackProviderSpec * goerr)
  (sc : Scenario) : Scenario :=
  Build_Scenario (sc_environ sc) (sc_infra sc) (sc_service sc) p (sc_secret sc) (sc_client sc)
    (sc_update sc) (sc_labels sc) (sc_created sc) (sc_getInstance sc) (sc_list sc)
    (sc_delete sc).

Definition with_secret (x : option corev1.Secret * goerr) (sc : Scenario) : Scenario :=
  Build_Scenario (sc_environ sc) (sc_infra sc) (sc_service sc) (sc_spec sc) x (sc_client sc)
    (sc_update sc) (sc_labels sc) (sc_created sc) (sc_getInstance sc) (sc_list sc)
    (sc_delete sc).

Definition with_update (e : goerr) (sc : Scenario) : Scenario :=
  Build_Scenario (sc_environ sc) (sc_infra sc) (sc_service sc) (sc_spec sc) (sc_secret sc)
    (sc_client sc) e (sc_labels sc) (sc_created sc) (sc_getInstance sc) (sc_list sc)
    (sc_delete sc).

Definition with_labels (e : goerr) (sc : Scenario) : Scenario :=
  Build_Scenario (sc_environ sc) (sc_infra sc) (sc_service sc) (sc_spec sc) (sc_secret sc)
    (sc_client sc) (sc_update sc) e (sc_created sc) (sc_getInstance sc) (sc_list sc)
    (sc_delete sc).

Definition with_getInstance (f : nat -> option clients.Instance * goerr) (sc : Scenario)
  : Scenario :=
  Build_Scenario (sc_environ sc) (sc_infra sc) (sc_service sc) (sc_spec sc) (sc_secret sc)
    (sc_client sc) (sc_update sc) (sc_labels sc) (sc_created sc) f (sc_list sc)
    (sc_delete sc).

Definition with_list (l : list clients.Instance) (sc : Scenario) : Scenario :=
  Build_Scenario (sc_environ sc) (sc_infra sc) (sc_service sc) (sc_spec sc) (sc_secret sc)
    (sc_client sc) (sc_update sc) (sc_labels sc) (sc_created sc) (sc_getInstance sc) l
    (sc_delete sc).

Definition with_delete (e : goerr) (sc : Scenario) : Scenario :=
  Build_Scenario (sc_environ sc) (sc_infra sc) (sc_service sc) (sc_spec sc) (sc_secret sc)
    (sc_client sc) (sc_update sc) (sc_labels sc) (sc_created sc) (sc_getInstance sc)
    (sc_list sc) e.

Definition with_environ (environ : gmap string string) (sc : Scenario) : Scenario :=
  Build_Scenario environ (sc_infra sc) (sc_service sc) (sc_spec sc) (sc_secret sc)
    (sc_client sc) (sc_update sc) (sc_labels sc) (sc_created sc) (sc_getInstance sc)
    (sc_list sc) (sc_delete sc).

(** The waits an entry of the log records. *)
Definition sleeps (l : Log) : list time.Duration :=
  flat_map (fun e => match e with Sleep d => [d] | _ => [] end) l.

(** The name of the call an entry of the log records. *)
Definition callName (e : Effect) : string :=
  match e with
  | CallInfrastructuresGet _ => "Infrastructures.Get"
  | CallNewInstanceServiceFromMachine _ => "NewInstanceServiceFromMachine"
  | CallDoesImageExist _ => "DoesImageExist"
  | CallDoesFlavorExist _ => "DoesFlavorExist"
  | CallDoesAvailabilityZoneExist _ => "DoesAvailabilityZoneExist"
  | CallSecretsGet _ _ => "Secrets.Get"
  | CallGenerateBootstrapToken => "GenerateBootstrapToken"
  | CallNow => "Now"
  | CallClientCreate _ => "client.Create"
  | CallInstanceCreate _ _ _ _ _ => "InstanceCreate"
  | CallGetInstance _ => "GetInstance"
  | CallAssociateFloatingIP _ _ => "AssociateFloatingIP"
  | CallSetMachineLabels _ _ => "SetMachineLabels"
  | CallInstanceDelete _ => "InstanceDelete"
  | CallGetInstanceList _ => "GetInstanceList"
  | CallEventf _ reason _ => "Eventf " +:+ reason
  | CallClientUpdate _ => "client.Update"
  | CallStatusUpdate _ => "client.Status.Update"
  | Sleep _ => "Sleep"
  end.

(** The spec names the secret worker-user-data, which exists and has no
    userData key. *)
Definition secretWithoutUserData : corev1.Secret :=
  {| corev1.SecretName := "worker-user-data";
     corev1.Data := {[ DisableTemplatingKey := "true" ]} |}.

Definition noUserData : Scenario :=
  with_spec (Some (spec1 (Some userDataRef)), None)
    (with_secret (Some secretWithoutUserData, None) calm).

(** The provider fails to delete, and the record cannot be persisted. *)
Definition deleteAndPersistFail : Scenario :=
  with_delete (Some (Plain "server is locked"))
    (with_update (Some (Plain "etcd timeout")) calm).

(** The instance is created and never becomes active. *)
Definition neverActive : Scenario :=
  with_getInstance (fun _ => (Some (server1 "BUILD"), None)) calm.

(** Every read of the instance fails, and hands back a nil instance. *)
Definition readsFail : Scenario :=
  with_getInstance (fun _ => (None, Some (Plain "connection reset"))) calm.

(** A machine whose resource id annotation names srv-1. *)
Definition annotated : machinev1.Machine :=
  machine1 (Some "openstack:///srv-1") (Some {[ OpenstackIdAnnotationKey := "srv-1" ]}) []
    "infra-1".

(** A machine that is bound to the instance srv-1. *)
Definition bound : machinev1.Machine :=
  machine1 (Some "openstack:///srv-1") None [] "infra-1".

(** ** Counting calls *)

Definition isInstanceCreate (e : Effect) : bool :=
  match e with
  | CallInstanceCreate _ _ _ _ _ => true
  | _ => false
  end.

Definition isInstanceDelete (e : Effect) : bool :=
  match e with
  | CallInstanceDelete _ => true
  | _ => false
  end.

Definition isSleep (e : Effect) : bool :=
  match e with
  | Sleep _ => true
  | _ => false
  end.

Fixpoint countCalls (p : Effect -> bool) (l : Log) : nat :=
  match l with
  | [] => O
  | e :: rest => ((if p e then 1 else 0) + countCalls p rest)%nat
  end.

(** The calls that are neither the creation of the instance nor part of
    the poll. *)
Definition unmetered (e : Effect) : Prop :=
  match e with
  | CallInstanceCreate _ _ _ _ _ | CallGetInstance _ | Sleep _ => False
  | _ => True
  end.

(** A wait that lasts the poll interval, or a call that is no wait. *)
Definition waitsInterval (e : Effect) : Prop :=
  match e with
  | Sleep d => d = RetryIntervalInstanceStatus
  | _ => True
  end.

Definition totalWait (l : Log) : Z := fold_right Z.add 0 (sleeps l).

(** A wait of the poll: it lasts the poll interval, or what is left of
    the timeout after the last tick, [last], when something is left. *)
Definition waitsOf (last : time.Duration) (e : Effect) : Prop :=
  match e with
  | Sleep d => d = RetryIntervalInstanceStatus \/ (0 < last /\ d = last)
  | _ => True
  end.

(** A wait that is positive and no longer than [interval], or a call
    that is no wait. *)
Definition waitsAtMost (interval : time.Duration) (e : Effect) : Prop :=
  match e with
  | Sleep d => 0 < d <= interval
  | _ => True
  end.

(** The run adds at most [c] creations and [g] reads of the instance to
    the log, it waits no longer than [t] in all, and its waits are those
    of a poll. *)
Definition meters {R A} (last : time.Duration) (c g : nat) (t : time.Duration)
  (prog : M R A) : Prop :=
  forall s, exists ext,
    log (prog s).2 = log s ++ ext /\
    (countCalls isInstanceCreate ext <= c)%nat /\
    (countCalls isGetInstance ext <= g)%nat /\
    totalWait ext <= t /\
    Forall (waitsOf last) ext.

(** The bounds of a poll: the tries of the condition, the time waited,
    and what is left of the timeout after the last tick. *)
Definition pollTries (horizon : nat) (interval timeout : time.Duration) : nat :=
  if timeout =? 0 then S horizon else S (S (pollTicks interval timeout)).

Definition pollWait (horizon : nat) (interval timeout : time.Duration) : time.Duration :=
  if timeout =? 0 then Z.of_nat horizon * interval else Z.max 0 timeout.

Definition pollRemainder (interval timeout : time.Duration) : time.Duration :=
  timeout - Z.of_nat (pollTicks interval timeout) * interval.

(** The run does not end in a poll that is still going on. *)
Definition finishes {R A} (c : M R A) : Prop :=
  forall s, (c s).1 <> Unfinished.


Definition notImageCheck (e : Effect) : Prop :=
  match e with
  | CallDoesImageExist _ => False
  | _ => True
  end.

(** The calls of the bootstrap token: all but its generation, the clock
    and the creation of its secret. *)
Definition notBootstrap (e : Effect) : Prop :=
  match e with
  | CallGenerateBootstrapToken | CallNow | CallClientCreate _ => False
  | _ => True
  end.

(** The event or the write of the error path. *)
Definition isErrorReport (e : Effect) : Prop :=
  match e with
  | CallEventf _ _ _ | CallClientUpdate _ => True
  | _ => False
  end.

(** ** The generated client of the Image resource (src/unnamed/part_000)

    [List], [Watch] and [DeleteCollection] turn the optional
    [TimeoutSeconds] of their options into the timeout of the request:
    the value it points to, as a Duration, times [time.Second], and zero
    when it is nil. *)
Definition requestTimeout (TimeoutSeconds : option Z) : time.Duration :=
  match TimeoutSeconds with
  | Some t => Go.mul64 t time.Second
  | None => 0
  end.

(** The secret names a postprocessor that is not known. *)
Definition secretWithPostprocessor : corev1.Secret :=
  {| corev1.SecretName := "worker-user-data";
     corev1.Data := {[ UserDataKey := "#!/bin/sh"; PostprocessorKey := "butane" ]} |}.

Definition unknownPostprocessor : Scenario :=
  with_spec (Some (spec1 (Some userDataRef)), None)
    (with_secret (Some secretWithPostprocessor, None) calm).

(** The spec names the secret of the startup script, which is there. *)
Definition withUserData : Scenario :=
  with_spec (Some (spec1 (Some userDataRef)), None) calm.

(** A machine that carries the label of another cluster. *)
Definition stranger : machinev1.Machine := machine1 None None [] "infra-2".

(** A secret that carries the disableTemplating key, with the value
    false. *)
Definition secretTemplatingOff : corev1.Secret :=
  {| corev1.SecretName := "worker-user-data";
     corev1.Data := {[ UserDataKey := "#!/bin/sh"; DisableTemplatingKey := "false" ]} |}.

(** A spec that boots from a volume. *)
Definition specFromVolume : openstackconfigv1.OpenstackProviderSpec :=
  {| openstackconfigv1.UserDataSecret := None;
     openstackconfigv1.FloatingIP := "";
     openstackconfigv1.KeyName := "key";
     openstackconfigv1.Image := "";
     openstackconfigv1.Flavor := "m1.large";
     openstackconfigv1.AvailabilityZone := "nova";
     openstackconfigv1.RootVolume := Some tt |}.

(** * Proofs *)

(** ** Rules for [emits], [quiet] and [phase] *)

Create HintDb run discriminated.

Section Rules.

Context {R : Type}.

Lemma emits_ret {A} P (a : A) : emits P (@ret R A a).
Proof. intros s. exists []. simpl. rewrite app_nil_r. auto. Qed.

Lemma emits_Return {A} P (r : R) : emits P (@Return R A r).
Proof. intros s. exists []. simpl. rewrite app_nil_r. auto. Qed.

Lemma emits_unfinished {A} P : emits P (@unfinished R A).
Proof. intros s. exists []. by rewrite app_nil_r. Qed.

Lemma emits_panic {A} P : emits P (@panic R A).
Proof. intros s. exists []. simpl. rewrite app_nil_r. auto. Qed.

Lemma emits_getMachine P : emits P (@getMachine R).
Proof. intros s. exists []. simpl. rewrite app_nil_r. auto. Qed.

Lemma emits_modifyMachine P f : emits P (@modifyMachine R f).
Proof. intros s. exists []. simpl. rewrite app_nil_r. auto. Qed.

Lemma emits_invoke {A} (P : Effect -> Prop) e (f : Log -> A) :
  P e -> emits P (@invoke R A e f).
Proof. intros He s. exists [e]. simpl. auto. Qed.

Lemma emits_deref {A} P (p : option A) : emits P (@deref R A p).
Proof. destruct p; [apply emits_ret | apply emits_panic]. Qed.

Lemma emits_bind {A B} P (c : M R A) (k : A -> M R B) :
  emits P c -> (forall a, emits P (k a)) -> emits P (bind c k).
Proof.
  intros Hc Hk s. unfold bind.
  destruct (Hc s) as (ext1 & E1 & F1).
  destruct (c s) as [[a | r | |] s1]; simpl in *; eauto.
  destruct (Hk a s1) as (ext2 & E2 & F2).
  exists (ext1 ++ ext2). rewrite E2, E1, app_assoc. split; [done | by apply Forall_app].
Qed.

Lemma emits_call {R'} P (body : M R R) : emits P body -> emits P (@call R R' body).
Proof.
  intros Hc s. unfold call.
  destruct (Hc s) as (ext1 & E1 & F1).
  destruct (body s) as [[a | r | |] s1]; simpl in *; eauto.
Qed.

Lemma emits_checkWith P err (f : error -> M R R) :
  (forall e, emits P (f e)) -> emits P (checkWith err f).
Proof.
  intros Hf. destruct err; simpl; [| apply emits_ret].
  apply emits_bind; [apply Hf | intros; apply emits_Return].
Qed.

Lemma emits_weaken {A} (P Q : Effect -> Prop) (c : M R A) :
  (forall e, P e -> Q e) -> emits P c -> emits Q c.
Proof.
  intros HPQ Hc s. destruct (Hc s) as (ext & E & F).
  exists ext. split; [done |]. eapply Forall_impl; eauto.
Qed.

Lemma quiet_emits {A} P (c : M R A) : quiet P c -> emits P c.
Proof. intros Hc s. apply Hc. Qed.

Lemma quiet_ret {A} P (a : A) : quiet P (@ret R A a).
Proof. intros s. split; [done |]. apply emits_ret. Qed.

Lemma quiet_Return {A} P (r : R) : quiet P (@Return R A r).
Proof. intros s. split; [done |]. apply (emits_Return (A := A)). Qed.

Lemma quiet_unfinished {A} P : quiet P (@unfinished R A).
Proof. intros s. split; [done |]. exists []. by rewrite app_nil_r. Qed.

Lemma quiet_panic {A} P : quiet P (@panic R A).
Proof. intros s. split; [done |]. apply (emits_panic (A := A)). Qed.

Lemma quiet_getMachine P : quiet P (@getMachine R).
Proof. intros s. split; [done |]. apply emits_getMachine. Qed.

Lemma quiet_invoke {A} (P : Effect -> Prop) e (f : Log -> A) :
  P e -> quiet P (@invoke R A e f).
Proof. intros He s. split; [done |]. by apply emits_invoke. Qed.

Lemma quiet_deref {A} P (p : option A) : quiet P (@deref R A p).
Proof. destruct p; [apply quiet_ret | apply quiet_panic]. Qed.

Lemma quiet_bind {A B} P (c : M R A) (k : A -> M R B) :
  quiet P c -> (forall a, quiet P (k a)) -> quiet P (bind c k).
Proof.
  intros Hc Hk s. unfold bind.
  destruct (Hc s) as (M1 & ext1 & E1 & F1).
  destruct (c s) as [[a | r | |] s1]; simpl in *; eauto.
  destruct (Hk a s1) as (M2 & ext2 & E2 & F2).
  split; [congruence |].
  exists (ext1 ++ ext2). rewrite E2, E1, app_assoc. split; [done | by apply Forall_app].
Qed.

Lemma quiet_call {R'} P (body : M R R) : quiet P body -> quiet P (@call R R' body).
Proof.
  intros Hc s. unfold call.
  destruct (Hc s) as (M1 & ext1 & E1 & F1).
  destruct (body s) as [[a | r | |] s1]; simpl in *; eauto.
Qed.

Lemma quiet_checkWith P err (f : error -> M R R) :
  (forall e, quiet P (f e)) -> quiet P (checkWith err f).
Proof.
  intros Hf. destruct err; simpl; [| apply quiet_ret].
  apply quiet_bind; [apply Hf | intros; apply quiet_Return].
Qed.

Lemma call_not_Returned {R'} (body : M R R) s r : (@call R R' body s).1 <> Returned r.
Proof. unfold call. destruct (body s) as [[a | r' | |] s1]; simpl; discriminate. Qed.

End Rules.

Lemma phase_ret {A} P (a : A) : phase P (ret a).
Proof. intros s. simpl. split; [done |]. exists []. rewrite app_nil_r. auto. Qed.

Lemma phase_Return {A} P (e : error) : phase P (@Return goerr A (Some e)).
Proof. intros s. simpl. discriminate. Qed.

Lemma phase_unfinished {A} P : phase P (@unfinished goerr A).
Proof. by intros s. Qed.

Lemma phase_panic {A} P : phase P (@panic goerr A).
Proof. intros s. exact I. Qed.

Lemma phase_quiet {A} P (c : M goerr A) :
  quiet P c -> (forall s r, (c s).1 <> Returned r) -> phase P c.
Proof.
  intros Hq Hn s. specialize (Hq s). specialize (Hn s).
  destruct (c s) as [[a | r | |] s1]; simpl in *; [done | | done ..].
  by destruct (Hn r).
Qed.

Lemma phase_call {A} P (body : M A A) : quiet P body -> phase P (call body).
Proof. intros Hq. apply phase_quiet; [by apply quiet_call | apply call_not_Returned]. Qed.

Lemma phase_getMachine P : phase P getMachine.
Proof. intros s. simpl. split; [done |]. exists []. rewrite app_nil_r. auto. Qed.

Lemma phase_invoke {A} (P : Effect -> Prop) e (f : Log -> A) : P e -> phase P (invoke e f).
Proof. intros He s. simpl. split; [done |]. exists [e]. auto. Qed.

Lemma phase_deref {A} P (p : option A) : phase P (deref p).
Proof. destruct p; [apply phase_ret | apply phase_panic]. Qed.

Lemma phase_check P err : phase P (check err).
Proof. destruct err; [apply phase_Return | apply phase_ret]. Qed.

Lemma phase_bind {A B} P (c : M goerr A) (k : A -> M goerr B) :
  phase P c -> (forall a, phase P (k a)) -> phase P (bind c k).
Proof.
  intros Hc Hk s. unfold bind. specialize (Hc s).
  destruct (c s) as [[a | r | |] s1]; simpl in *; [| done ..].
  specialize (Hk a s1). destruct (k a s1) as [[b | r | |] s2]; simpl in *; [| done ..].
  destruct Hc as (M1 & ext1 & E1 & F1), Hk as (M2 & ext2 & E2 & F2).
  split; [congruence |].
  exists (ext1 ++ ext2). rewrite E2, E1, app_assoc. split; [done | by apply Forall_app].
Qed.

(** [return f(...)] for an [f] that always hands back an error. *)
Lemma phase_report {A} P (c : M goerr goerr) :
  (forall s, exists e, (c s).1 = Val (Some e)) ->
  phase P (let* e := c in @Return goerr A e).
Proof.
  intros Hc s. unfold bind. destruct (Hc s) as (e & He).
  destruct (c s) as [[a | r | |] s1]; simpl in *; [| done ..].
  by inversion He.
Qed.

Lemma phase_checkWith P err (f : error -> M goerr goerr) :
  (forall e s, exists e', (f e s).1 = Val (Some e')) -> phase P (checkWith err f).
Proof.
  intros Hf. destruct err; simpl; [| apply phase_ret].
  apply phase_report. apply Hf.
Qed.

#[local] Hint Resolve emits_ret emits_Return emits_panic emits_getMachine emits_modifyMachine
  emits_deref emits_call quiet_ret quiet_Return quiet_panic quiet_getMachine quiet_deref
  quiet_call phase_ret phase_Return phase_panic phase_getMachine phase_deref phase_check
  phase_call emits_unfinished quiet_unfinished phase_unfinished : run.

Lemma emits_check P err : emits P (check err).
Proof. destruct err; [apply emits_Return | apply emits_ret]. Qed.

Lemma quiet_check P err : quiet P (check err).
Proof. destruct err; [apply quiet_Return | apply quiet_ret]. Qed.

#[local] Hint Resolve emits_check quiet_check : run.

(** One step through a program: the rule of its head construct, or a case
    analysis of what it branches on. *)
Ltac run_step :=
  match goal with
  | |- emits _ (bind _ _) => apply emits_bind; [| intros ?]
  | |- quiet _ (bind _ _) => apply quiet_bind; [| intros ?]
  | |- phase _ (bind _ _) => apply phase_bind; [| intros ?]
  | |- emits _ (call _) => apply emits_call
  | |- quiet _ (call _) => apply quiet_call
  | |- phase _ (call _) => apply phase_call
  | |- emits _ (invoke _ _) => apply emits_invoke; exact I
  | |- quiet _ (invoke _ _) => apply quiet_invoke; exact I
  | |- phase _ (invoke _ _) => apply phase_invoke; exact I
  | |- emits _ (checkWith _ _) => apply emits_checkWith; intros ?
  | |- quiet _ (checkWith _ _) => apply quiet_checkWith; intros ?
  | |- _ => solve [eauto with run]
  | |- ?pred _ ?c =>
      match c with
      | context [match ?x with _ => _ end] => destruct x
      end
  end.

Ltac run_all := repeat run_step.

(** ** The helpers of the actuator *)

Section Facts.

Variable w : World.

Lemma Eventf_emits {R} (P : Effect -> Prop) t reason msg :
  P (CallEventf t reason msg) -> emits P (@Eventf R t reason msg).
Proof. intros H. by apply emits_invoke. Qed.

Lemma newInstanceService_quiet {R} : quiet isLookup (@newInstanceService w R).
Proof. unfold newInstanceService. run_all. Qed.

Lemma getClusterInfraName_quiet {R} : quiet isLookup (@getClusterInfraName w R).
Proof. unfold getClusterInfraName. run_all. Qed.

Lemma instanceExists_quiet {R} : quiet isLookup (@instanceExists w R).
Proof.
  pose proof (@newInstanceService_quiet).
  unfold instanceExists. run_all.
Qed.

Lemma validateMachine_quiet {R} : quiet isLookup (@validateMachine w R).
Proof.
  pose proof (@newInstanceService_quiet).
  unfold validateMachine. run_all.
Qed.

End Facts.


(** ** The error path *)

Section ErrorPath.

Variable w : World.

(** What [handleMachineError] does, in full: the warning event, then, with
    a client, the error written onto the record and the record persisted;
    a failure to persist takes the place of the error handed in. *)
Lemma handleMachineError_run {R} err action s :
  String.eqb action noEventAction = false ->
  @handleMachineError w R err action s =
    let s1 := {| machine := machine s;
                 log := log s ++ [CallEventf corev1.EventTypeWarning ("Failed" +:+ action)
                                    (apierrors.Reason err)] |} in
    if hasClient w then
      let m' := recordError err (machine s) in
      let s2 := {| machine := m'; log := log s1 ++ [CallClientUpdate m'] |} in
      match ClientUpdate w (log s1) m' with
      | Some e =>
          (Val (Some (Errorf ("unable to update machine status: " +:+ errorString e))), s2)
      | None => (Val (Some (Classified err)), s2)
      end
    else (Val (Some (Classified err)), s1).
Proof.
  intros Hact.
  unfold handleMachineError, call, bind, Eventf, invoke, client_Update, modifyMachine,
    getMachine, ret, Return.
  rewrite Hact. simpl.
  destruct (hasClient w); simpl; [| reflexivity].
  destruct (ClientUpdate w _ _); reflexivity.
Qed.

(** [handleMachineError] always hands back an error, never nil. *)
Lemma handleMachineError_reports {R} err action s :
  exists e, (@handleMachineError w R err action s).1 = Val (Some e).
Proof.
  unfold handleMachineError, call, bind, Eventf, invoke, client_Update, modifyMachine,
    getMachine, ret, Return.
  destruct (negb (String.eqb action noEventAction)); simpl;
    destruct (hasClient w); simpl; eauto;
    destruct (ClientUpdate w _ _); simpl; eauto.
Qed.

Lemma client_Update_noCreate {R} m : emits notInstanceCreate (@client_Update w R m).
Proof. unfold client_Update. run_all. Qed.

Lemma client_Status_Update_noCreate {R} m :
  emits notInstanceCreate (@client_Status_Update w R m).
Proof. unfold client_Status_Update. run_all. Qed.

Lemma handleMachineError_noCreate {R} err action :
  emits notInstanceCreate (@handleMachineError w R err action).
Proof.
  pose proof (@client_Update_noCreate).
  unfold handleMachineError, Eventf. run_all.
Qed.

Lemma lookup_noCreate {R A} (c : M R A) : quiet isLookup c -> emits notInstanceCreate c.
Proof.
  intros H. eapply emits_weaken; [| by apply quiet_emits].
  by intros [].
Qed.

Lemma updateAnnotation_noCreate {R} instance infra :
  emits notInstanceCreate (@updateAnnotation w R instance infra).
Proof.
  pose proof (@client_Update_noCreate).
  pose proof (@client_Status_Update_noCreate).
  pose proof (@handleMachineError_noCreate).
  unfold updateAnnotation. run_all.
Qed.

Lemma Create_validate_noCreate : emits notInstanceCreate (Create_validate w).
Proof.
  pose proof (@handleMachineError_noCreate).
  pose proof (lookup_noCreate _ (@getClusterInfraName_quiet w goerr)).
  pose proof (lookup_noCreate _ (@newInstanceService_quiet w goerr)).
  pose proof (lookup_noCreate _ (@validateMachine_quiet w goerr)).
  unfold Create_validate. run_all.
Qed.

Lemma Update_noCreate : emits notInstanceCreate (Update w).
Proof.
  pose proof (@updateAnnotation_noCreate).
  pose proof (lookup_noCreate _ (@getClusterInfraName_quiet w goerr)).
  pose proof (lookup_noCreate _ (@instanceExists_quiet w goerr)).
  unfold Update. run_all.
Qed.

End ErrorPath.

#[local] Hint Resolve handleMachineError_reports : run.

Ltac phase_step :=
  match goal with
  | |- phase _ (bind _ (fun e => Return e)) =>
      apply phase_report; intros ?; apply handleMachineError_reports
  | |- phase _ (checkWith _ _) =>
      apply phase_checkWith; intros ? ?;
      first [apply handleMachineError_reports | eexists; reflexivity]
  | |- _ => run_step
  end.

Ltac phase_all := repeat phase_step.

(** ** Create *)

Section CreateFacts.

Variable w : World.

Lemma getClusterInfraName_phase : phase isLookup (@getClusterInfraName w goerr).
Proof.
  apply phase_quiet; [apply getClusterInfraName_quiet | intros; apply call_not_Returned].
Qed.

Lemma newInstanceService_phase : phase isLookup (@newInstanceService w goerr).
Proof. unfold newInstanceService. phase_all. Qed.

Lemma validateMachine_phase : phase isLookup (@validateMachine w goerr).
Proof.
  apply phase_quiet; [apply validateMachine_quiet | intros; apply call_not_Returned].
Qed.

(** The checks of [Create] that come before the providerID guard either
    return an error or leave the record as it was, having only looked
    things up. *)
Lemma Create_validate_phase : phase isLookup (Create_validate w).
Proof.
  pose proof getClusterInfraName_phase.
  pose proof newInstanceService_phase.
  pose proof validateMachine_phase.
  unfold Create_validate. phase_all.
Qed.

(** The guard on a machine that has a providerID: the error path is taken
    and its result returned. *)
Lemma Create_guard_bound s p :
  machineProviderID (machine s) = Some p ->
  Create_guard w s =
    let r := @handleMachineError w goerr
               (instanceDestroyed (machineName (machine s))) createEventAction s in
    match r.1 with
    | Val e => (Returned e, r.2)
    | Returned e => (Returned e, r.2)
    | Panic => (Panic, r.2)
    | Unfinished => (Unfinished, r.2)
    end.
Proof.
  intros Hp. unfold Create_guard, bind, getMachine. simpl. rewrite Hp. simpl.
  destruct (handleMachineError _ _ _ s) as [[e | e | |] s']; reflexivity.
Qed.

Lemma Create_guard_unbound s :
  machineProviderID (machine s) = None -> Create_guard w s = (Val tt, s).
Proof. intros Hp. unfold Create_guard, bind, getMachine. simpl. by rewrite Hp. Qed.

End CreateFacts.

(** C1, amended. For a machine whose providerID is set, Create never calls
    InstanceCreate and never returns nil. When the checks that come before
    the guard pass (infrastructure lookup, cluster label, instance service,
    provider spec, validation), the FailedCreate warning is recorded.
    Without a client that is all, and Create returns the
    providerID-conflict configuration error. With a client the error is
    written onto the record and the record persisted; Create returns the
    providerID-conflict configuration error when that write succeeds, and
    the failure to persist when it fails. *)
Theorem Create_refuses_bound_machine (w : World) (s : State) :
  machineProviderID (machine s) <> None ->
  (Create w s).1 <> Val None /\
  (exists ext, log (Create w s).2 = log s ++ ext /\ Forall notInstanceCreate ext) /\
  (forall x s1,
      Create_validate w s = (Val x, s1) ->
      let verr := instanceDestroyed (machineName (machine s)) in
      let warning :=
        CallEventf corev1.EventTypeWarning "FailedCreate"
          apierrors.InvalidConfigurationMachineError in
      let written := recordError verr (machine s) in
      In warning (log (Create w s).2) /\
      (hasClient w = false ->
       Create w s
       = (Val (Some (Classified verr)),
          {| machine := machine s; log := log s1 ++ [warning] |})) /\
      (hasClient w = true ->
       Create w s
       = (Val (match ClientUpdate w (log s1 ++ [warning]) written with
               | None => Some (Classified verr)
               | Some e =>
                   Some (Plain ("unable to update machine status: " +:+ errorString e))
               end),
          {| machine := written;
             log := log s1 ++ [warning; CallClientUpdate written] |}))).
Proof.
  intros Hpid.
  destruct (machineProviderID (machine s)) as [p |] eqn:Hp; [clear Hpid | done].
  pose proof (Create_validate_phase w s) as Hph.
  destruct (Create_validate_noCreate w s) as (ext1 & E1 & F1).
  unfold Create, Create_provisioned, call, bind.
  destruct (Create_validate w s) as [[[infra pspec] | r | |] s1] eqn:EV; simpl in *.
  - destruct Hph as (Hm & _).
    rewrite (Create_guard_bound w s1 p) by congruence.
    rewrite handleMachineError_run by reflexivity. rewrite Hm. simpl.
    destruct (hasClient w) eqn:Hc; simpl.
    + destruct (ClientUpdate w _ _) as [e |] eqn:Hu; simpl.
      * split; [done |]. split.
        { eexists. rewrite E1, <- !app_assoc. split; [done |].
          apply Forall_app; split; [done |]. repeat constructor. }
        intros x s1' [= <- <-]. split.
        { rewrite !in_app_iff. simpl. tauto. }
        split; [intros; discriminate |]. intros _.
        change ("Failed" +:+ createEventAction) with "FailedCreate" in *.
        rewrite Hu, <- app_assoc. reflexivity.
      * split; [done |]. split.
        { eexists. rewrite E1, <- !app_assoc. split; [done |].
          apply Forall_app; split; [done |]. repeat constructor. }
        intros x s1' [= <- <-]. split.
        { rewrite !in_app_iff. simpl. tauto. }
        split; [intros; discriminate |]. intros _.
        change ("Failed" +:+ createEventAction) with "FailedCreate" in *.
        rewrite Hu, <- app_assoc. reflexivity.
    + split; [done |]. split.
      { eexists. rewrite E1, <- !app_assoc. split; [done |].
        apply Forall_app; split; [done |]. repeat constructor. }
      intros x s1' [= <- <-]. split; [| split; [done | intros; discriminate]].
      rewrite !in_app_iff. simpl. tauto.
  - split; [by intros [= ->] |]. split; [eauto |]. intros; discriminate.
  - split; [done |]. split; [eauto |]. intros; discriminate.
  - split; [done |]. split; [eauto |]. intros; discriminate.
Qed.

Lemma Create_refuses_bound_machine_witness :
  machineProviderID bound <> None /\
  (Create (worldOf calm) (start bound)).1
  = Val (Some (Classified (instanceDestroyed "worker-0"))) /\
  (Create (worldOf (with_update (Some (Plain "etcd timeout")) calm)) (start bound)).1
  = Val (Some (Plain "unable to update machine status: etcd timeout")).
Proof.
  split; [discriminate |].
  destruct (Create_refuses_bound_machine (worldOf calm) (start bound)) as (_ & _ & H);
    [discriminate |].
  destruct (H ("infra-1", Some (spec1 None))
              (Create_validate (worldOf calm) (start bound)).2) as (_ & _ & H1);
    [vm_compute; reflexivity |].
  destruct (Create_refuses_bound_machine
              (worldOf (with_update (Some (Plain "etcd timeout")) calm)) (start bound))
    as (_ & _ & H'); [discriminate |].
  destruct (H' ("infra-1", Some (spec1 None))
              (Create_validate (worldOf (with_update (Some (Plain "etcd timeout")) calm))
                 (start bound)).2) as (_ & _ & H2);
    [vm_compute; reflexivity |].
  rewrite (H1 eq_refl), (H2 eq_refl). split; reflexivity.
Defined.

(** C1 as stated fails: a machine that has a providerID, in a world where
    the instance service cannot be built. Create returns the error of the
    service, which is not classified, and records nothing. *)
Lemma Create_bound_machine_service_failure :
  machineProviderID bound <> None /\
  (Create (worldOf (with_service (Some (Plain "authentication failed")) calm))
     (start bound)).1
  = Val (Some (Plain "authentication failed")) /\
  (Create (worldOf (with_service (Some (Plain "authentication failed")) calm))
     (start bound)).1
  <> Val (Some (Classified (instanceDestroyed (machineName bound)))).
Proof. split; [discriminate |]. split; [vm_compute; reflexivity | vm_compute; discriminate]. Qed.

(** ** The status write-back *)

Lemma annotation_annotate k v m : annotation (annotate k v m) k = v.
Proof.
  unfold annotation, annotate, machineAnnotations, mapGet. simpl.
  by rewrite lookup_insert_eq.
Qed.

Lemma annotation_annotate_ne k k' v m :
  k <> k' -> annotation (annotate k v m) k' = annotation m k'.
Proof.
  intros Hk. unfold annotation, annotate, machineAnnotations, mapGet. simpl.
  by rewrite lookup_insert_ne.
Qed.

Lemma annotateInstance_fields i m :
  annotation (annotateInstance i m) OpenstackIdAnnotationKey = clients.ID i /\
  annotation (annotateInstance i m) MachineInstanceStateAnnotationName = clients.Status i /\
  machinev1.Spec (annotateInstance i m) = machinev1.Spec m /\
  machinev1.Status (annotateInstance i m) = machinev1.Status m /\
  machineName (annotateInstance i m) = machineName m.
Proof.
  unfold annotateInstance. split; [| split; [| done]].
  - rewrite annotation_annotate_ne by discriminate. apply annotation_annotate.
  - apply annotation_annotate.
Qed.

Lemma bindProviderID_fields i m :
  (machineProviderID m = None \/ machineProviderID m = Some (providerIDOf i)) ->
  machineProviderID (bindProviderID i m) = Some (providerIDOf i) /\
  machinev1.Status (bindProviderID i m) = machinev1.Status m /\
  machineName (bindProviderID i m) = machineName m.
Proof.
  unfold bindProviderID. intros [H | H]; rewrite H; done.
Qed.

Lemma recordError_fields err m :
  machinev1.ErrorReason (machinev1.Status (recordError err m)) = Some (apierrors.Reason err) /\
  machinev1.ErrorMessage (machinev1.Status (recordError err m)) = Some (apierrors.Message err) /\
  annotation (recordError err m) MachineInstanceStateAnnotationName = ErrorState /\
  machinev1.Addresses (machinev1.Status (recordError err m))
  = machinev1.Addresses (machinev1.Status m) /\
  machinev1.Spec (recordError err m) = machinev1.Spec m.
Proof.
  unfold recordError. repeat split. apply annotation_annotate.
Qed.

Lemma DeepEqual_spec a b : DeepEqual a b = true <-> a = b.
Proof. unfold DeepEqual. apply bool_decide_eq_true. Qed.

Section WriteBack.

Variable w : World.

(** The write-back when the providerID check fails: it is the error
    path, on the providerID-changed error. *)
Lemma updateAnnotation_mismatch {R} s i infra p :
  machineProviderID (machine s) = Some p ->
  p <> providerIDOf i ->
  @updateAnnotation w R (Some i) infra s
  = @handleMachineError w R (providerIDChanged p (providerIDOf i)) updateEventAction s.
Proof.
  intros Hp Hne. apply String.eqb_neq in Hne.
  unfold updateAnnotation, call at 1, bind, deref, ret, getMachine. simpl.
  rewrite Hp, Hne. simpl.
  rewrite !handleMachineError_run by reflexivity.
  destruct (hasClient w); simpl; [| reflexivity].
  destruct (ClientUpdate w _ _); reflexivity.
Qed.

(** The write-back when the providerID check passes and there is a
    client. *)
Lemma updateAnnotation_pass {R} s i infra :
  hasClient w = true ->
  (machineProviderID (machine s) = None \/
   machineProviderID (machine s) = Some (providerIDOf i)) ->
  @updateAnnotation w R (Some i) infra s =
    let m1 := annotateInstance i (bindProviderID i (machine s)) in
    let s1 := {| machine := m1; log := log s ++ [CallClientUpdate m1] |} in
    match ClientUpdate w (log s) m1 with
    | Some e => (Val (Some e), s1)
    | None =>
        match getIPsFromInstance i with
        | (_, Some e) => (Val (Some e), s1)
        | (addrs, None) =>
            let new := withHostAddresses addrs (machineName m1) in
            let mc := setStatus (setAddresses new (machinev1.Status m1)) m1 in
            let m2 := setStatus (machinev1.Status (bindProviderID i (machine s))) m1 in
            if DeepEqual (machinev1.Addresses (machinev1.Status m1)) new then
              (Val (ClientUpdate w (log s1) m2),
               {| machine := m2; log := log s1 ++ [CallClientUpdate m2] |})
            else
              match StatusUpdate w (log s1) mc with
              | Some e =>
                  (Val (Some e), {| machine := m1; log := log s1 ++ [CallStatusUpdate mc] |})
              | None =>
                  (Val (ClientUpdate w (log s1 ++ [CallStatusUpdate mc]) m2),
                   {| machine := m2;
                      log := (log s1 ++ [CallStatusUpdate mc]) ++ [CallClientUpdate m2] |})
              end
        end
    end.
Proof.
  intros Hc Hp.
  destruct (machineProviderID (machine s)) as [p |] eqn:Hpid.
  - assert (Hb : bindProviderID i (machine s) = machine s).
    { unfold bindProviderID. by rewrite Hpid. }
    assert (Heq : String.eqb p (providerIDOf i) = true).
    { destruct Hp as [? | [= ->]]; [done | apply String.eqb_refl]. }
    rewrite Hb.
    unfold updateAnnotation, call, bind, deref, ret, getMachine, modifyMachine,
      client_Update, client_Status_Update, invoke, check, Return.
    simpl. rewrite Hc, Hpid, Heq. simpl.
    destruct (ClientUpdate w _ _); simpl; [reflexivity |].
    destruct (getIPsFromInstance i) as [addrs [e |]]; simpl; [reflexivity |].
    destruct (DeepEqual _ _); simpl; [reflexivity |].
    destruct (StatusUpdate w _ _); reflexivity.
  - assert (Hb : bindProviderID i (machine s)
                 = setProviderID (Some (providerIDOf i)) (machine s)).
    { unfold bindProviderID. by rewrite Hpid. }
    rewrite Hb.
    unfold updateAnnotation, call, bind, deref, ret, getMachine, modifyMachine,
      client_Update, client_Status_Update, invoke, check, Return.
    simpl. rewrite Hc, Hpid. simpl.
    destruct (ClientUpdate w _ _); simpl; [reflexivity |].
    destruct (getIPsFromInstance i) as [addrs [e |]]; simpl; [reflexivity |].
    destruct (DeepEqual _ _); simpl; [reflexivity |].
    destruct (StatusUpdate w _ _); reflexivity.
Qed.

(** Without a client the write-back makes no status-subresource write. *)
Lemma updateAnnotation_noStatus_without_client {R} s i infra :
  hasClient w = false ->
  exists ext,
    log (@updateAnnotation w R (Some i) infra s).2 = log s ++ ext /\
    Forall notStatusUpdate ext.
Proof.
  intros Hc.
  assert (H1 : forall m, emits notStatusUpdate (@client_Update w goerr m)).
  { intros m. unfold client_Update. rewrite Hc. apply emits_panic. }
  assert (H2 : forall m, emits notStatusUpdate (@client_Status_Update w goerr m)).
  { intros m. unfold client_Status_Update. rewrite Hc. apply emits_panic. }
  assert (H3 : forall err action, emits notStatusUpdate (@handleMachineError w goerr err action)).
  { intros err action. unfold handleMachineError, Eventf. rewrite Hc. run_all. }
  cut (emits notStatusUpdate (@updateAnnotation w R (Some i) infra)); [by intros H |].
  unfold updateAnnotation. run_all.
Qed.

(** Every status-subresource write of the write-back carries the
    addresses of the instance followed by the host entries. *)
Lemma updateAnnotation_status_payload {R} s i infra mc :
  In (CallStatusUpdate mc) (log (@updateAnnotation w R (Some i) infra s).2) ->
  ~ In (CallStatusUpdate mc) (log s) ->
  machinev1.Addresses (machinev1.Status mc)
  = withHostAddresses (getIPsFromInstance i).1 (machineName (machine s)).
Proof.
  intros Hin Hfresh.
  assert (Hname : forall m,
             (machineProviderID m = None \/ machineProviderID m = Some (providerIDOf i)) ->
             machineName (annotateInstance i (bindProviderID i m)) = machineName m).
  { intros m Hm. destruct (bindProviderID_fields i m Hm) as (_ & _ & B).
    destruct (annotateInstance_fields i (bindProviderID i m)) as (_ & _ & _ & _ & A).
    congruence. }
  destruct (hasClient w) eqn:Hc.
  - assert (Hpass : (machineProviderID (machine s) = None \/
                     machineProviderID (machine s) = Some (providerIDOf i)) ->
                    machinev1.Addresses (machinev1.Status mc)
                    = withHostAddresses (getIPsFromInstance i).1 (machineName (machine s))).
    { intros Hp. rewrite (updateAnnotation_pass s i infra Hc Hp) in Hin. cbv zeta in Hin.
      rewrite (Hname _ Hp) in Hin.
      destruct (ClientUpdate w _ _); [| destruct (getIPsFromInstance i) as [addrs [e |]];
        [| destruct (DeepEqual _ _); [| destruct (StatusUpdate w _ _)]]];
        cbn [snd fst log] in Hin;
        repeat (apply in_app_iff in Hin as [Hin | Hin]);
        repeat (destruct Hin as [Hin | Hin]);
        try done; by inversion Hin. }
    destruct (machineProviderID (machine s)) as [p |] eqn:Hp; [| by apply Hpass; left].
    destruct (String.eqb p (providerIDOf i)) eqn:Heq.
    + apply String.eqb_eq in Heq. subst p. by apply Hpass; right.
    + apply String.eqb_neq in Heq.
      rewrite (updateAnnotation_mismatch s i infra p Hp Heq) in Hin.
      rewrite handleMachineError_run in Hin by reflexivity. cbv zeta in Hin. rewrite Hc in Hin.
      destruct (ClientUpdate w _ _); cbn [snd log] in Hin;
        repeat (apply in_app_iff in Hin as [Hin | Hin]);
        repeat (destruct Hin as [Hin | Hin]); done.
  - destruct (updateAnnotation_noStatus_without_client (R := R) s i infra Hc)
      as (ext & Hlog & Hf).
    rewrite Hlog in Hin. apply in_app_iff in Hin as [? | Hin]; [done |].
    rewrite List.Forall_forall in Hf. by destruct (Hf _ Hin).
Qed.

End WriteBack.

(** C2, amended. When the machine is bound to a providerID other than the
    one derived from the instance, the write-back fails. Without a client
    it returns the providerID-changed configuration error and leaves the
    record alone. With a client it writes the error onto the record and
    persists the record; it returns the providerID-changed configuration
    error when that write succeeds, and the failure to persist when it
    fails. The bound providerID and the addresses of the status are kept,
    and no status-subresource write is made. The status itself is not
    left as it was: with a client, the reason and the message of the
    error are written into it and the instance-state annotation is set to
    ERROR. *)
Theorem updateAnnotation_providerID_immutable {R} (w : World) (s : State)
  (i : clients.Instance) (infra p : string) :
  machineProviderID (machine s) = Some p ->
  p <> providerIDOf i ->
  let r := @updateAnnotation w R (Some i) infra s in
  let verr := providerIDChanged p (providerIDOf i) in
  let warning :=
    CallEventf corev1.EventTypeWarning "FailedUpdate"
      apierrors.InvalidConfigurationMachineError in
  (hasClient w = false -> r.1 = Val (Some (Classified verr))) /\
  (hasClient w = true ->
   r.1 = Val (match ClientUpdate w (log s ++ [warning]) (recordError verr (machine s)) with
              | None => Some (Classified verr)
              | Some e =>
                  Some (Plain ("unable to update machine status: " +:+ errorString e))
              end)) /\
  machineProviderID (machine r.2) = Some p /\
  machinev1.Addresses (machinev1.Status (machine r.2))
  = machinev1.Addresses (machinev1.Status (machine s)) /\
  (hasClient w = true ->
   machinev1.ErrorReason (machinev1.Status (machine r.2))
   = Some apierrors.InvalidConfigurationMachineError /\
   machinev1.ErrorMessage (machinev1.Status (machine r.2)) = Some (apierrors.Message verr) /\
   annotation (machine r.2) MachineInstanceStateAnnotationName = ErrorState /\
   log r.2 = log s ++ [warning; CallClientUpdate (machine r.2)]) /\
  (hasClient w = false -> machine r.2 = machine s /\ log r.2 = log s ++ [warning]).
Proof.
  intros Hp Hne r verr warning. subst r.
  rewrite (updateAnnotation_mismatch w s i infra p Hp Hne).
  rewrite handleMachineError_run by reflexivity. fold verr. simpl.
  destruct (recordError_fields verr (machine s)) as (F1 & F2 & F3 & F4 & F5).
  destruct (hasClient w); simpl.
  - destruct (ClientUpdate w _ _) as [e |] eqn:Hu; simpl.
    + split; [intros; discriminate |]. split; [done |].
      split; [unfold machineProviderID; by rewrite F5 |].
      split; [done |]. split; [| done].
      intros _. rewrite <- app_assoc. done.
    + split; [intros; discriminate |]. split; [done |].
      split; [unfold machineProviderID; by rewrite F5 |].
      split; [done |]. split; [| done].
      intros _. rewrite <- app_assoc. done.
  - split; [done |]. split; [intros; discriminate |].
    split; [done |]. split; [done |]. split; done.
Qed.

Lemma updateAnnotation_providerID_immutable_witness :
  (@updateAnnotation (worldOf calm) Empty_set (Some (server1 "ACTIVE")) "infra-1"
     (start (machine1 (Some "openstack:///srv-0") None [] "infra-1"))).1
  = Val (Some (Classified (providerIDChanged "openstack:///srv-0" "openstack:///srv-1"))) /\
  (@updateAnnotation (worldOf (with_update (Some (Plain "etcd timeout")) calm)) Empty_set
     (Some (server1 "ACTIVE")) "infra-1"
     (start (machine1 (Some "openstack:///srv-0") None [] "infra-1"))).1
  = Val (Some (Plain "unable to update machine status: etcd timeout")).
Proof.
  destruct (updateAnnotation_providerID_immutable (R := Empty_set) (worldOf calm)
              (start (machine1 (Some "openstack:///srv-0") None [] "infra-1"))
              (server1 "ACTIVE") "infra-1" "openstack:///srv-0") as (_ & H1 & _);
    [reflexivity | discriminate |].
  destruct (updateAnnotation_providerID_immutable (R := Empty_set)
              (worldOf (with_update (Some (Plain "etcd timeout")) calm))
              (start (machine1 (Some "openstack:///srv-0") None [] "infra-1"))
              (server1 "ACTIVE") "infra-1" "openstack:///srv-0") as (_ & H2 & _);
    [reflexivity | discriminate |].
  rewrite (H1 eq_refl), (H2 eq_refl). split; reflexivity.
Defined.

(** C2 as stated fails: the write-back on a machine bound to srv-0, for
    the instance srv-1, with a client. The status is not left unchanged:
    the error reason is written into it. *)
Lemma updateAnnotation_mismatch_writes_status :
  machineProviderID (machine1 (Some "openstack:///srv-0") None [] "infra-1")
  = Some "openstack:///srv-0" /\
  "openstack:///srv-0" <> providerIDOf (server1 "ACTIVE") /\
  machinev1.Status
    (machine (@updateAnnotation (worldOf calm) Empty_set (Some (server1 "ACTIVE")) "infra-1"
                (start (machine1 (Some "openstack:///srv-0") None [] "infra-1"))).2)
  <> machinev1.Status (machine1 (Some "openstack:///srv-0") None [] "infra-1") /\
  machinev1.ErrorReason
    (machinev1.Status
       (machine (@updateAnnotation (worldOf calm) Empty_set (Some (server1 "ACTIVE")) "infra-1"
                   (start (machine1 (Some "openstack:///srv-0") None [] "infra-1"))).2))
  = Some "InvalidConfiguration".
Proof.
  split; [reflexivity |]. split; [discriminate |].
  split; [vm_compute; discriminate | vm_compute; reflexivity].
Qed.

(** C4, amended. When the providerID check passes (and there is a
    client), the record is written first and unconditionally, carrying the
    providerID and both annotations. The status-subresource write is made
    exactly when that first write succeeded, the addresses of the instance
    decoded, and the new address list differs from the one stored on the
    record; it carries the new list. When the lists are equal there is no
    status-subresource write. *)
Theorem updateAnnotation_status_write {R} (w : World) (s : State)
  (i : clients.Instance) (infra : string) :
  hasClient w = true ->
  (machineProviderID (machine s) = None \/
   machineProviderID (machine s) = Some (providerIDOf i)) ->
  let m1 := annotateInstance i (bindProviderID i (machine s)) in
  let new := withHostAddresses (getIPsFromInstance i).1 (machineName (machine s)) in
  let old := machinev1.Addresses (machinev1.Status (machine s)) in
  machineProviderID m1 = Some (providerIDOf i) /\
  annotation m1 OpenstackIdAnnotationKey = clients.ID i /\
  annotation m1 MachineInstanceStateAnnotationName = clients.Status i /\
  exists rest,
    log (@updateAnnotation w R (Some i) infra s).2 = log s ++ CallClientUpdate m1 :: rest /\
    (existsb isStatusUpdate rest = true <->
     ClientUpdate w (log s) m1 = None /\ (getIPsFromInstance i).2 = None /\ new <> old) /\
    (new = old -> existsb isStatusUpdate rest = false) /\
    (forall mc, In (CallStatusUpdate mc) rest ->
                machinev1.Addresses (machinev1.Status mc) = new /\
                machinev1.Spec mc = machinev1.Spec m1 /\
                machinev1.ObjectMeta mc = machinev1.ObjectMeta m1).
Proof.
  intros Hc Hp m1 new old.
  destruct (bindProviderID_fields i (machine s) Hp) as (B1 & B2 & B3).
  destruct (annotateInstance_fields i (bindProviderID i (machine s))) as (A1 & A2 & A3 & A4 & A5).
  fold m1 in A1, A2, A3, A4, A5.
  assert (Hname : machineName m1 = machineName (machine s)) by congruence.
  assert (Hold : machinev1.Addresses (machinev1.Status m1) = old).
  { unfold old. by rewrite A4, B2. }
  split; [unfold machineProviderID; by rewrite A3 |]. split; [done |]. split; [done |].
  rewrite (updateAnnotation_pass w s i infra Hc Hp). cbv zeta. fold m1.
  destruct (ClientUpdate w (log s) m1) as [e |] eqn:Hu.
  { exists []. split; [done |]. simpl. repeat split; try done. by intros (? & _). }
  subst new. destruct (getIPsFromInstance i) as [addrs [e |]] eqn:Hips.
  { exists []. split; [done |]. simpl. repeat split; try done. by intros (_ & ? & _). }
  rewrite Hname, Hold. cbn [fst].
  destruct (DeepEqual old _) eqn:Hde.
  - apply DeepEqual_spec in Hde. eexists. cbn [snd log]. rewrite <- app_assoc.
    split; [done |]. simpl.
    split; [split; [done | by intros (_ & _ & ?)] |]. split; [done |].
    intros mc [? | []]; done.
  - assert (Hneq : withHostAddresses addrs (machineName (machine s)) <> old).
    { intros Heq. symmetry in Heq. apply DeepEqual_spec in Heq. congruence. }
    destruct (StatusUpdate w _ _).
    + eexists. cbn [snd log]. rewrite <- app_assoc. split; [done |]. simpl.
      split; [done |]. split; [done |].
      intros mc [[= <-] | []]. done.
    + eexists. cbn [snd log]. rewrite <- !app_assoc. split; [done |]. simpl.
      split; [done |]. split; [done |].
      intros mc [[= <-] | [? | []]]; done.
Qed.

Lemma updateAnnotation_status_write_witness :
  existsb isStatusUpdate
    (log (@updateAnnotation (worldOf calm) Empty_set (Some (server1 "ACTIVE")) "infra-1"
            (start fresh)).2)
  = true.
Proof.
  destruct (updateAnnotation_status_write (R := Empty_set) (worldOf calm) (start fresh)
              (server1 "ACTIVE") "infra-1")
    as (_ & _ & _ & rest & Hlog & Hiff & _); [reflexivity | left; reflexivity |].
  rewrite Hlog. simpl. apply Hiff.
  split; [reflexivity |]. split; [reflexivity |]. vm_compute. discriminate.
Defined.

(** C4 as stated fails: the providerID check passes and the new address
    list differs from the stored one, but the first write of the record
    fails. The write-back returns that failure and makes no
    status-subresource write. *)
Lemma updateAnnotation_failed_write_skips_status :
  machineProviderID fresh = None /\
  withHostAddresses (getIPsFromInstance (server1 "ACTIVE")).1 (machineName fresh)
  <> machinev1.Addresses (machinev1.Status fresh) /\
  (@updateAnnotation (worldOf (with_update (Some (Plain "conflict")) calm)) Empty_set
     (Some (server1 "ACTIVE")) "infra-1" (start fresh)).1
  = Val (Some (Plain "conflict")) /\
  map callName
    (log (@updateAnnotation (worldOf (with_update (Some (Plain "conflict")) calm)) Empty_set
            (Some (server1 "ACTIVE")) "infra-1" (start fresh)).2)
  = ["client.Update"] /\
  existsb isStatusUpdate
    (log (@updateAnnotation (worldOf (with_update (Some (Plain "conflict")) calm)) Empty_set
            (Some (server1 "ACTIVE")) "infra-1" (start fresh)).2)
  = false.
Proof.
  split; [reflexivity |]. split; [vm_compute; discriminate |].
  split; [vm_compute; reflexivity |]. split; vm_compute; reflexivity.
Qed.

(** ** The address list *)

Lemma fold_appendInterface l acc :
  fold_left appendInterface l acc = acc ++ fold_left appendInterface l [].
Proof.
  revert acc. induction l as [| x l IH]; intros acc; simpl.
  - by rewrite app_nil_r.
  - rewrite (IH (appendInterface acc x)), (IH (appendInterface [] x)).
    unfold appendInterface.
    destruct (negb (Version x =? 4)); simpl; [done |].
    destruct (addressType (Type_ x)); simpl; [by rewrite <- app_assoc | done].
Qed.

Lemma fold_appendInterface_cons x l :
  fold_left appendInterface (x :: l) []
  = appendInterface [] x ++ fold_left appendInterface l [].
Proof. simpl. apply fold_appendInterface. Qed.

Lemma fold_appendInterface_app l1 l2 :
  fold_left appendInterface (l1 ++ l2) []
  = fold_left appendInterface l1 [] ++ fold_left appendInterface l2 [].
Proof. rewrite fold_left_app. apply fold_appendInterface. Qed.

(** The order in which the interfaces are visited only changes the order
    of the addresses. *)
Lemma fold_appendInterface_perm l l' :
  Permutation l l' ->
  Permutation (fold_left appendInterface l []) (fold_left appendInterface l' []).
Proof.
  induction 1 as [| x l l' _ IH | x y l | l l' l'' _ IH1 _ IH2].
  - done.
  - rewrite !fold_appendInterface_cons. by apply Permutation_app_head.
  - rewrite !fold_appendInterface_cons, !app_assoc.
    apply Permutation_app_tail, Permutation_app_comm.
  - by etransitivity.
Qed.

Lemma fold_appendInterface_dropped l :
  Forall (fun a => Version a <> 4 \/ addressType (Type_ a) = None) l ->
  fold_left appendInterface l [] = [].
Proof.
  induction 1 as [| x l Hx _ IH]; [done |].
  rewrite fold_appendInterface_cons, IH, app_nil_r. unfold appendInterface.
  destruct Hx as [Hv | Ht].
  - apply Z.eqb_neq in Hv. by rewrite Hv.
  - rewrite Ht. by destruct (negb _).
Qed.

Lemma rangeAddresses_decoded id (nets : list (string * list networkInterface)) acc :
  rangeAddresses id (map (fun n => (n.1, clients.Interfaces n.2)) nets) acc
  = (fold_left appendInterface (concat (map snd nets)) acc, None).
Proof.
  revert acc. induction nets as [| [name l] nets IH]; intros acc; simpl; [done |].
  by rewrite IH, fold_left_app.
Qed.

(** C5. An instance whose interfaces are, in any order and spread over any
    networks, an IPv4 floating address [a], an IPv4 fixed address [b], an
    IPv6 fixed address [c] and others that are not IPv4 or have an unknown
    type: [getIPsFromInstance] does not fail, and gives exactly the
    external address [a] and the internal address [b]. The write-back
    appends to them the host name and the internal DNS name, both the name
    of the machine: when the providerID check passes and the record has
    been written, that list is what the write-back computes and sends.
    If it differs from the addresses on the record, the status write is
    made and carries exactly that list; if it does not differ, the record
    already holds exactly that list, no status write is made and the
    record is written back with it. No status write of the write-back
    ever carries another list. *)
Theorem address_filtering (instance : clients.Instance)
  (nets : list (string * list networkInterface)) (a b c : string)
  (others : list networkInterface) (name : string) :
  clients.Addresses instance = map (fun n => (n.1, clients.Interfaces n.2)) nets ->
  Permutation (concat (map snd nets))
    ({| Address := a; Version := 4; Type_ := "floating" |}
       :: {| Address := b; Version := 4; Type_ := "fixed" |}
       :: {| Address := c; Version := 6; Type_ := "fixed" |} :: others) ->
  Forall (fun x => Version x <> 4 \/ addressType (Type_ x) = None) others ->
  exists l,
    getIPsFromInstance instance = (l, None) /\
    Permutation l
      [ {| corev1.Type_ := corev1.NodeExternalIP; corev1.Address := a |};
        {| corev1.Type_ := corev1.NodeInternalIP; corev1.Address := b |} ] /\
    let computed :=
      l ++ [ {| corev1.Type_ := corev1.NodeHostName; corev1.Address := name |};
             {| corev1.Type_ := corev1.NodeInternalDNS; corev1.Address := name |} ] in
    (forall (w : World) (s : State) (infra : string),
        hasClient w = true ->
        (machineProviderID (machine s) = None \/
         machineProviderID (machine s) = Some (providerIDOf instance)) ->
        machineName (machine s) = name ->
        let m1 := annotateInstance instance (bindProviderID instance (machine s)) in
        let run := @updateAnnotation w Empty_set (Some instance) infra s in
        ClientUpdate w (log s) m1 = None ->
        (computed <> machinev1.Addresses (machinev1.Status (machine s)) ->
         exists mc rest,
           log run.2 = log s ++ CallClientUpdate m1 :: CallStatusUpdate mc :: rest /\
           machinev1.Addresses (machinev1.Status mc) = computed /\
           Forall notStatusUpdate rest) /\
        (computed = machinev1.Addresses (machinev1.Status (machine s)) ->
         log run.2 = log s ++ [CallClientUpdate m1; CallClientUpdate (machine run.2)] /\
         machinev1.Addresses (machinev1.Status (machine run.2)) = computed)) /\
    (forall (w : World) (s : State) (infra : string) (mc : machinev1.Machine),
        machineName (machine s) = name ->
        In (CallStatusUpdate mc)
          (log (@updateAnnotation w Empty_set (Some instance) infra s).2) ->
        ~ In (CallStatusUpdate mc) (log s) ->
        machinev1.Addresses (machinev1.Status mc) = computed).
Proof.
  intros Haddr Hperm Hothers.
  exists (fold_left appendInterface (concat (map snd nets)) []).
  assert (Hips : getIPsFromInstance instance
                 = (fold_left appendInterface (concat (map snd nets)) [], None)).
  { unfold getIPsFromInstance. rewrite Haddr. apply rangeAddresses_decoded. }
  split; [done |]. split.
  { rewrite (fold_appendInterface_perm _ _ Hperm).
    rewrite !fold_appendInterface_cons, (fold_appendInterface_dropped _ Hothers). done. }
  set (l := fold_left appendInterface (concat (map snd nets)) []) in *.
  assert (Hhost : forall n, withHostAddresses l n
                  = l ++ [ {| corev1.Type_ := corev1.NodeHostName; corev1.Address := n |};
                           {| corev1.Type_ := corev1.NodeInternalDNS; corev1.Address := n |} ]).
  { intros n. unfold withHostAddresses. by rewrite <- app_assoc. }
  cbv zeta. split.
  - intros w s infra Hc Hp Hname Hu.
    destruct (bindProviderID_fields instance (machine s) Hp) as (B1 & B2 & B3).
    destruct (annotateInstance_fields instance (bindProviderID instance (machine s)))
      as (A1 & A2 & A3 & A4 & A5).
    rewrite (updateAnnotation_pass w s instance infra Hc Hp). cbv zeta.
    rewrite Hu, Hips, A5, B3, Hname, Hhost, A4, B2.
    split.
    + intros Hne.
      destruct (DeepEqual _ _) eqn:Hde.
      { apply DeepEqual_spec in Hde. by destruct Hne. }
      destruct (StatusUpdate w _ _); cbn [fst snd log machine];
        eexists _, _; rewrite <- ?app_assoc; cbn [app];
        (split; [reflexivity |]); (split; [done |]); repeat constructor.
    + intros Heq.
      destruct (DeepEqual _ _) eqn:Hde.
      2: { rewrite <- Heq in Hde.
           assert (Ht : DeepEqual
                          (l ++ [ {| corev1.Type_ := corev1.NodeHostName;
                                     corev1.Address := name |};
                                  {| corev1.Type_ := corev1.NodeInternalDNS;
                                     corev1.Address := name |} ])
                          (l ++ [ {| corev1.Type_ := corev1.NodeHostName;
                                     corev1.Address := name |};
                                  {| corev1.Type_ := corev1.NodeInternalDNS;
                                     corev1.Address := name |} ]) = true)
             by (by apply DeepEqual_spec).
           congruence. }
      cbn [fst snd log machine]. rewrite <- app_assoc. split; [reflexivity |].
      simpl. by rewrite Heq.
  - intros w s infra mc Hname Hin Hfresh.
    rewrite (updateAnnotation_status_payload w s instance infra mc Hin Hfresh).
    by rewrite Hips, Hname, Hhost.
Qed.

Lemma address_filtering_witness :
  exists mc,
    In (CallStatusUpdate mc)
      (log (@updateAnnotation (worldOf calm) Empty_set (Some (server1 "ACTIVE")) "infra-1"
              (start fresh)).2) /\
    Permutation (machinev1.Addresses (machinev1.Status mc))
      [ {| corev1.Type_ := corev1.NodeExternalIP; corev1.Address := "203.0.113.7" |};
        {| corev1.Type_ := corev1.NodeInternalIP; corev1.Address := "10.0.0.5" |};
        {| corev1.Type_ := corev1.NodeHostName; corev1.Address := "worker-0" |};
        {| corev1.Type_ := corev1.NodeInternalDNS; corev1.Address := "worker-0" |} ].
Proof.
  destruct (address_filtering (server1 "ACTIVE")
              [("private", [fixed4; fixed6]); ("public", [floating4])]
              "203.0.113.7" "10.0.0.5" "fd00::5" [] "worker-0")
    as (l & H1 & H2 & H3 & _).
  - reflexivity.
  - apply Permutation_sym.
    apply (Permutation_cons_app [fixed4; fixed6] [] floating4). reflexivity.
  - constructor.
  - destruct (H3 (worldOf calm) (start fresh) "infra-1") as (Hw & _);
      [reflexivity | left; reflexivity | reflexivity | reflexivity |].
    destruct Hw as (mc & rest & Hlog & Hmc & _).
    { destruct l; discriminate. }
    exists mc. split.
    + rewrite Hlog. simpl. tauto.
    + rewrite Hmc.
      apply (Permutation_app_tail
               [ {| corev1.Type_ := corev1.NodeHostName; corev1.Address := "worker-0" |};
                 {| corev1.Type_ := corev1.NodeInternalDNS; corev1.Address := "worker-0" |} ]
               H2).
Defined.

Example getIPs_server1 :
  getIPsFromInstance (server1 "ACTIVE")
  = ([ {| corev1.Type_ := corev1.NodeInternalIP; corev1.Address := "10.0.0.5" |};
       {| corev1.Type_ := corev1.NodeExternalIP; corev1.Address := "203.0.113.7" |} ], None).
Proof. reflexivity. Qed.

(** ** The poll timeout *)

Example Atoi_7 : Go.Atoi "7" = Some 7.
Proof. reflexivity. Qed.
Example Atoi_negative : Go.Atoi "-12" = Some (-12).
Proof. reflexivity. Qed.
Example Atoi_suffix : Go.Atoi "5m" = None.
Proof. reflexivity. Qed.
Example Atoi_fraction : Go.Atoi "1.5" = None.
Proof. reflexivity. Qed.
Example Atoi_blank : Go.Atoi " 7" = None.
Proof. reflexivity. Qed.
Example Atoi_sign_only : Go.Atoi "+" = None.
Proof. reflexivity. Qed.
Example Atoi_out_of_range : Go.Atoi "9223372036854775808" = None.
Proof. reflexivity. Qed.
Example timeout_7 :
  instanceCreateTimeout {[ InstanceCreateTimeoutEnv := "7" ]} = 7 * time.Minute.
Proof. vm_compute. reflexivity. Qed.
Example timeout_malformed :
  instanceCreateTimeout {[ InstanceCreateTimeoutEnv := "7min" ]} = 5 * time.Minute.
Proof. vm_compute. reflexivity. Qed.

Lemma Atoi_empty : Go.Atoi "" = None.
Proof. reflexivity. Qed.

Lemma wrap64_small z : Go.MinInt64 <= z <= Go.MaxInt64 -> Go.wrap64 z = z.
Proof.
  unfold Go.wrap64, Go.MinInt64, Go.MaxInt64. intros H.
  rewrite Z.mod_small; lia.
Qed.

Lemma getTimeout_unset environ name timeout :
  environ !! name = None -> getTimeout environ name timeout = timeout.
Proof. intros H. unfold getTimeout, Go.Getenv. by rewrite H. Qed.

Lemma getTimeout_malformed environ name timeout v :
  environ !! name = Some v -> Go.Atoi v = None -> getTimeout environ name timeout = timeout.
Proof.
  intros H Hv. unfold getTimeout, Go.Getenv. rewrite H. simpl. rewrite Hv.
  by destruct (negb _).
Qed.

Lemma getTimeout_override environ name timeout v n :
  environ !! name = Some v -> Go.Atoi v = Some n -> getTimeout environ name timeout = n.
Proof.
  intros H Hv. unfold getTimeout, Go.Getenv. rewrite H. simpl. rewrite Hv.
  destruct (String.eqb v "") eqn:He; [| done].
  apply String.eqb_eq in He. subst v. discriminate.
Qed.

(** C9. The poll interval is 10 seconds. The timeout handed to the poll is
    5 minutes when the variable CLUSTER_API_OPENSTACK_INSTANCE_CREATE_TIMEOUT
    is not set, and also for every value of it that strconv.Atoi rejects.
    A value that parses as [n] gives [n] minutes, as the int64 product
    [n * time.Minute], which is [n] minutes exactly up to 153722867.
    Accordingly, when the instance never becomes active, Create waits 30
    times 10 seconds by default, and 6 times 10 seconds when the variable
    is 1, before it fails with the time-out of the poll. *)
Theorem instance_create_timeout :
  RetryIntervalInstanceStatus = 10 * time.Second /\
  pollTicks RetryIntervalInstanceStatus (5 * time.Minute) = 30%nat /\
  (forall environ,
      environ !! InstanceCreateTimeoutEnv = None ->
      instanceCreateTimeout environ = 5 * time.Minute) /\
  (forall environ v,
      environ !! InstanceCreateTimeoutEnv = Some v ->
      Go.Atoi v = None ->
      instanceCreateTimeout environ = 5 * time.Minute) /\
  (forall environ v n,
      environ !! InstanceCreateTimeoutEnv = Some v ->
      Go.Atoi v = Some n ->
      instanceCreateTimeout environ = Go.wrap64 (n * time.Minute) /\
      (-153722867 <= n <= 153722867 -> instanceCreateTimeout environ = n * time.Minute)) /\
  sleeps (log (Create (worldOf neverActive) (start fresh)).2)
  = repeat (10 * time.Second) 30 /\
  sleeps (log (Create (worldOf (with_environ {[ InstanceCreateTimeoutEnv := "1" ]}
                                  neverActive)) (start fresh)).2)
  = repeat (10 * time.Second) 6 /\
  (Create (worldOf neverActive) (start fresh)).1
  = Val (Some (Classified
                 (apierrors.CreateMachine
                    ("error creating Openstack instance: " +:+ errorString ErrWaitTimeout)))).
Proof.
  split; [reflexivity |]. split; [reflexivity |]. unfold instanceCreateTimeout, Go.mul64.
  split; [| split; [| split; [| split; [| split]]]];
    [| | | vm_compute; reflexivity | vm_compute; reflexivity | vm_compute; reflexivity].
  - intros environ H. by rewrite (getTimeout_unset _ _ _ H).
  - intros environ v H Hv. by rewrite (getTimeout_malformed _ _ _ _ H Hv).
  - intros environ v n H Hv. rewrite (getTimeout_override _ _ _ _ _ H Hv).
    split; [done |]. intros Hn. apply wrap64_small.
    unfold Go.MinInt64, Go.MaxInt64, time.Minute, time.Second. lia.
Qed.

(** ** The stretches of Create *)

Lemma phase_weaken {A} (P Q : Effect -> Prop) (c : M goerr A) :
  (forall e, P e -> Q e) -> phase P c -> phase Q c.
Proof.
  intros HPQ Hc s. specialize (Hc s).
  destruct (c s).1; [| done ..].
  destruct Hc as (Hm & ext & E & F). split; [done |].
  exists ext. split; [done |]. eapply Forall_impl; eauto.
Qed.

Lemma pollLoop_phase {V} P n interval (condition : V -> M goerr (V * (bool * goerr))) vars :
  (forall v, phase P (condition v)) ->
  P (Sleep interval) ->
  phase P (pollLoop n interval condition vars).
Proof.
  intros Hc Hs. revert vars. induction n as [| n IH]; intros vars; simpl.
  - apply phase_bind; [apply Hc |]. intros [v [done [e |]]]; [apply phase_ret |].
    destruct done; apply phase_ret.
  - apply phase_bind; [apply Hc |]. intros [v [done [e |]]]; [apply phase_ret |].
    destruct done; [apply phase_ret |].
    apply phase_bind; [by apply phase_invoke | intros; apply IH].
Qed.

Lemma PollImmediate_phase {V} P h interval timeout
  (condition : V -> M goerr (V * (bool * goerr))) vars :
  (forall v, phase P (condition v)) ->
  (forall d, P (Sleep d)) ->
  phase P (PollImmediate h interval timeout condition vars).
Proof.
  intros Hc Hs. unfold PollImmediate, pollAnswer. destruct (timeout =? 0).
  - apply phase_bind; [by apply pollLoop_phase |].
    intros [v [done [e |]]]; [apply phase_ret |].
    destruct done; [apply phase_ret | apply phase_unfinished].
  - apply phase_bind; [by apply pollLoop_phase |].
    intros [v [done [e |]]]; [apply phase_ret |].
    destruct done; [apply phase_ret |].
    apply phase_bind.
    { destruct (0 <? _); [by apply phase_invoke | apply phase_ret]. }
    intros _. apply phase_bind; [apply Hc |].
    intros [v' [done' [e' |]]]; [apply phase_ret |].
    destruct done'; apply phase_ret.
Qed.

Section CreatePhases.

Variable w : World.

Lemma Create_guard_phase : phase anyCall (Create_guard w).
Proof. unfold Create_guard. phase_all. Qed.

Lemma Create_userData_phase providerSpec : phase anyCall (Create_userData w providerSpec).
Proof. unfold Create_userData. phase_all. Qed.

Lemma client_Create_quiet {R} secret : quiet anyCall (@client_Create w R secret).
Proof. unfold client_Create. run_all. Qed.

Lemma createBootstrapToken_phase : phase anyCall (@createBootstrapToken w goerr).
Proof.
  pose proof (@client_Create_quiet).
  apply phase_quiet; [| intros; apply call_not_Returned].
  unfold createBootstrapToken. run_all.
Qed.

Lemma Create_render_phase userData disableTemplating :
  phase anyCall (Create_render w userData disableTemplating).
Proof.
  pose proof createBootstrapToken_phase.
  unfold Create_render. phase_all.
Qed.

Lemma Create_postprocess_phase userDataRendered postprocessor postprocess :
  phase anyCall (Create_postprocess w userDataRendered postprocessor postprocess).
Proof. unfold Create_postprocess. phase_all. Qed.

Lemma pollCondition_phase instance : phase anyCall (pollCondition w instance).
Proof. unfold pollCondition. phase_all. Qed.

Lemma Create_provision_phase spec userDataRendered :
  phase anyCall (Create_provision w spec userDataRendered).
Proof.
  assert (H : forall v, phase anyCall
                          (PollImmediate (Horizon w) RetryIntervalInstanceStatus
                             (instanceCreateTimeout (Environ w)) (pollCondition w) v)).
  { intros v. apply PollImmediate_phase; [apply pollCondition_phase | by intros d]. }
  unfold Create_provision. phase_all.
Qed.

(** Up to the provisioned instance, Create either returns an error or
    leaves the machine record as it was. *)
Lemma Create_provisioned_phase : phase anyCall (Create_provisioned w).
Proof.
  pose proof (phase_weaken isLookup anyCall _ (fun _ _ => I) (Create_validate_phase w)).
  pose proof Create_guard_phase.
  pose proof Create_userData_phase.
  pose proof Create_render_phase.
  pose proof Create_postprocess_phase.
  pose proof Create_provision_phase.
  unfold Create_provisioned. phase_all.
Qed.

End CreatePhases.

(** ** Update *)

(** C3 (the code fails the claim). When the lookup of [Update] finds no
    instance, [instanceExists] hands back a nil instance, and
    [updateAnnotation] dereferences it on its first line: Update panics,
    where the claim has it succeed. The record is left as it was and only
    lookups were made; Update never calls InstanceCreate, whatever
    happens. *)
Theorem Update_without_instance (w : World) (s s1 s2 : State) (infra : string) :
  @getClusterInfraName w goerr s = (Val (infra, None), s1) ->
  @instanceExists w goerr s1 = (Val (None, None), s2) ->
  Update w s = (Panic, s2) /\
  machine s2 = machine s /\
  (exists ext, log s2 = log s ++ ext /\ Forall isLookup ext) /\
  (forall s', exists ext,
      log (Update w s').2 = log s' ++ ext /\ Forall notInstanceCreate ext).
Proof.
  intros H1 H2. split; [| split; [| split]].
  - unfold Update, call, bind. unfold goerr in *.
    rewrite H1. cbn -[instanceExists updateAnnotation]. rewrite H2. reflexivity.
  - pose proof (getClusterInfraName_quiet w (R := goerr) s) as (M1 & _).
    pose proof (instanceExists_quiet w (R := goerr) s1) as (M2 & _).
    rewrite H1 in M1. rewrite H2 in M2. simpl in *. congruence.
  - pose proof (getClusterInfraName_quiet w (R := goerr) s) as (_ & e1 & E1 & F1).
    pose proof (instanceExists_quiet w (R := goerr) s1) as (_ & e2 & E2 & F2).
    rewrite H1 in E1. rewrite H2 in E2. simpl in *.
    exists (e1 ++ e2). rewrite E2, E1, app_assoc. split; [done | by apply Forall_app].
  - apply Update_noCreate.
Qed.

Lemma Update_without_instance_witness :
  (Update (worldOf (with_list [] calm)) (start bound)).1 = Panic /\
  map callName (log (Update (worldOf (with_list [] calm)) (start bound)).2)
  = ["Infrastructures.Get"; "NewInstanceServiceFromMachine"; "GetInstanceList"].
Proof.
  destruct (Update_without_instance (worldOf (with_list [] calm)) (start bound)
              (@getClusterInfraName (worldOf (with_list [] calm)) goerr (start bound)).2
              (@instanceExists (worldOf (with_list [] calm)) goerr
                 (@getClusterInfraName (worldOf (with_list [] calm)) goerr (start bound)).2).2
              "infra-1") as (H & _).
  - vm_compute. reflexivity.
  - vm_compute. reflexivity.
  - rewrite H. split; [reflexivity | vm_compute; reflexivity].
Defined.

(** ** The label push of Create *)

(** C6 (the code fails the claim). When Create has provisioned the
    instance and the push of the machine labels fails, Create returns nil
    at once: the failure is swallowed, but the Created event is not
    recorded and the write-back is not run, so the providerID, the
    addresses and the annotations are not persisted; the record is as it
    was before Create. *)
Theorem Create_label_push_failure (w : World) (s s1 : State) (infra : string)
  (i : clients.Instance) (e : error) :
  Create_provisioned w s = (Val (infra, Some i), s1) ->
  SetMachineLabels w (log s1) (machine s1) (clients.ID i) = Some e ->
  Create w s
  = (Val None,
     {| machine := machine s;
        log := log s1 ++ [CallSetMachineLabels (machine s) (clients.ID i)] |}) /\
  (exists ext, log s1 = log s ++ ext).
Proof.
  intros H1 H2.
  pose proof (Create_provisioned_phase w s) as Hph. rewrite H1 in Hph. simpl in Hph.
  destruct Hph as (Hm & ext & E & _).
  split; [| eauto].
  unfold Create, call, bind. rewrite H1. simpl.
  unfold Create_finish, bind, deref, ret, getMachine, invoke. simpl.
  rewrite H2. simpl. by rewrite Hm.
Qed.

Lemma Create_label_push_failure_witness :
  (Create (worldOf (with_labels (Some (Plain "metadata update failed")) calm))
     (start fresh)).1 = Val None /\
  machine (Create (worldOf (with_labels (Some (Plain "metadata update failed")) calm))
             (start fresh)).2 = fresh /\
  map callName
    (log (Create (worldOf (with_labels (Some (Plain "metadata update failed")) calm))
            (start fresh)).2)
  = ["Infrastructures.Get"; "NewInstanceServiceFromMachine"; "NewInstanceServiceFromMachine";
     "DoesImageExist"; "DoesFlavorExist"; "DoesAvailabilityZoneExist";
     "InstanceCreate"; "GetInstance"; "SetMachineLabels"].
Proof.
  destruct (Create_label_push_failure
              (worldOf (with_labels (Some (Plain "metadata update failed")) calm))
              (start fresh)
              (Create_provisioned
                 (worldOf (with_labels (Some (Plain "metadata update failed")) calm))
                 (start fresh)).2
              "infra-1" (server1 "ACTIVE") (Plain "metadata update failed")) as (H & _).
  - vm_compute. reflexivity.
  - reflexivity.
  - rewrite H. split; [reflexivity |]. split; [reflexivity | vm_compute; reflexivity].
Defined.

(** ** The user-data secret *)

(** C7, amended. When Create reaches the user-data step (the checks
    passed and the machine has no providerID) and the spec names a secret
    whose name is empty, or a secret that exists but has no userData key,
    Create returns a plain error built by fmt.Errorf: it is not a
    classified configuration error, it does not go through
    handleMachineError, and so no event is recorded, nothing is written,
    the record is as it was, and only lookups were made. *)
Theorem Create_user_data_secret_error (w : World) (s s1 : State) (infra : string)
  (spec : openstackconfigv1.OpenstackProviderSpec) (ref : openstackconfigv1.SecretReference) :
  Create_validate w s = (Val (infra, Some spec), s1) ->
  machineProviderID (machine s) = None ->
  openstackconfigv1.UserDataSecret spec = Some ref ->
  let namespace :=
    if String.eqb (openstackconfigv1.Namespace ref) "" then machineNamespace (machine s)
    else openstackconfigv1.Namespace ref in
  let name := openstackconfigv1.Name ref in
  machine s1 = machine s /\
  (exists ext, log s1 = log s ++ ext /\ Forall isLookup ext) /\
  (name = "" ->
   Create w s = (Val (Some (Plain "UserDataSecret name must be provided")), s1)) /\
  (forall secret,
      name <> "" ->
      SecretsGet w (log s1) namespace name = (Some secret, None) ->
      corev1.Data secret !! UserDataKey = None ->
      Create w s
      = (Val (Some (Plain ("Machine's userdata secret " +:+ name +:+ " in namespace "
                             +:+ namespace +:+ " did not contain key " +:+ UserDataKey))),
         {| machine := machine s; log := log s1 ++ [CallSecretsGet namespace name] |})).
Proof.
  intros H1 Hpid Href namespace name.
  pose proof (Create_validate_phase w s) as Hph. rewrite H1 in Hph. simpl in Hph.
  destruct Hph as (Hm & Hext).
  split; [done |]. split; [done |].
  assert (Hg : Create_guard w s1 = (Val tt, s1)).
  { apply Create_guard_unbound. by rewrite Hm. }
  split.
  - intros Hname. unfold Create, Create_provisioned, call, bind.
    rewrite H1. cbv beta iota. rewrite Hg. cbv beta iota.
    unfold Create_userData, bind, deref, ret, getMachine. rewrite Href. fold name.
    rewrite Hname. reflexivity.
  - intros secret Hname Hget Hkey. apply String.eqb_neq in Hname.
    unfold Create, Create_provisioned, call, bind.
    rewrite H1. cbv beta iota. rewrite Hg. cbv beta iota.
    unfold Create_userData, bind, deref, ret, getMachine, invoke. rewrite Href. fold name.
    rewrite Hname, Hm. fold namespace. cbn [negb fst snd log machine Return].
    rewrite Hget. cbn [check ret deref]. rewrite Hkey, <- Hm. reflexivity.
Qed.

Lemma Create_user_data_secret_error_witness :
  (Create (worldOf noUserData) (start fresh)).1
  = Val (Some (Plain ("Machine's userdata secret worker-user-data in namespace "
                        +:+ "openshift-machine-api did not contain key userData"))).
Proof.
  destruct (Create_user_data_secret_error (worldOf noUserData) (start fresh)
              (Create_validate (worldOf noUserData) (start fresh)).2
              "infra-1" (spec1 (Some userDataRef)) userDataRef)
    as (_ & _ & _ & H).
  - vm_compute. reflexivity.
  - reflexivity.
  - reflexivity.
  - rewrite (H secretWithoutUserData); [reflexivity | discriminate | reflexivity | reflexivity].
Defined.

(** C7 as stated fails: the secret exists and has no userData key. The
    error Create returns is not a classified error, and nothing of it is
    written onto the record: no error reason, no ERROR annotation, no
    event and no write. *)
Lemma Create_missing_user_data_key_unclassified :
  corev1.Data secretWithoutUserData !! UserDataKey = None /\
  (forall verr,
      (Create (worldOf noUserData) (start fresh)).1 <> Val (Some (Classified verr))) /\
  machinev1.ErrorReason
    (machinev1.Status (machine (Create (worldOf noUserData) (start fresh)).2)) = None /\
  annotation (machine (Create (worldOf noUserData) (start fresh)).2)
    MachineInstanceStateAnnotationName <> ErrorState /\
  map callName (log (Create (worldOf noUserData) (start fresh)).2)
  = ["Infrastructures.Get"; "NewInstanceServiceFromMachine"; "NewInstanceServiceFromMachine";
     "DoesImageExist"; "DoesFlavorExist"; "DoesAvailabilityZoneExist"; "Secrets.Get"].
Proof.
  split; [reflexivity |].
  split; [intros verr; vm_compute; discriminate |].
  split; [vm_compute; reflexivity |].
  split; [vm_compute; discriminate | vm_compute; reflexivity].
Qed.

(** ** Delete *)

(** C8. When the lookup of Delete finds no instance, Delete returns nil
    and has only made lookups: there is no delete call. When it finds one,
    Delete calls InstanceDelete once, on the resource id annotated on the
    record. If that succeeds the Deleted event is recorded and nil
    returned. If it fails, the failure is a deletion error: the
    FailedDelete warning is recorded with the reason DeleteError and the
    error goes through the error path. Without a client Delete returns the
    deletion error; with a client the error is written onto the record
    and the record persisted, and Delete returns the deletion error when
    that write succeeds and the failure to persist when it fails. *)
Theorem Delete_by_lookup (w : World) (s s1 s2 : State) (found : option clients.Instance) :
  @newInstanceService w goerr s = (Val None, s1) ->
  @instanceExists w goerr s1 = (Val (found, None), s2) ->
  let id := annotation (machine s) OpenstackIdAnnotationKey in
  machine s2 = machine s /\
  (exists ext, log s2 = log s ++ ext /\ Forall isLookup ext) /\
  match found with
  | None => Delete w s = (Val None, s2)
  | Some _ =>
      match InstanceDelete w (log s2) id with
      | None =>
          Delete w s
          = (Val None,
             {| machine := machine s;
                log := (log s2 ++ [CallInstanceDelete id])
                       ++ [CallEventf corev1.EventTypeNormal "Deleted"
                             ("Deleted machine " +:+ machineName (machine s))] |})
      | Some e =>
          let derr := apierrors.DeleteMachine
                        ("error deleting Openstack instance: " +:+ errorString e) in
          let warning :=
            CallEventf corev1.EventTypeWarning "FailedDelete" apierrors.DeleteMachineError in
          let written := recordError derr (machine s) in
          apierrors.Reason derr = apierrors.DeleteMachineError /\
          (hasClient w = false ->
           Delete w s
           = (Val (Some (Classified derr)),
              {| machine := machine s;
                 log := log s2 ++ [CallInstanceDelete id; warning] |})) /\
          (hasClient w = true ->
           machinev1.ErrorReason (machinev1.Status written)
           = Some apierrors.DeleteMachineError /\
           Delete w s
           = (Val (match ClientUpdate w (log s2 ++ [CallInstanceDelete id; warning]) written
                   with
                   | None => Some (Classified derr)
                   | Some e' =>
                       Some (Plain ("unable to update machine status: " +:+ errorString e'))
                   end),
              {| machine := written;
                 log := log s2 ++ [CallInstanceDelete id; warning;
                                   CallClientUpdate written] |}))
      end
  end.
Proof.
  intros H1 H2 id. unfold goerr in *.
  pose proof (newInstanceService_quiet w (R := option error) s) as (M1 & e1 & E1 & F1).
  pose proof (instanceExists_quiet w (R := option error) s1) as (M2 & e2 & E2 & F2).
  rewrite H1 in M1, E1. rewrite H2 in M2, E2. simpl in M1, M2, E1, E2.
  assert (Hm : machine s2 = machine s) by congruence.
  split; [done |]. split.
  { exists (e1 ++ e2). rewrite E2, E1, app_assoc. split; [done | by apply Forall_app]. }
  unfold Delete, call, bind. unfold goerr in *.
  rewrite H1. cbn -[instanceExists handleMachineError].
  rewrite H2. destruct found as [i |]; [| reflexivity].
  cbn -[handleMachineError]. rewrite Hm. fold id.
  destruct (InstanceDelete w (log s2) id) as [e |] eqn:Hd; [| reflexivity].
  cbn -[handleMachineError]. unfold bind.
  rewrite !handleMachineError_run by reflexivity. cbv zeta. cbn [machine log].
  split; [reflexivity |].
  destruct (hasClient w) eqn:Hc.
  - split; [intros; discriminate |]. intros _. split; [reflexivity |].
    rewrite <- !app_assoc. cbn [app].
    change ("Failed" +:+ deleteEventAction) with "FailedDelete".
    destruct (ClientUpdate w _ _) as [e' |]; reflexivity.
  - split; [| intros; discriminate]. intros _.
    cbn [fst snd log Return]. by rewrite <- !app_assoc.
Qed.

Lemma Delete_by_lookup_witness :
  (Delete (worldOf (with_list [] calm)) (start annotated)).1 = Val None /\
  map callName (log (Delete (worldOf (with_list [] calm)) (start annotated)).2)
  = ["NewInstanceServiceFromMachine"; "NewInstanceServiceFromMachine"; "GetInstanceList"] /\
  (Delete (worldOf deleteAndPersistFail) (start annotated)).1
  = Val (Some (Plain "unable to update machine status: etcd timeout")).
Proof.
  pose proof (Delete_by_lookup (worldOf (with_list [] calm)) (start annotated)
                (@newInstanceService (worldOf (with_list [] calm)) goerr (start annotated)).2
                (@instanceExists (worldOf (with_list [] calm)) goerr
                   (@newInstanceService (worldOf (with_list [] calm)) goerr
                      (start annotated)).2).2
                None) as H.
  destruct H as (_ & _ & H).
  - vm_compute. reflexivity.
  - vm_compute. reflexivity.
  - pose proof (Delete_by_lookup (worldOf deleteAndPersistFail) (start annotated)
                  (@newInstanceService (worldOf deleteAndPersistFail) goerr
                     (start annotated)).2
                  (@instanceExists (worldOf deleteAndPersistFail) goerr
                     (@newInstanceService (worldOf deleteAndPersistFail) goerr
                        (start annotated)).2).2
                  (Some (server1 "ACTIVE"))) as H'.
    destruct H' as (_ & _ & H').
    + vm_compute. reflexivity.
    + vm_compute. reflexivity.
    + rewrite H. split; [reflexivity |]. split; [vm_compute; reflexivity |].
      cbv zeta in H'.
      change (InstanceDelete (worldOf deleteAndPersistFail) _ _)
        with (Some (Plain "server is locked")) in H'.
      cbv beta iota zeta in H'. destruct H' as (_ & _ & H').
      destruct (H' eq_refl) as (_ & ->). reflexivity.
Defined.

(** ** The poll of Create *)

Section Poll.

Variable w : World.

(** A read that fails is not an error of the condition: it answers "not
    yet", and assigns to [instance] whatever the read handed back. *)
Lemma pollCondition_read_error s i instance' e :
  GetInstance w (log s) (clients.ID i) = (instance', Some e) ->
  pollCondition w (Some i) s
  = (Val (instance', (false, None)),
     {| machine := machine s; log := log s ++ [CallGetInstance (clients.ID i)] |}).
Proof.
  intros H. unfold pollCondition, bind, deref, ret, invoke. simpl. by rewrite H.
Qed.

Lemma pollCondition_nil s : pollCondition w None s = (Panic, s).
Proof. reflexivity. Qed.

End Poll.

(** C10 (the code fails the claim). A read error is swallowed by the
    condition, and when the failed read hands back an instance the poll
    goes on with it after the interval. But the closure assigns the
    result of the read to the variable it reads the id from: when the
    failed read hands back nil, the next poll dereferences nil and Create
    panics, well before the timeout. *)
Theorem poll_read_error (w : World) (s : State) (i : clients.Instance) (e : error)
  (n : nat) (interval : time.Duration) :
  let s' := {| machine := machine s;
               log := (log s ++ [CallGetInstance (clients.ID i)]) ++ [Sleep interval] |} in
  (forall i',
      GetInstance w (log s) (clients.ID i) = (Some i', Some e) ->
      pollLoop (S n) interval (pollCondition w) (Some i) s
      = pollLoop n interval (pollCondition w) (Some i') s') /\
  (GetInstance w (log s) (clients.ID i) = (None, Some e) ->
   pollLoop (S n) interval (pollCondition w) (Some i) s = (Panic, s')) /\
  (Create (worldOf readsFail) (start fresh)).1 = Panic /\
  map callName (log (Create (worldOf readsFail) (start fresh)).2)
  = ["Infrastructures.Get"; "NewInstanceServiceFromMachine"; "NewInstanceServiceFromMachine";
     "DoesImageExist"; "DoesFlavorExist"; "DoesAvailabilityZoneExist";
     "InstanceCreate"; "GetInstance"; "Sleep"].
Proof.
  intros s'. split; [| split; [| split]].
  - intros i' H. cbn [pollLoop]. unfold bind at 1.
    rewrite (pollCondition_read_error w s i (Some i') e H). reflexivity.
  - intros H. cbn [pollLoop]. unfold bind at 1.
    rewrite (pollCondition_read_error w s i None e H).
    cbv beta iota. unfold bind, invoke. cbn [log machine].
    destruct n; reflexivity.
  - vm_compute. reflexivity.
  - vm_compute. reflexivity.
Qed.

(** * Further properties of the actuator *)

(** ** The error path, in general *)

Ltac split_matches :=
  repeat match goal with
         | |- context [match ?x with _ => _ end] => destruct x eqn:?; simpl
         end.

Ltac log_grows :=
  eexists; split;
  [rewrite <- ?app_assoc; first [reflexivity | symmetry; apply app_nil_r] |].




(** ** Exists *)

(** X2. [Exists] leaves the record as it is and only looks things up. It
    never answers true together with an error: a failed lookup gives
    false with the error wrapped, and a lookup that worked gives whether
    an instance was found, with a nil error. *)
Theorem Exists_read_only (w : World) (s : State) :
  machine (Exists w s).2 = machine s /\
  (exists ext, log (Exists w s).2 = log s ++ ext /\ Forall isLookup ext) /\
  (forall b e, (Exists w s).1 = Val (b, Some e) -> b = false) /\
  (forall found s1,
      @instanceExists w (bool * goerr) s = (Val (found, None), s1) ->
      Exists w s = (Val (negb (isNil found), None), s1)) /\
  (forall found e s1,
      @instanceExists w (bool * goerr) s = (Val (found, Some e), s1) ->
      Exists w s
      = (Val (false,
              Some (Errorf ("Error checking if instance exists (machine/actuator.go 346): "
                              +:+ errorString e))), s1)).
Proof.
  assert (Hq : quiet isLookup (Exists w)).
  { pose proof (@instanceExists_quiet w (bool * goerr)). unfold Exists. run_all. }
  split; [apply Hq |]. split; [apply Hq |].
  assert (Hn : forall r, (@instanceExists w (bool * goerr) s).1 <> Returned r).
  { intros r. unfold instanceExists. apply call_not_Returned. }
  unfold Exists, call, bind.
  destruct (instanceExists w s) as [[[found [e |]] | r | |] s1]; simpl.
  - split; [by intros b e' [= <- _] |]. split; [intros; discriminate |].
    by intros found' e' s1' [= <- <- <-].
  - split; [intros; discriminate |]. split; [| intros; discriminate].
    by intros found' s1' [= <- <-].
  - by destruct (Hn r).
  - split; [intros; discriminate |]. split; intros; discriminate.
  - split; [intros; discriminate |]. split; intros; discriminate.
Qed.

(** ** validateMachine *)

(** X3. [validateMachine] leaves the record as it is. For a machine that
    boots from a volume it never asks whether the image exists. It
    returns nil only after the flavor and the availability zone of the
    spec were checked, and the image too when the machine does not boot
    from a volume. *)
Theorem validateMachine_checks {R} (w : World) (s : State)
  (spec : openstackconfigv1.OpenstackProviderSpec) :
  MachineSpecFromProviderSpec w (machinev1.ProviderSpec (machinev1.Spec (machine s)))
  = (Some spec, None) ->
  machine (@validateMachine w R s).2 = machine s /\
  exists ext,
    log (@validateMachine w R s).2 = log s ++ ext /\
    (openstackconfigv1.RootVolume spec <> None -> Forall notImageCheck ext) /\
    ((@validateMachine w R s).1 = Val None ->
     In (CallDoesFlavorExist (openstackconfigv1.Flavor spec)) ext /\
     In (CallDoesAvailabilityZoneExist (openstackconfigv1.AvailabilityZone spec)) ext /\
     (openstackconfigv1.RootVolume spec = None ->
      In (CallDoesImageExist (openstackconfigv1.Image spec)) ext)).
Proof.
  intros Hspec. split; [apply validateMachine_quiet |].
  unfold validateMachine, call, bind, newInstanceService, getMachine, invoke, checkWith,
    check, deref, ret, Return.
  simpl. rewrite Hspec. simpl.
  destruct (NewInstanceServiceFromMachine w _ _); simpl.
  { log_grows. split; [intros; repeat constructor | intros; discriminate]. }
  destruct (openstackconfigv1.RootVolume spec) as [[] |] eqn:Hroot; simpl.
  - destruct (DoesFlavorExist w _ _); simpl.
    { log_grows. split; [intros; repeat constructor | intros; discriminate]. }
    destruct (DoesAvailabilityZoneExist w _ _); simpl.
    { log_grows. split; [intros; repeat constructor | intros; discriminate]. }
    log_grows. split; [intros; repeat constructor |].
    intros _. simpl. split; [tauto |]. split; [tauto | intros; discriminate].
  - destruct (DoesImageExist w _ _); simpl.
    { log_grows. split; [done | intros; discriminate]. }
    destruct (DoesFlavorExist w _ _); simpl.
    { log_grows. split; [done | intros; discriminate]. }
    destruct (DoesAvailabilityZoneExist w _ _); simpl.
    { log_grows. split; [done | intros; discriminate]. }
    log_grows. split; [done |].
    intros _. simpl. tauto.
Qed.

Lemma validateMachine_checks_witness :
  Forall notImageCheck
    (log (@validateMachine (worldOf (with_spec (Some specFromVolume, None) calm)) Empty_set
            (start fresh)).2).
Proof.
  destruct (validateMachine_checks (R := Empty_set)
              (worldOf (with_spec (Some specFromVolume, None) calm)) (start fresh)
              specFromVolume) as (_ & ext & Hlog & Hno & _); [reflexivity |].
  rewrite Hlog. simpl. apply Hno. discriminate.
Defined.

(** ** The timeout of a request of the generated client *)

(** X4. The timeout that [List], [Watch] and [DeleteCollection] of the
    Image client put on the request is zero when the options carry no
    [TimeoutSeconds], and exactly that many seconds for every value from
    -9223372036 to 9223372036; beyond that the int64 product wraps, and
    9223372037 seconds become a negative timeout. *)
Theorem requestTimeout_seconds :
  requestTimeout None = 0 /\
  (forall t, -9223372036 <= t <= 9223372036 -> requestTimeout (Some t) = t * time.Second) /\
  requestTimeout (Some 9223372037) < 0.
Proof.
  split; [reflexivity |]. split; [| reflexivity].
  intros t Ht. unfold requestTimeout, Go.mul64. apply wrap64_small.
  unfold Go.MinInt64, Go.MaxInt64, time.Second. lia.
Qed.

(** ** getIPsFromInstance, in general *)

Lemma In_fold_appendInterface a l :
  In a (fold_left appendInterface l []) <->
  exists x, In x l /\ Version x = 4 /\
            addressType (Type_ x) = Some (corev1.Type_ a) /\
            Address x = corev1.Address a.
Proof.
  induction l as [| y l IH].
  - simpl. split; [done | by intros (x & [] & _)].
  - rewrite fold_appendInterface_cons, in_app_iff, IH. split.
    + intros [Hy | (x & Hx & H)]; [| exists x; simpl; tauto].
      exists y. split; [by left |].
      unfold appendInterface in Hy.
      destruct (Version y =? 4) eqn:Hv; simpl in Hy; [| done].
      apply Z.eqb_eq in Hv.
      destruct (addressType (Type_ y)) as [t |] eqn:Ht; [| done].
      destruct Hy as [<- | []]. done.
    + intros (x & [<- | Hx] & Hv & Ht & Ha); [left | right; eauto].
      unfold appendInterface. apply Z.eqb_eq in Hv. rewrite Hv. simpl. rewrite Ht.
      left. destruct a. simpl in *. by subst.
Qed.

Lemma rangeAddresses_spec id addrs acc :
  ((rangeAddresses id addrs acc).2 <> None -> (rangeAddresses id addrs acc).1 = []) /\
  ((rangeAddresses id addrs acc).2 = None <->
   Forall (fun nb => exists l, nb.2 = clients.Interfaces l) addrs) /\
  ((rangeAddresses id addrs acc).2 = None ->
   forall a,
     In a (rangeAddresses id addrs acc).1 <->
     In a acc \/
     exists net l x,
       In (net, clients.Interfaces l) addrs /\ In x l /\ Version x = 4 /\
       addressType (Type_ x) = Some (corev1.Type_ a) /\
       Address x = corev1.Address a).
Proof.
  revert acc. induction addrs as [| [net b] addrs IH]; intros acc; simpl.
  - split; [done |]. split; [done |]. intros _ a. split; [tauto |].
    by intros [? | (? & ? & ? & [] & _)].
  - destruct b as [l | msg | msg]; simpl.
    + destruct (IH (fold_left appendInterface l acc)) as (I1 & I2 & I3).
      split; [done |]. split.
      { rewrite I2. split; [intros H; constructor; eauto | by inversion 1]. }
      intros Hok a. rewrite (I3 Hok a), fold_appendInterface, in_app_iff.
      rewrite In_fold_appendInterface. split.
      * intros [[Ha | (x & Hx & Hr)] | (net' & l' & x & Hin & Hr)]; [tauto | |].
        -- right. exists net, l, x. tauto.
        -- right. exists net', l', x. tauto.
      * intros [Ha | (net' & l' & x & [Heq | Hin] & Hr)]; [tauto | |].
        -- injection Heq as _ <-. left. right. exists x. tauto.
        -- right. exists net', l', x. tauto.
    + split; [done |]. split; [| done].
      split; [done |]. inversion 1 as [| ? ? (l & Hl)]. discriminate Hl.
    + split; [done |]. split; [| done].
      split; [done |]. inversion 1 as [| ? ? (l & Hl)]. discriminate Hl.
Qed.

(** X5. [getIPsFromInstance] fails exactly when the value of some network
    does not decode, and then hands back no address at all, not the part
    it had collected. When it succeeds, the addresses it gives are
    exactly those of the IPv4 interfaces of type floating (as external IP)
    and fixed (as internal IP): nothing else gets in, and none of them is
    left out. *)
Theorem getIPsFromInstance_exact (instance : clients.Instance) :
  ((getIPsFromInstance instance).2 <> None -> (getIPsFromInstance instance).1 = []) /\
  ((getIPsFromInstance instance).2 = None <->
   Forall (fun nb => exists l, nb.2 = clients.Interfaces l) (clients.Addresses instance)) /\
  ((getIPsFromInstance instance).2 = None ->
   forall a,
     In a (getIPsFromInstance instance).1 <->
     exists net l x,
       In (net, clients.Interfaces l) (clients.Addresses instance) /\ In x l /\
       Version x = 4 /\
       ((Type_ x = "floating" /\ corev1.Type_ a = corev1.NodeExternalIP) \/
        (Type_ x = "fixed" /\ corev1.Type_ a = corev1.NodeInternalIP)) /\
       Address x = corev1.Address a).
Proof.
  unfold getIPsFromInstance.
  destruct (rangeAddresses_spec (clients.ID instance) (clients.Addresses instance) [])
    as (H1 & H2 & H3).
  split; [done |]. split; [done |].
  intros Hok a. rewrite (H3 Hok a).
  assert (Ht : forall x, addressType (Type_ x) = Some (corev1.Type_ a) <->
                         (Type_ x = "floating" /\ corev1.Type_ a = corev1.NodeExternalIP) \/
                         (Type_ x = "fixed" /\ corev1.Type_ a = corev1.NodeInternalIP)).
  { intros x. unfold addressType.
    destruct (String.eqb (Type_ x) "floating") eqn:E1.
    - apply String.eqb_eq in E1. rewrite E1. split.
      + intros [= <-]. by left.
      + intros [[_ ->] | [? _]]; [done | discriminate].
    - apply String.eqb_neq in E1.
      destruct (String.eqb (Type_ x) "fixed") eqn:E2.
      + apply String.eqb_eq in E2. rewrite E2. split.
        * intros [= <-]. by right.
        * intros [[? _] | [_ ->]]; [discriminate | done].
      + apply String.eqb_neq in E2. split; [discriminate | tauto]. }
  split.
  - intros [[] | (net & l & x & Hin & Hx & Hv & Hty & Ha)].
    exists net, l, x. rewrite <- Ht. tauto.
  - intros (net & l & x & Hin & Hx & Hv & Hty & Ha).
    right. exists net, l, x. rewrite Ht. tauto.
Qed.

(** ** How often Create calls the provider *)

Lemma countCalls_app p l1 l2 :
  countCalls p (l1 ++ l2) = (countCalls p l1 + countCalls p l2)%nat.
Proof. induction l1 as [| e l1 IH]; simpl; [done |]. rewrite IH. lia. Qed.

Lemma totalWait_cons e l :
  totalWait (e :: l) = match e with Sleep d => d + totalWait l | _ => totalWait l end.
Proof. by destruct e. Qed.

Lemma totalWait_app l1 l2 : totalWait (l1 ++ l2) = totalWait l1 + totalWait l2.
Proof.
  induction l1 as [| e l1 IH]; [done |].
  rewrite <- app_comm_cons, !totalWait_cons. destruct e; lia.
Qed.

Lemma countCalls_unmetered last l :
  Forall unmetered l ->
  countCalls isInstanceCreate l = O /\ countCalls isGetInstance l = O /\
  totalWait l = 0 /\ Forall (waitsOf last) l.
Proof.
  induction 1 as [| e l He _ (I1 & I2 & I3 & I4)]; [by repeat split |].
  rewrite totalWait_cons. simpl. rewrite I1, I2, I3.
  by destruct e; repeat split; try constructor.
Qed.

(** Waits that all last the interval add up to their number times the
    interval. *)
Lemma totalWait_count l :
  Forall waitsInterval l ->
  totalWait l = Z.of_nat (countCalls isSleep l) * RetryIntervalInstanceStatus.
Proof.
  induction 1 as [| e l He _ IH]; [done |].
  rewrite totalWait_cons. destruct e; simpl in *; try apply IH.
  rewrite IH, He. lia.
Qed.

(** The waits of a poll are positive and no longer than the interval,
    when what is left after the last tick is less than an interval. *)
Lemma waitsOf_bounds last l :
  last < RetryIntervalInstanceStatus ->
  Forall (waitsOf last) l ->
  0 <= totalWait l /\ Forall (waitsAtMost RetryIntervalInstanceStatus) l.
Proof.
  intros Hlast. assert (Hi : 0 < RetryIntervalInstanceStatus) by reflexivity.
  induction 1 as [| e l He _ (IH1 & IH2)]; [by split |].
  rewrite totalWait_cons.
  destruct e; simpl in He; (split; [| constructor; [| done]]); try done.
  - destruct He as [-> | [? ->]]; lia.
  - simpl. destruct He as [-> | [? ->]]; lia.
Qed.

(** Without a remainder every wait lasts the interval. *)
Lemma waitsOf_interval last l :
  last <= 0 -> Forall (waitsOf last) l -> Forall waitsInterval l.
Proof.
  intros Hlast Hl. eapply Forall_impl; [exact Hl |].
  intros [] He; simpl in *; try done. lia.
Qed.

(** The ticks of a poll and what is left after them make up the
    timeout. *)
Lemma pollTicks_fit timeout :
  Z.of_nat (pollTicks RetryIntervalInstanceStatus timeout) * RetryIntervalInstanceStatus
  + Z.max 0 (pollRemainder RetryIntervalInstanceStatus timeout)
  <= Z.max 0 timeout /\
  pollRemainder RetryIntervalInstanceStatus timeout < RetryIntervalInstanceStatus.
Proof.
  unfold pollRemainder, pollTicks.
  assert (Hi : 0 < RetryIntervalInstanceStatus) by reflexivity.
  destruct (Z.le_gt_cases 0 timeout) as [Hpos | Hneg].
  - pose proof (Z.div_pos timeout _ Hpos Hi) as Hq.
    pose proof (Z.mul_div_le timeout _ Hi) as Hm.
    pose proof (Z.mod_pos_bound timeout _ Hi) as Hr.
    pose proof (Z.div_mod timeout RetryIntervalInstanceStatus ltac:(lia)) as Hd.
    rewrite Z2Nat.id by done. nia.
  - assert (Hq : timeout / RetryIntervalInstanceStatus < 0).
    { apply Z.div_lt_upper_bound; lia. }
    assert (Hz : Z.to_nat (timeout / RetryIntervalInstanceStatus) = 0%nat) by lia.
    rewrite Hz. lia.
Qed.

Section Meters.

Context {R : Type}.

Variable last : time.Duration.

Lemma meters_of_emits {A} (c : M R A) : emits unmetered c -> meters last 0 0 0 c.
Proof.
  intros Hc s. destruct (Hc s) as (ext & E & F).
  destruct (countCalls_unmetered last ext F) as (C1 & C2 & C3 & C4).
  exists ext. rewrite C1, C2, C3. repeat split; try done; lia.
Qed.

Lemma meters_weaken {A} c g t c' g' t' (prog : M R A) :
  (c <= c')%nat -> (g <= g')%nat -> t <= t' ->
  meters last c g t prog -> meters last c' g' t' prog.
Proof.
  intros Hc Hg Ht Hm s. destruct (Hm s) as (ext & E & C1 & C2 & C3 & C4).
  exists ext. repeat split; try done; lia.
Qed.

Lemma meters_bind {A B} c1 g1 t1 c2 g2 t2 (prog : M R A) (k : A -> M R B) :
  meters last c1 g1 t1 prog -> (forall a, meters last c2 g2 t2 (k a)) ->
  0 <= t2 ->
  meters last (c1 + c2) (g1 + g2) (t1 + t2) (bind prog k).
Proof.
  intros Hp Hk Ht s. unfold bind.
  destruct (Hp s) as (ext1 & E1 & C1 & G1 & Z1 & W1).
  destruct (prog s) as [[a | r | |] s1]; simpl in *;
    [| exists ext1; repeat split; try done; lia ..].
  destruct (Hk a s1) as (ext2 & E2 & C2 & G2 & Z2 & W2).
  exists (ext1 ++ ext2). rewrite E2, E1, app_assoc, !countCalls_app, totalWait_app.
  repeat split; try done; try lia. by apply Forall_app.
Qed.

Lemma meters_bind_l {A B} c g t (prog : M R A) (k : A -> M R B) :
  emits unmetered prog -> (forall a, meters last c g t (k a)) -> 0 <= t ->
  meters last c g t (bind prog k).
Proof.
  intros Hp Hk Ht. apply (meters_bind 0 0 0 c g t); [by apply meters_of_emits | done ..].
Qed.

Lemma meters_bind_r {A B} c g t (prog : M R A) (k : A -> M R B) :
  meters last c g t prog -> (forall a, emits unmetered (k a)) ->
  meters last c g t (bind prog k).
Proof.
  intros Hp Hk.
  apply (meters_weaken (c + 0) (g + 0) (t + 0)); [lia .. |].
  apply meters_bind; [done | | done]. intros a. by apply meters_of_emits.
Qed.

Lemma meters_call {R'} c g t (body : M R R) :
  meters last c g t body -> meters last c g t (@call R R' body).
Proof.
  intros Hb s. unfold call. destruct (Hb s) as (ext & E & H).
  destruct (body s) as [[a | r | |] s1]; simpl in *; eauto.
Qed.

End Meters.

Lemma lookup_unmetered {R A} (c : M R A) : quiet isLookup c -> emits unmetered c.
Proof.
  intros H. eapply emits_weaken; [| by apply quiet_emits].
  by intros [].
Qed.

Section Unmetered.

Variable w : World.

Lemma client_Update_unmetered {R} m : emits unmetered (@client_Update w R m).
Proof. unfold client_Update. run_all. Qed.

Lemma client_Status_Update_unmetered {R} m : emits unmetered (@client_Status_Update w R m).
Proof. unfold client_Status_Update. run_all. Qed.

Lemma client_Create_unmetered {R} secret : emits unmetered (@client_Create w R secret).
Proof. unfold client_Create. run_all. Qed.

Lemma handleMachineError_unmetered {R} err action :
  emits unmetered (@handleMachineError w R err action).
Proof.
  pose proof (@client_Update_unmetered).
  unfold handleMachineError, Eventf. run_all.
Qed.

Lemma updateAnnotation_unmetered {R} instance infra :
  emits unmetered (@updateAnnotation w R instance infra).
Proof.
  pose proof (@client_Update_unmetered).
  pose proof (@client_Status_Update_unmetered).
  pose proof (@handleMachineError_unmetered).
  unfold updateAnnotation. run_all.
Qed.

Lemma Create_validate_unmetered : emits unmetered (Create_validate w).
Proof.
  pose proof (@handleMachineError_unmetered).
  pose proof (lookup_unmetered _ (@getClusterInfraName_quiet w goerr)).
  pose proof (lookup_unmetered _ (@newInstanceService_quiet w goerr)).
  pose proof (lookup_unmetered _ (@validateMachine_quiet w goerr)).
  unfold Create_validate. run_all.
Qed.

Lemma Create_guard_unmetered : emits unmetered (Create_guard w).
Proof.
  pose proof (@handleMachineError_unmetered).
  unfold Create_guard. run_all.
Qed.

Lemma Create_userData_unmetered providerSpec :
  emits unmetered (Create_userData w providerSpec).
Proof. unfold Create_userData. run_all. Qed.

Lemma createBootstrapToken_unmetered {R} : emits unmetered (@createBootstrapToken w R).
Proof.
  pose proof (@client_Create_unmetered).
  unfold createBootstrapToken. run_all.
Qed.

Lemma Create_render_unmetered userData disableTemplating :
  emits unmetered (Create_render w userData disableTemplating).
Proof.
  pose proof (@handleMachineError_unmetered).
  pose proof (@createBootstrapToken_unmetered).
  unfold Create_render. run_all.
Qed.

Lemma Create_postprocess_unmetered userDataRendered postprocessor postprocess :
  emits unmetered (Create_postprocess w userDataRendered postprocessor postprocess).
Proof. unfold Create_postprocess. run_all. Qed.

Lemma Create_finish_unmetered instance infra :
  emits unmetered (Create_finish w instance infra).
Proof.
  pose proof (@updateAnnotation_unmetered).
  unfold Create_finish, Eventf. run_all.
Qed.

(** One try of the condition reads the instance at most once. *)
Lemma pollCondition_meters last instance : meters last 0 1 0 (pollCondition w instance).
Proof.
  intros s. unfold pollCondition, bind, deref, invoke, ret, panic.
  destruct instance as [i |]; simpl.
  - destruct (GetInstance w (log s) (clients.ID i)) as [[i' |] [e |]]; simpl;
      exists [CallGetInstance (clients.ID i)];
      (split; [done |]); (split; [simpl; lia |]); (split; [simpl; lia |]);
      (split; [cbn; lia |]); repeat constructor.
  - exists []. rewrite app_nil_r.
    split; [done |]. split; [simpl; lia |]. split; [simpl; lia |].
    split; [cbn; lia | constructor].
Qed.

(** The ticks of a poll: with [n] of them the instance is read at most
    [n + 1] times, and the waits are [n] intervals at most. *)
Lemma pollLoop_meters last n vars :
  meters last 0 (S n) (Z.of_nat n * RetryIntervalInstanceStatus)
    (pollLoop n RetryIntervalInstanceStatus (pollCondition w) vars).
Proof.
  assert (Hi : 0 < RetryIntervalInstanceStatus) by reflexivity.
  revert vars. induction n as [| n IH]; intros vars; cbn [pollLoop].
  - apply (meters_weaken last 0 1 0); [lia .. |].
    apply meters_bind_r; [apply pollCondition_meters |].
    intros [v [done [e |]]]; [apply emits_ret |]. destruct done; apply emits_ret.
  - apply (meters_weaken last (0 + 0) (1 + S n)
             (0 + (RetryIntervalInstanceStatus + Z.of_nat n * RetryIntervalInstanceStatus)));
      [lia .. |].
    apply meters_bind; [apply pollCondition_meters | | lia].
    intros [v [done [e |]]].
    { apply (meters_weaken last 0 0 0); [lia .. |]. apply meters_of_emits, emits_ret. }
    destruct done.
    { apply (meters_weaken last 0 0 0); [lia .. |]. apply meters_of_emits, emits_ret. }
    apply (meters_bind last 0 0 RetryIntervalInstanceStatus 0 (S n));
      [| intros; apply IH | lia].
    intros s. exists [Sleep RetryIntervalInstanceStatus].
    split; [done |]. split; [simpl; lia |]. split; [simpl; lia |].
    split; [cbn; lia |]. constructor; [by left | constructor].
Qed.

(** The whole poll: with a timeout, one more try than the ticks of the
    loop, and waits that fit in the timeout; without one, what the
    horizon allows. *)
Lemma PollImmediate_meters h timeout vars :
  meters (pollRemainder RetryIntervalInstanceStatus timeout) 0
    (pollTries h RetryIntervalInstanceStatus timeout)
    (pollWait h RetryIntervalInstanceStatus timeout)
    (PollImmediate h RetryIntervalInstanceStatus timeout (pollCondition w) vars).
Proof.
  assert (Hi : 0 < RetryIntervalInstanceStatus) by reflexivity.
  destruct (pollTicks_fit timeout) as (Hfit & _).
  unfold PollImmediate, pollTries, pollWait, pollAnswer.
  fold (pollRemainder RetryIntervalInstanceStatus timeout).
  set (last := pollRemainder RetryIntervalInstanceStatus timeout) in *.
  destruct (timeout =? 0).
  - apply meters_bind_r; [apply pollLoop_meters |].
    intros [v [done [e |]]]; [apply emits_ret |].
    destruct done; [apply emits_ret | apply emits_unfinished].
  - set (ticks := pollTicks RetryIntervalInstanceStatus timeout) in *.
    apply (meters_weaken last (0 + 0) (S ticks + 1)
             (Z.of_nat ticks * RetryIntervalInstanceStatus + Z.max 0 last)); [lia .. |].
    apply meters_bind; [apply pollLoop_meters | | lia].
    intros [v [done [e |]]].
    { apply (meters_weaken last 0 0 0); [lia .. |]. apply meters_of_emits, emits_ret. }
    destruct done.
    { apply (meters_weaken last 0 0 0); [lia .. |]. apply meters_of_emits, emits_ret. }
    assert (Hc : forall v', meters last 0 1 0
                   (let* (vars'', (done, err)) := pollCondition w v' in
                    match err with
                    | Some e => ret (vars'', Some e)
                    | None => if done then ret (vars'', None)
                              else ret (vars'', Some ErrWaitTimeout)
                    end)).
    { intros v'. apply meters_bind_r; [apply pollCondition_meters |].
      intros [v'' [done' [e' |]]]; [apply emits_ret |]. destruct done'; apply emits_ret. }
    destruct (0 <? last) eqn:Hl.
    + apply Z.ltb_lt in Hl.
      apply (meters_weaken last (0 + 0) (0 + 1) (last + 0)); [lia .. |].
      apply meters_bind; [| intros; apply Hc | lia].
      intros s. exists [Sleep last].
      split; [done |]. split; [simpl; lia |]. split; [simpl; lia |].
      split; [cbn; lia |]. constructor; [by right | constructor].
    + apply (meters_weaken last 0 1 0); [lia .. |].
      apply meters_bind_l; [apply emits_ret | intros; apply Hc | lia].
Qed.

End Unmetered.

Lemma bind_Val_inv {R A B} (c : M R A) (k : A -> M R B) s b s' :
  bind c k s = (Val b, s') -> exists a s1, c s = (Val a, s1) /\ k a s1 = (Val b, s').
Proof.
  unfold bind. destruct (c s) as [[a | r | |] s1]; intros H; [eauto | discriminate ..].
Qed.

Lemma emits_run {R A} P (c : M R A) s r s' :
  emits P c -> c s = (r, s') -> exists ext, log s' = log s ++ ext /\ Forall P ext.
Proof. intros Hc H. specialize (Hc s). by rewrite H in Hc. Qed.

Lemma pollWait_nonneg h timeout : 0 <= pollWait h RetryIntervalInstanceStatus timeout.
Proof.
  assert (Hi : 0 < RetryIntervalInstanceStatus) by reflexivity.
  unfold pollWait. destruct (timeout =? 0); lia.
Qed.

Section CreateCalls.

Variable w : World.

Let tries : nat :=
  pollTries (Horizon w) RetryIntervalInstanceStatus (instanceCreateTimeout (Environ w)).

Let wait : time.Duration :=
  pollWait (Horizon w) RetryIntervalInstanceStatus (instanceCreateTimeout (Environ w)).

Let last : time.Duration :=
  pollRemainder RetryIntervalInstanceStatus (instanceCreateTimeout (Environ w)).

(** The provisioning starts with the one call of InstanceCreate; what
    follows is the poll and calls that are not metered. *)
Lemma Create_provision_log spec userDataRendered s :
  exists e ext,
    log (Create_provision w spec userDataRendered s).2 = log s ++ e :: ext /\
    isInstanceCreate e = true /\
    countCalls isInstanceCreate ext = O /\
    (countCalls isGetInstance ext <= tries)%nat /\
    totalWait ext <= wait /\
    Forall (waitsOf last) ext.
Proof.
  unfold Create_provision. unfold bind at 1. unfold getMachine at 1. cbv beta iota.
  unfold bind at 1. unfold invoke at 1. cbv beta iota.
  destruct (InstanceCreate w _ _ _ _ _ _) as [inst err].
  match goal with
  | |- context [log (?prog ?st).2] =>
      assert (Hm : meters last 0 tries wait prog);
      [| destruct (Hm st) as (ext & E & C1 & C2 & C3 & C4)]
  end.
  - pose proof (@handleMachineError_unmetered w).
    apply meters_bind_l; [run_all | | apply pollWait_nonneg]. intros _.
    apply meters_bind_r; [apply PollImmediate_meters |].
    intros [i e]. run_all.
  - eexists _, ext. rewrite E. cbn [log]. rewrite <- app_assoc.
    split; [reflexivity |]. split; [reflexivity |]. split; [lia | done].
Qed.

Lemma Create_provision_meters spec userDataRendered :
  meters last 1 tries wait (Create_provision w spec userDataRendered).
Proof.
  intros s.
  destruct (Create_provision_log spec userDataRendered s) as (e & ext & E & He & C1 & C2 & C3 & C4).
  exists (e :: ext). split; [done |].
  destruct e; try discriminate He. rewrite totalWait_cons. simpl. rewrite C1.
  repeat split; try done; try lia. by constructor.
Qed.

Lemma Create_provisioned_meters : meters last 1 tries wait (Create_provisioned w).
Proof.
  pose proof (pollWait_nonneg (Horizon w) (instanceCreateTimeout (Environ w))) as Hw.
  unfold Create_provisioned.
  apply meters_bind_l; [apply Create_validate_unmetered | | done]. intros [infra ps].
  apply meters_bind_l; [apply Create_guard_unmetered | | done]. intros _.
  apply meters_bind_l; [apply Create_userData_unmetered | | done].
  intros [spec [[[ud dt] pp] ppb]].
  apply meters_bind_l; [apply Create_render_unmetered | | done]. intros udr.
  apply meters_bind_l; [apply Create_postprocess_unmetered | | done]. intros udr'.
  apply meters_bind_r; [apply Create_provision_meters |]. intros inst. apply emits_ret.
Qed.

(** In every run, Create creates at most once, and reads the instance and
    waits as the poll does. *)
Lemma Create_meters : meters last 1 tries wait (Create w).
Proof.
  unfold Create. apply meters_call.
  apply meters_bind_r; [apply Create_provisioned_meters |].
  intros [infra inst]. pose proof (Create_finish_unmetered w). run_all.
Qed.

(** When Create gets past the provisioning, the machine had no
    providerID, the record is as it was, and InstanceCreate was called. *)
Lemma Create_provisioned_inv s infra inst s' :
  Create_provisioned w s = (Val (infra, inst), s') ->
  machineProviderID (machine s) = None /\
  machine s' = machine s /\
  exists pre e post, log s' = log s ++ pre ++ e :: post /\ isInstanceCreate e = true.
Proof.
  intros H.
  pose proof (Create_provisioned_phase w s) as Hph. rewrite H in Hph. simpl in Hph.
  destruct Hph as (Hm & _).
  unfold Create_provisioned in H.
  apply bind_Val_inv in H as ([infra0 ps] & s1 & Hv & H). cbv beta iota in H.
  apply bind_Val_inv in H as ([] & s2 & Hg & H).
  apply bind_Val_inv in H as ([spec [[[ud dt] pp] ppb]] & s3 & Hu & H). cbv beta iota in H.
  apply bind_Val_inv in H as (udr & s4 & Hr & H).
  apply bind_Val_inv in H as (udr' & s5 & Hp & H).
  apply bind_Val_inv in H as (inst' & s6 & Hpr & H).
  injection H as _ _ <-.
  pose proof (Create_validate_phase w s) as Hvp. rewrite Hv in Hvp. simpl in Hvp.
  destruct Hvp as (Hm1 & _).
  split.
  { destruct (machineProviderID (machine s1)) as [p |] eqn:Hp1; [| congruence].
    rewrite (Create_guard_bound w s1 p Hp1) in Hg. cbv zeta in Hg.
    destruct (handleMachineError w _ _ s1).1; discriminate Hg. }
  split; [done |].
  destruct (emits_run _ _ _ _ _ (Create_validate_unmetered w) Hv) as (e1 & E1 & _).
  destruct (emits_run _ _ _ _ _ (Create_guard_unmetered w) Hg) as (e2 & E2 & _).
  destruct (emits_run _ _ _ _ _ (Create_userData_unmetered w ps) Hu) as (e3 & E3 & _).
  destruct (emits_run _ _ _ _ _ (Create_render_unmetered w ud dt) Hr) as (e4 & E4 & _).
  destruct (emits_run _ _ _ _ _ (Create_postprocess_unmetered w udr pp ppb) Hp) as (e5 & E5 & _).
  destruct (Create_provision_log spec udr' s5) as (e & post & E6 & He & _).
  rewrite Hpr in E6. simpl in E6.
  exists (e1 ++ e2 ++ e3 ++ e4 ++ e5), e, post. split; [| done].
  rewrite E6, E5, E4, E3, E2, E1, <- !app_assoc. reflexivity.
Qed.

End CreateCalls.

(** X6. In every run Create calls InstanceCreate at most once, and when
    Create returns nil it has called it exactly once: Create never reports
    success without having created the instance. *)
Theorem Create_creates_at_most_once (w : World) (s : State) :
  exists ext,
    log (Create w s).2 = log s ++ ext /\
    (countCalls isInstanceCreate ext <= 1)%nat /\
    ((Create w s).1 = Val None -> countCalls isInstanceCreate ext = 1%nat).
Proof.
  destruct (Create_meters w s) as (ext & E & C1 & _).
  exists ext. split; [done |]. split; [done |].
  intros Hnil. cut (1 <= countCalls isInstanceCreate ext)%nat; [lia |].
  revert Hnil E. unfold Create, call, bind.
  pose proof (Create_provisioned_phase w s) as Hph.
  destruct (Create_provisioned w s) as [[[infra inst] | r | |] s1] eqn:Hpr; simpl in Hph.
  - destruct (Create_provisioned_inv w s infra inst s1 Hpr) as (_ & _ & pre & e & post & E1 & He).
    pose proof (Create_finish_unmetered w inst infra s1) as (extf & Ef & _).
    destruct (Create_finish w inst infra s1) as [[[] | r | |] s2]; simpl in *;
      intros _ E; rewrite Ef, E1, <- !app_assoc in E; apply app_inv_head in E; subst ext;
      rewrite !countCalls_app; simpl; rewrite He; lia.
  - simpl. by intros [= ->].
  - simpl. discriminate.
  - simpl. discriminate.
Qed.

(** ** Runs that do not stay in the poll *)

Section Finishes.

Context {R : Type}.

Lemma finishes_ret {A} (a : A) : finishes (@ret R A a).
Proof. by intros s. Qed.

Lemma finishes_Return {A} (r : R) : finishes (@Return R A r).
Proof. by intros s. Qed.

Lemma finishes_panic {A} : finishes (@panic R A).
Proof. by intros s. Qed.

Lemma finishes_getMachine : finishes (@getMachine R).
Proof. by intros s. Qed.

Lemma finishes_modifyMachine f : finishes (@modifyMachine R f).
Proof. by intros s. Qed.

Lemma finishes_invoke {A} e (f : Log -> A) : finishes (@invoke R A e f).
Proof. by intros s. Qed.

Lemma finishes_deref {A} (p : option A) : finishes (@deref R A p).
Proof. by destruct p; intros s. Qed.

Lemma finishes_bind {A B} (c : M R A) (k : A -> M R B) :
  finishes c -> (forall a, finishes (k a)) -> finishes (bind c k).
Proof.
  intros Hc Hk s. unfold bind. specialize (Hc s).
  destruct (c s) as [[a | r | |] s1]; simpl in *; [apply Hk | done ..].
Qed.

Lemma finishes_call {R'} (body : M R R) : finishes body -> finishes (@call R R' body).
Proof.
  intros Hb s. unfold call. specialize (Hb s).
  by destruct (body s) as [[a | r | |] s1].
Qed.

Lemma finishes_checkWith err (f : error -> M R R) :
  (forall e, finishes (f e)) -> finishes (checkWith err f).
Proof.
  intros Hf. destruct err; simpl; [| apply finishes_ret].
  apply finishes_bind; [apply Hf | intros; apply finishes_Return].
Qed.

End Finishes.

Lemma finishes_check err : finishes (check err).
Proof. destruct err; [apply finishes_Return | apply finishes_ret]. Qed.

Create HintDb fin.

#[local] Hint Resolve finishes_ret finishes_Return finishes_panic finishes_getMachine
  finishes_modifyMachine finishes_invoke finishes_deref finishes_check : fin.

Ltac fin_step :=
  match goal with
  | |- finishes (bind _ _) => apply finishes_bind; [| intros ?]
  | |- finishes (call _) => apply finishes_call
  | |- finishes (checkWith _ _) => apply finishes_checkWith; intros ?
  | |- _ => solve [eauto with fin]
  | |- finishes ?c =>
      match c with
      | context [match ?x with _ => _ end] => destruct x
      end
  end.

Ltac fin_all := repeat fin_step.

Section ActuatorFinishes.

Variable w : World.

Lemma client_Update_finishes {R} m : finishes (@client_Update w R m).
Proof. unfold client_Update. fin_all. Qed.

Lemma client_Status_Update_finishes {R} m : finishes (@client_Status_Update w R m).
Proof. unfold client_Status_Update. fin_all. Qed.

Lemma client_Create_finishes {R} secret : finishes (@client_Create w R secret).
Proof. unfold client_Create. fin_all. Qed.

Lemma newInstanceService_finishes {R} : finishes (@newInstanceService w R).
Proof. unfold newInstanceService. fin_all. Qed.

Lemma getClusterInfraName_finishes {R} : finishes (@getClusterInfraName w R).
Proof. unfold getClusterInfraName. fin_all. Qed.

Lemma handleMachineError_finishes {R} err action :
  finishes (@handleMachineError w R err action).
Proof.
  pose proof (@client_Update_finishes).
  unfold handleMachineError, Eventf. fin_all.
Qed.

Lemma updateAnnotation_finishes {R} instance infra :
  finishes (@updateAnnotation w R instance infra).
Proof.
  pose proof (@client_Update_finishes).
  pose proof (@client_Status_Update_finishes).
  pose proof (@handleMachineError_finishes).
  unfold updateAnnotation. fin_all.
Qed.

Lemma validateMachine_finishes {R} : finishes (@validateMachine w R).
Proof.
  pose proof (@newInstanceService_finishes).
  unfold validateMachine. fin_all.
Qed.

Lemma createBootstrapToken_finishes {R} : finishes (@createBootstrapToken w R).
Proof.
  pose proof (@client_Create_finishes).
  unfold createBootstrapToken. fin_all.
Qed.

Lemma Create_validate_finishes : finishes (Create_validate w).
Proof.
  pose proof (@handleMachineError_finishes).
  pose proof (@getClusterInfraName_finishes).
  pose proof (@newInstanceService_finishes).
  pose proof (@validateMachine_finishes).
  unfold Create_validate. fin_all.
Qed.

Lemma Create_guard_finishes : finishes (Create_guard w).
Proof.
  pose proof (@handleMachineError_finishes).
  unfold Create_guard. fin_all.
Qed.

Lemma Create_userData_finishes providerSpec : finishes (Create_userData w providerSpec).
Proof. unfold Create_userData. fin_all. Qed.

Lemma Create_render_finishes userData disableTemplating :
  finishes (Create_render w userData disableTemplating).
Proof.
  pose proof (@handleMachineError_finishes).
  pose proof (@createBootstrapToken_finishes).
  unfold Create_render. fin_all.
Qed.

Lemma Create_postprocess_finishes userDataRendered postprocessor postprocess :
  finishes (Create_postprocess w userDataRendered postprocessor postprocess).
Proof. unfold Create_postprocess. fin_all. Qed.

Lemma pollCondition_finishes instance : finishes (pollCondition w instance).
Proof. unfold pollCondition. fin_all. Qed.

Lemma pollLoop_finishes n interval vars :
  finishes (pollLoop n interval (pollCondition w) vars).
Proof.
  pose proof pollCondition_finishes.
  revert vars. induction n as [| n IH]; intros vars; cbn [pollLoop]; fin_all.
Qed.

(** A poll with a timeout ends. *)
Lemma PollImmediate_finishes h interval timeout vars :
  timeout <> 0 ->
  finishes (PollImmediate h interval timeout (pollCondition w) vars).
Proof.
  intros Ht. apply Z.eqb_neq in Ht.
  pose proof pollCondition_finishes. pose proof pollLoop_finishes.
  unfold PollImmediate, pollAnswer. rewrite Ht. fin_all.
Qed.

Lemma Create_provision_finishes spec userDataRendered :
  instanceCreateTimeout (Environ w) <> 0 ->
  finishes (Create_provision w spec userDataRendered).
Proof.
  intros Ht.
  pose proof (@handleMachineError_finishes).
  pose proof (fun v => PollImmediate_finishes (Horizon w) RetryIntervalInstanceStatus _ v Ht).
  unfold Create_provision. fin_all.
Qed.

Lemma Create_finish_finishes instance infra : finishes (Create_finish w instance infra).
Proof.
  pose proof (@updateAnnotation_finishes).
  unfold Create_finish, Eventf. fin_all.
Qed.

Lemma Create_finishes : instanceCreateTimeout (Environ w) <> 0 -> finishes (Create w).
Proof.
  intros Ht.
  pose proof Create_validate_finishes. pose proof Create_guard_finishes.
  pose proof Create_userData_finishes. pose proof Create_render_finishes.
  pose proof Create_postprocess_finishes.
  pose proof (fun spec udr => Create_provision_finishes spec udr Ht).
  pose proof Create_finish_finishes.
  unfold Create, Create_provisioned. fin_all.
Qed.

End ActuatorFinishes.

(** X7. Unless the timeout is zero, Create does not stay in the poll, and
    the poll is bounded by the timeout: the instance is read at most
    twice more than there are retry intervals in the timeout (at once,
    after every interval, and once more when the timeout is over), every
    wait is positive and at most the retry interval of 10 seconds, and the
    waits add up to no more than the timeout (to nothing when the timeout
    is negative). *)
Theorem Create_poll_bounded (w : World) (s : State) :
  instanceCreateTimeout (Environ w) <> 0 ->
  (Create w s).1 <> Unfinished /\
  exists ext,
    log (Create w s).2 = log s ++ ext /\
    (countCalls isGetInstance ext
     <= S (S (pollTicks RetryIntervalInstanceStatus (instanceCreateTimeout (Environ w)))))%nat /\
    Forall (waitsAtMost RetryIntervalInstanceStatus) ext /\
    0 <= totalWait ext <= Z.max 0 (instanceCreateTimeout (Environ w)).
Proof.
  intros Ht. split; [by apply Create_finishes |].
  destruct (Create_meters w s) as (ext & E & _ & C2 & C3 & C4).
  destruct (pollTicks_fit (instanceCreateTimeout (Environ w))) as (_ & Hlast).
  destruct (waitsOf_bounds _ ext Hlast C4) as (Hpos & Hw).
  unfold pollTries in C2. unfold pollWait in C3.
  apply Z.eqb_neq in Ht. rewrite Ht in C2, C3.
  exists ext. split; [done |]. split; [done |]. split; [done |]. lia.
Qed.

Lemma Create_poll_bounded_witness :
  (Create (worldOf neverActive) (start fresh)).1 <> Unfinished /\
  countCalls isGetInstance (log (Create (worldOf neverActive) (start fresh)).2) = 32%nat /\
  totalWait (log (Create (worldOf neverActive) (start fresh)).2) = 5 * time.Minute.
Proof.
  destruct (Create_poll_bounded (worldOf neverActive) (start fresh)) as (H & _);
    [vm_compute; discriminate |].
  split; [exact H |]. split; vm_compute; reflexivity.
Defined.

(** ** What the write-back leaves on the record *)

Lemma setStatus_same m : setStatus (machinev1.Status m) m = m.
Proof. by destruct m. Qed.

(** Whatever happens after the providerID check, the record the
    write-back leaves is the one it wrote first: bound and annotated, with
    the status it had. *)
Lemma updateAnnotation_pass_summary {R} (w : World) s i infra :
  hasClient w = true ->
  (machineProviderID (machine s) = None \/
   machineProviderID (machine s) = Some (providerIDOf i)) ->
  let m1 := annotateInstance i (bindProviderID i (machine s)) in
  exists e rest,
    @updateAnnotation w R (Some i) infra s
    = (Val e, {| machine := m1; log := log s ++ CallClientUpdate m1 :: rest |}).
Proof.
  intros Hc Hp m1.
  rewrite (updateAnnotation_pass w s i infra Hc Hp). cbv zeta. fold m1.
  destruct (annotateInstance_fields i (bindProviderID i (machine s))) as (_ & _ & _ & A4 & _).
  fold m1 in A4. rewrite <- A4, setStatus_same.
  destruct (ClientUpdate w (log s) m1); [by exists (Some e), [] |].
  destruct (getIPsFromInstance i) as [addrs [e |]]; [by exists (Some e), [] |].
  destruct (DeepEqual _ _).
  - eexists _, _. cbn [log]. rewrite <- ?app_assoc. reflexivity.
  - destruct (StatusUpdate w _ _).
    + eexists _, _. cbn [log]. rewrite <- ?app_assoc. reflexivity.
    + eexists _, _. cbn [log]. rewrite <- ?app_assoc. reflexivity.
Qed.

Lemma annotateInstance_twice i m :
  annotateInstance i (annotateInstance i m) = annotateInstance i m.
Proof.
  unfold annotateInstance, annotate, setAnnotations, machineAnnotations. simpl.
  do 3 f_equal.
  rewrite (insert_insert_ne _ OpenstackIdAnnotationKey MachineInstanceStateAnnotationName)
    by discriminate.
  by rewrite insert_insert_eq, insert_insert_eq.
Qed.

(** X8. When the providerID check passes, the write-back leaves the
    record bound to the instance and annotated with its id and state,
    whatever the writes answer; the status of the record in memory,
    addresses included, is the one it had before (the new addresses only
    travel in the status write). Running the write-back again for the
    same instance, in any world with a client, leaves the record exactly
    as the first run left it. *)
Theorem updateAnnotation_idempotent {R} (w w' : World) (s : State) (i : clients.Instance)
  (infra infra' : string) :
  hasClient w = true ->
  hasClient w' = true ->
  (machineProviderID (machine s) = None \/
   machineProviderID (machine s) = Some (providerIDOf i)) ->
  let s1 := (@updateAnnotation w R (Some i) infra s).2 in
  machineProviderID (machine s1) = Some (providerIDOf i) /\
  annotation (machine s1) OpenstackIdAnnotationKey = clients.ID i /\
  annotation (machine s1) MachineInstanceStateAnnotationName = clients.Status i /\
  machinev1.Status (machine s1) = machinev1.Status (machine s) /\
  machineName (machine s1) = machineName (machine s) /\
  machine (@updateAnnotation w' R (Some i) infra' s1).2 = machine s1.
Proof.
  intros Hc Hc' Hp s1.
  destruct (updateAnnotation_pass_summary (R := R) w s i infra Hc Hp) as (e & rest & E).
  destruct (bindProviderID_fields i (machine s) Hp) as (B1 & B2 & B3).
  destruct (annotateInstance_fields i (bindProviderID i (machine s))) as (A1 & A2 & A3 & A4 & A5).
  assert (Hm : machine s1 = annotateInstance i (bindProviderID i (machine s))).
  { subst s1. by rewrite E. }
  assert (Hpid : machineProviderID (machine s1) = Some (providerIDOf i)).
  { rewrite Hm. unfold machineProviderID. by rewrite A3. }
  split; [done |]. rewrite Hm at 1 2 3 4.
  split; [done |]. split; [done |]. split; [congruence |]. split; [congruence |].
  destruct (updateAnnotation_pass_summary (R := R) w' s1 i infra' Hc' (or_intror Hpid))
    as (e' & rest' & E').
  rewrite E'. simpl.
  unfold bindProviderID. rewrite Hpid, Hm. apply annotateInstance_twice.
Qed.

Lemma updateAnnotation_idempotent_witness :
  machine (@updateAnnotation (worldOf calm) Empty_set (Some (server1 "ACTIVE")) "infra-1"
             (@updateAnnotation (worldOf calm) Empty_set (Some (server1 "ACTIVE")) "infra-1"
                (start fresh)).2).2
  = machine (@updateAnnotation (worldOf calm) Empty_set (Some (server1 "ACTIVE")) "infra-1"
               (start fresh)).2.
Proof.
  apply (updateAnnotation_idempotent (R := Empty_set) (worldOf calm) (worldOf calm)
           (start fresh) (server1 "ACTIVE") "infra-1" "infra-1");
    [reflexivity | reflexivity | left; reflexivity].
Defined.

(** ** A Create that succeeds *)

(** X9. When Create has provisioned the instance, the push of the labels
    succeeds and there is a client, Create records the Created event and
    runs the write-back: it never panics, and the record ends up bound to
    the providerID of the polled instance and annotated with its id and
    state. The calls that follow the provisioning are, in this order, the
    label push, the event and the write of the record. *)
Theorem Create_binds_record (w : World) (s s1 : State) (infra : string)
  (i : clients.Instance) :
  Create_provisioned w s = (Val (infra, Some i), s1) ->
  SetMachineLabels w (log s1) (machine s1) (clients.ID i) = None ->
  hasClient w = true ->
  (exists e, (Create w s).1 = Val e) /\
  machineProviderID (machine (Create w s).2) = Some (providerIDOf i) /\
  annotation (machine (Create w s).2) OpenstackIdAnnotationKey = clients.ID i /\
  annotation (machine (Create w s).2) MachineInstanceStateAnnotationName = clients.Status i /\
  machinev1.Status (machine (Create w s).2) = machinev1.Status (machine s) /\
  exists rest,
    log (Create w s).2
    = log s1
      ++ CallSetMachineLabels (machine s) (clients.ID i)
         :: CallEventf corev1.EventTypeNormal "Created"
              ("Created machine " +:+ machineName (machine s))
         :: CallClientUpdate (machine (Create w s).2) :: rest.
Proof.
  intros Hpr Hl Hc.
  destruct (Create_provisioned_inv w s infra (Some i) s1 Hpr) as (Hpid & Hm & _).
  unfold Create, call, bind. rewrite Hpr. cbv beta iota.
  unfold Create_finish, bind, deref, ret, getMachine, invoke, Eventf. cbv beta iota.
  cbn [machine log]. rewrite Hl. cbv beta iota. rewrite Hm.
  unfold invoke. cbn [machine log].
  match goal with
  | |- context [updateAnnotation w (Some i) infra ?st] =>
      destruct (updateAnnotation_pass_summary (R := goerr) w st i infra Hc (or_introl Hpid))
        as (e & rest & E)
  end.
  cbn [machine log] in E. unfold goerr in *. rewrite E. cbn [fst snd machine log Return].
  destruct (bindProviderID_fields i (machine s) (or_introl Hpid)) as (B1 & B2 & B3).
  destruct (annotateInstance_fields i (bindProviderID i (machine s))) as (A1 & A2 & A3 & A4 & A5).
  split; [eauto |].
  split; [unfold machineProviderID; by rewrite A3 |].
  split; [done |]. split; [done |]. split; [congruence |].
  exists rest. by rewrite <- !app_assoc.
Qed.

Lemma Create_binds_record_witness :
  (Create (worldOf calm) (start fresh)).1 = Val None /\
  machineProviderID (machine (Create (worldOf calm) (start fresh)).2)
  = Some "openstack:///srv-1".
Proof.
  destruct (Create_binds_record (worldOf calm) (start fresh)
              (Create_provisioned (worldOf calm) (start fresh)).2
              "infra-1" (server1 "ACTIVE")) as (_ & H & _).
  - vm_compute. reflexivity.
  - reflexivity.
  - reflexivity.
  - split; [vm_compute; reflexivity | exact H].
Defined.

(** ** The cluster label *)

(** X10. A machine whose cluster label is not the name of the
    infrastructure is refused by Create right after the lookup of the
    infrastructure: what Create does and returns is what the error path
    does with the invalid-configuration error. No instance service is
    built and the provider is not called; after the lookup the log has the
    FailedCreate warning and at most the write of the record. *)
Theorem Create_cluster_label_mismatch (w : World) (s : State) (infra : string) :
  InfrastructuresGet w (log s) "cluster" = (Some infra, None) ->
  label (machine s) ClusterLabel <> infra ->
  let verr := apierrors.InvalidMachineConfiguration
    (ClusterLabel +:+ " label value is incorrect: " +:+ label (machine s) ClusterLabel
     +:+ ", machine " +:+ machineName (machine s) +:+ " cannot join cluster " +:+ infra) in
  let s1 := {| machine := machine s; log := log s ++ [CallInfrastructuresGet "cluster"] |} in
  Create w s = @handleMachineError w Empty_set verr createEventAction s1 /\
  (exists e, (Create w s).1 = Val (Some e)) /\
  exists rest,
    log (Create w s).2
    = log s ++ CallInfrastructuresGet "cluster"
        :: CallEventf corev1.EventTypeWarning "FailedCreate"
             apierrors.InvalidConfigurationMachineError :: rest /\
    Forall isErrorReport rest /\ (length rest <= 1)%nat.
Proof.
  intros Hinfra Hlabel verr s1.
  apply String.eqb_neq in Hlabel.
  assert (HC : Create w s = @handleMachineError w Empty_set verr createEventAction s1).
  { unfold Create, Create_provisioned, Create_validate, getClusterInfraName.
    unfold call at 1 2, bind, invoke, check, getMachine, deref, ret, Return.
    cbn [log machine]. rewrite Hinfra. cbn [log machine]. rewrite Hlabel.
    cbn [negb log machine]. fold verr s1.
    rewrite !handleMachineError_run by reflexivity. cbv zeta.
    destruct (hasClient w); [| reflexivity].
    destruct (ClientUpdate w _ _); reflexivity. }
  split; [exact HC |]. rewrite HC.
  rewrite handleMachineError_run by reflexivity. cbv zeta. subst s1. cbn [log machine].
  destruct (hasClient w).
  - destruct (ClientUpdate w _ _); cbn [fst snd log];
      (split; [eauto |]); eexists; rewrite <- !app_assoc;
      (split; [reflexivity |]); (split; [repeat constructor | simpl; lia]).
  - cbn [fst snd log]. split; [eauto |]. exists []. rewrite <- !app_assoc.
    split; [reflexivity |]. split; [constructor | simpl; lia].
Qed.

Lemma Create_cluster_label_mismatch_witness :
  map callName (log (Create (worldOf calm) (start stranger)).2)
  = ["Infrastructures.Get"; "Eventf FailedCreate"; "client.Update"].
Proof.
  destruct (Create_cluster_label_mismatch (worldOf calm) (start stranger) "infra-1")
    as (H & _); [reflexivity | discriminate |].
  rewrite H. vm_compute. reflexivity.
Defined.

(** ** The postprocessor of the startup script *)

(** X11. The postprocessing of the startup script calls no collaborator
    and leaves the record alone. Without a postprocessor the script goes
    through as it is. With one, only the postprocessor ct is known, and
    any other name stops Create; a script comes out only when the parse
    and the conversion report nothing and the result can be marshalled.
    Every failure is returned as a plain error that starts with
    Postprocessor error: it does not go through the error path, so no
    event is recorded and nothing is written on the record. *)
Theorem Create_postprocess_outcomes (w : World) (userDataRendered postprocessor : string)
  (postprocess : bool) (s : State) :
  (Create_postprocess w userDataRendered postprocessor postprocess s).2 = s /\
  (postprocess = false ->
   (Create_postprocess w userDataRendered postprocessor postprocess s).1
   = Val userDataRendered) /\
  (postprocess = true -> postprocessor <> "ct" ->
   (Create_postprocess w userDataRendered postprocessor postprocess s).1
   = Returned (Some (Plain ("Postprocessor error: unknown postprocessor: '"
                              +:+ postprocessor +:+ "'")))) /\
  (forall out,
      postprocess = true ->
      (Create_postprocess w userDataRendered postprocessor postprocess s).1 = Val out ->
      postprocessor = "ct" /\
      exists clcfg ignCfg,
        clconfigParse w userDataRendered = (clcfg, []) /\
        clconfigConvert w clcfg = (ignCfg, []) /\
        jsonMarshal w ignCfg = (out, None)) /\
  (forall r,
      (Create_postprocess w userDataRendered postprocessor postprocess s).1 = Returned r ->
      exists msg, r = Some (Plain ("Postprocessor error: " +:+ msg))).
Proof.
  unfold Create_postprocess, bind, checkWith, ret, Return.
  destruct postprocess.
  2: { simpl. split; [done |]. split; [done |]. split; [intros; discriminate |].
       split; intros; discriminate. }
  split; [| split; [intros; discriminate |]].
  { destruct (String.eqb postprocessor "ct"); [| done].
    destruct (clconfigParse w userDataRendered) as [clcfg [| x1 r1]]; [| done].
    destruct (clconfigConvert w clcfg) as [ignCfg [| x2 r2]]; [| done].
    by destruct (jsonMarshal w ignCfg) as [ud [e |]]. }
  destruct (String.eqb postprocessor "ct") eqn:Hpp.
  - apply String.eqb_eq in Hpp.
    split; [by intros _ Hne |].
    destruct (clconfigParse w userDataRendered) as [clcfg [| x1 r1]] eqn:Hparse; simpl.
    2: { split; [intros; discriminate |]. intros r [= <-]. eauto. }
    destruct (clconfigConvert w clcfg) as [ignCfg [| x2 r2]] eqn:Hconv; simpl.
    2: { split; [intros; discriminate |]. intros r [= <-]. eauto. }
    destruct (jsonMarshal w ignCfg) as [ud [e |]] eqn:Hjson; simpl.
    + split; [intros; discriminate |]. intros r [= <-]. eauto.
    + split; [| intros; discriminate].
      intros out _ [= <-]. split; [done |]. eauto.
  - apply String.eqb_neq in Hpp. simpl.
    split; [done |]. split; [intros; discriminate |].
    intros r [= <-]. by exists ("unknown postprocessor: '" +:+ postprocessor +:+ "'").
Qed.

(** ** The bootstrap token *)

(** X12. [createBootstrapToken] leaves the record alone. It hands back a
    token only with a nil error, and then it has created, through the
    client, the secret generated for the token with the expiry of now
    plus the token lifetime, and the token is the id and the secret of
    that secret joined by a dot. With an error the token is empty; when the
    token cannot be generated, nothing else is called, the secret is not
    created. *)
Theorem createBootstrapToken_outcomes {R} (w : World) (s : State) :
  machine (@createBootstrapToken w R s).2 = machine s /\
  (forall tok e, (@createBootstrapToken w R s).1 = Val (tok, Some e) -> tok = "") /\
  (forall t e,
      GenerateBootstrapToken w (log s) = (t, Some e) ->
      @createBootstrapToken w R s
      = (Val ("", Some e),
         {| machine := machine s; log := log s ++ [CallGenerateBootstrapToken] |})) /\
  (forall tok,
      (@createBootstrapToken w R s).1 = Val (tok, None) ->
      exists secret,
        let now := Now w (log s ++ [CallGenerateBootstrapToken]) in
        GenerateTokenSecret w (GenerateBootstrapToken w (log s)).1 (now + TokenTTL w)
        = (Some secret, None) /\
        hasClient w = true /\
        log (@createBootstrapToken w R s).2
        = log s ++ [CallGenerateBootstrapToken; CallNow; CallClientCreate (Some secret)] /\
        tok = mapGet (corev1.Data secret) BootstrapTokenIDKey +:+ "."
              +:+ mapGet (corev1.Data secret) BootstrapTokenSecretKey).
Proof.
  unfold createBootstrapToken, client_Create, call, bind, invoke, checkWith, deref, ret,
    Return, panic.
  cbn [log machine].
  destruct (GenerateBootstrapToken w (log s)) as [token [e |]] eqn:Htok; cbn [log machine fst snd].
  { split; [done |]. split; [by intros tok e' [= <- _] |].
    split; [by intros t e' [= <- <-] |]. intros; discriminate. }
  destruct (GenerateTokenSecret w token _) as [tokenSecret [e |]] eqn:Hsec;
    cbn [log machine fst snd].
  { split; [done |]. split; [intros; discriminate |]. split; intros; discriminate. }
  destruct (hasClient w); cbn [log machine fst snd];
    [| split; [done |]; split; [intros; discriminate |]; split; intros; discriminate].
  destruct (ClientCreate w _ tokenSecret) as [e |]; cbn [log machine fst snd].
  { split; [done |]. split; [by intros tok e' [= <- _] |].
    split; intros; discriminate. }
  destruct tokenSecret as [secret |]; cbn [log machine fst snd];
    [| split; [done |]; split; [intros; discriminate |]; split; intros; discriminate].
  split; [done |]. split; [intros; discriminate |]. split; [intros; discriminate |].
  intros tok [= <-]. exists secret. cbv zeta.
  split; [done |]. split; [done |]. split; [by rewrite <- !app_assoc | reflexivity].
Qed.

(** ** Every run of Delete *)


(** ** The bootstrap token is for machines without a name *)

Lemma lookup_notBootstrap {R A} (c : M R A) : quiet isLookup c -> emits notBootstrap c.
Proof.
  intros H. eapply emits_weaken; [| by apply quiet_emits].
  by intros [].
Qed.

(** The rule of [bind] for the run from one state. *)
Lemma run_bind {R A B} (P : Effect -> Prop) (c : M R A) (k : A -> M R B) s :
  (exists ext, log (c s).2 = log s ++ ext /\ Forall P ext) ->
  (forall a s1, c s = (Val a, s1) ->
                exists ext, log (k a s1).2 = log s1 ++ ext /\ Forall P ext) ->
  exists ext, log (bind c k s).2 = log s ++ ext /\ Forall P ext.
Proof.
  intros (e1 & E1 & F1) Hk. unfold bind.
  destruct (c s) as [[a | r | |] s1] eqn:Hc; simpl in *; [| eauto ..].
  destruct (Hk a s1 eq_refl) as (e2 & E2 & F2).
  exists (e1 ++ e2). rewrite E2, E1, app_assoc. split; [done | by apply Forall_app].
Qed.

Lemma call_state {R R'} (body : M R R) s : (@call R R' body s).2 = (body s).2.
Proof. unfold call. by destruct (body s) as [[r | r | |] s1]. Qed.

Section NoToken.

Variable w : World.

Lemma client_Update_noToken {R} m : emits notBootstrap (@client_Update w R m).
Proof. unfold client_Update. run_all. Qed.

Lemma client_Status_Update_noToken {R} m : emits notBootstrap (@client_Status_Update w R m).
Proof. unfold client_Status_Update. run_all. Qed.

Lemma handleMachineError_noToken {R} err action :
  emits notBootstrap (@handleMachineError w R err action).
Proof.
  pose proof (@client_Update_noToken).
  unfold handleMachineError, Eventf. run_all.
Qed.

Lemma updateAnnotation_noToken {R} instance infra :
  emits notBootstrap (@updateAnnotation w R instance infra).
Proof.
  pose proof (@client_Update_noToken).
  pose proof (@client_Status_Update_noToken).
  pose proof (@handleMachineError_noToken).
  unfold updateAnnotation. run_all.
Qed.

Lemma Create_validate_noToken : emits notBootstrap (Create_validate w).
Proof.
  pose proof (@handleMachineError_noToken).
  pose proof (lookup_notBootstrap _ (@getClusterInfraName_quiet w goerr)).
  pose proof (lookup_notBootstrap _ (@newInstanceService_quiet w goerr)).
  pose proof (lookup_notBootstrap _ (@validateMachine_quiet w goerr)).
  unfold Create_validate. run_all.
Qed.

Lemma Create_guard_noToken : emits notBootstrap (Create_guard w).
Proof.
  pose proof (@handleMachineError_noToken).
  unfold Create_guard. run_all.
Qed.

Lemma Create_userData_noToken providerSpec :
  emits notBootstrap (Create_userData w providerSpec).
Proof. unfold Create_userData. run_all. Qed.

Lemma Create_postprocess_noToken userDataRendered postprocessor postprocess :
  emits notBootstrap (Create_postprocess w userDataRendered postprocessor postprocess).
Proof. unfold Create_postprocess. run_all. Qed.

Lemma pollLoop_noToken n interval vars :
  emits notBootstrap (pollLoop n interval (pollCondition w) vars).
Proof.
  assert (Hc : forall v, emits notBootstrap (pollCondition w v))
    by (intros v; unfold pollCondition; run_all).
  revert vars. induction n as [| n IH]; intros vars; simpl.
  - apply emits_bind; [apply Hc |]. intros [v [done [e |]]]; [apply emits_ret |].
    destruct done; apply emits_ret.
  - apply emits_bind; [apply Hc |]. intros [v [done [e |]]]; [apply emits_ret |].
    destruct done; [apply emits_ret |].
    apply emits_bind; [by apply emits_invoke | intros; apply IH].
Qed.

Lemma PollImmediate_noToken h interval timeout vars :
  emits notBootstrap (PollImmediate h interval timeout (pollCondition w) vars).
Proof.
  assert (Hc : forall v, emits notBootstrap (pollCondition w v))
    by (intros v; unfold pollCondition; run_all).
  pose proof pollLoop_noToken.
  unfold PollImmediate, pollAnswer. run_all.
Qed.

Lemma Create_provision_noToken spec userDataRendered :
  emits notBootstrap (Create_provision w spec userDataRendered).
Proof.
  pose proof (@handleMachineError_noToken).
  pose proof PollImmediate_noToken.
  unfold Create_provision. run_all.
Qed.

Lemma Create_finish_noToken instance infra :
  emits notBootstrap (Create_finish w instance infra).
Proof.
  pose proof (@updateAnnotation_noToken).
  unfold Create_finish, Eventf. run_all.
Qed.

(** For a machine with a name the startup script is rendered by
    [masterStartupScript]: no token is made. *)
Lemma Create_render_named userData disableTemplating s :
  machineName (machine s) <> "" ->
  exists ext,
    log (Create_render w userData disableTemplating s).2 = log s ++ ext /\
    Forall notBootstrap ext.
Proof.
  intros Hn. apply String.eqb_neq in Hn. unfold Create_render.
  destruct (negb (String.eqb userData "") && negb disableTemplating); [| apply emits_ret].
  unfold bind at 1, getMachine at 1. cbv beta iota. rewrite Hn. cbn [negb].
  match goal with
  | |- exists ext, log (?c s).2 = _ /\ _ => cut (emits notBootstrap c); [intros H; apply H |]
  end.
  pose proof (@handleMachineError_noToken). run_all.
Qed.

Lemma Create_provisioned_named s :
  machineName (machine s) <> "" ->
  exists ext, log (Create_provisioned w s).2 = log s ++ ext /\ Forall notBootstrap ext.
Proof.
  intros Hn. unfold Create_provisioned.
  apply run_bind; [apply Create_validate_noToken |]. intros [infra ps] s1 Hv.
  pose proof (Create_validate_phase w s) as Hp1. rewrite Hv in Hp1. simpl in Hp1.
  destruct Hp1 as (Hm1 & _).
  apply run_bind; [apply Create_guard_noToken |]. intros [] s2 Hg.
  pose proof (Create_guard_phase w s1) as Hp2. rewrite Hg in Hp2. simpl in Hp2.
  destruct Hp2 as (Hm2 & _).
  apply run_bind; [apply Create_userData_noToken |].
  intros [spec [[[ud dt] pp] ppb]] s3 Hu.
  pose proof (Create_userData_phase w ps s2) as Hp3. rewrite Hu in Hp3. simpl in Hp3.
  destruct Hp3 as (Hm3 & _).
  apply run_bind; [apply Create_render_named; congruence |]. intros udr s4 _.
  apply run_bind; [apply Create_postprocess_noToken |]. intros udr' s5 _.
  apply run_bind; [apply Create_provision_noToken |]. intros inst s6 _.
  apply emits_ret.
Qed.

End NoToken.

(** X14. Create makes a bootstrap token only for a machine without a
    name. For every machine that has a name, no run of Create generates a
    token, reads the clock or creates a secret through the client,
    whatever the user data and the collaborators' answers are: the
    startup script is rendered as the one of a control-plane machine. *)
Theorem Create_named_machine_no_token (w : World) (s : State) :
  machineName (machine s) <> "" ->
  exists ext, log (Create w s).2 = log s ++ ext /\ Forall notBootstrap ext.
Proof.
  intros Hn. unfold Create. rewrite call_state.
  apply run_bind; [by apply Create_provisioned_named |].
  intros [infra inst] s1 _.
  match goal with
  | |- exists ext, log (?c s1).2 = _ /\ _ => cut (emits notBootstrap c); [intros H; apply H |]
  end.
  pose proof (Create_finish_noToken w). run_all.
Qed.

Lemma Create_named_machine_no_token_witness :
  Forall notBootstrap (log (Create (worldOf withUserData) (start fresh)).2).
Proof.
  destruct (Create_named_machine_no_token (worldOf withUserData) (start fresh))
    as (ext & E & F); [discriminate |].
  rewrite E. exact F.
Defined.

(** ** A run of Update that finds the instance *)

(** X15. When the lookups of Update succeed and find an instance, and the
    machine has no providerID or the one of that instance, Update (with a
    client) does not panic and leaves the record bound to the instance and
    annotated with its id and state; the status of the record in memory
    is the one it had. After the lookups the first call is the write of
    that record. *)
Theorem Update_adopts_instance (w : World) (s s1 s2 : State) (infra : string)
  (i : clients.Instance) :
  @getClusterInfraName w goerr s = (Val (infra, None), s1) ->
  @instanceExists w goerr s1 = (Val (Some i, None), s2) ->
  hasClient w = true ->
  (machineProviderID (machine s) = None \/
   machineProviderID (machine s) = Some (providerIDOf i)) ->
  (exists e, (Update w s).1 = Val e) /\
  machineProviderID (machine (Update w s).2) = Some (providerIDOf i) /\
  annotation (machine (Update w s).2) OpenstackIdAnnotationKey = clients.ID i /\
  annotation (machine (Update w s).2) MachineInstanceStateAnnotationName = clients.Status i /\
  machinev1.Status (machine (Update w s).2) = machinev1.Status (machine s) /\
  exists lookups rest,
    log (Update w s).2
    = log s ++ lookups ++ CallClientUpdate (machine (Update w s).2) :: rest /\
    Forall isLookup lookups.
Proof.
  intros H1 H2 Hc Hp. unfold goerr in *.
  pose proof (getClusterInfraName_quiet w (R := option error) s) as (M1 & e1 & E1 & F1).
  pose proof (instanceExists_quiet w (R := option error) s1) as (M2 & e2 & E2 & F2).
  rewrite H1 in M1, E1. rewrite H2 in M2, E2. simpl in M1, M2, E1, E2.
  assert (Hm : machine s2 = machine s) by congruence.
  assert (Hp2 : machineProviderID (machine s2) = None \/
                machineProviderID (machine s2) = Some (providerIDOf i))
    by (by rewrite Hm).
  destruct (updateAnnotation_pass_summary (R := option error) w s2 i infra Hc Hp2)
    as (e & rest & E).
  unfold Update, call, bind. unfold goerr in *.
  rewrite H1. cbn -[instanceExists updateAnnotation].
  rewrite H2. cbn -[updateAnnotation]. unfold bind. rewrite E.
  cbn [fst snd machine log Return]. rewrite Hm.
  destruct (bindProviderID_fields i (machine s) Hp) as (B1 & B2 & B3).
  destruct (annotateInstance_fields i (bindProviderID i (machine s))) as (A1 & A2 & A3 & A4 & A5).
  split; [eauto |].
  split; [unfold machineProviderID; by rewrite A3 |].
  split; [done |]. split; [done |]. split; [congruence |].
  exists (e1 ++ e2), rest. rewrite E2, E1, <- !app_assoc.
  split; [done | by apply Forall_app].
Qed.

Lemma Update_adopts_instance_witness :
  machineProviderID (machine (Update (worldOf calm) (start fresh)).2)
  = Some "openstack:///srv-1".
Proof.
  destruct (Update_adopts_instance (worldOf calm) (start fresh)
              (@getClusterInfraName (worldOf calm) goerr (start fresh)).2
              (@instanceExists (worldOf calm) goerr
                 (@getClusterInfraName (worldOf calm) goerr (start fresh)).2).2
              "infra-1" (server1 "ACTIVE")) as (_ & H & _).
  - vm_compute. reflexivity.
  - vm_compute. reflexivity.
  - reflexivity.
  - left. reflexivity.
  - exact H.
Defined.

(** ** The lookup of the instance *)

(** X16. [instanceExists] never hands back an instance together with an
    error. When it hands back an instance, the provider spec of the
    machine decoded, the instance service was built, and the instance is
    the first of the list the provider gave for the name of the machine
    and the image and the flavor of its spec; these two calls are all it
    made. It panics exactly when the decoding hands back a nil spec
    without an error. *)
Theorem instanceExists_outcomes {R} (w : World) (s : State) :
  let decoded :=
    MachineSpecFromProviderSpec w (machinev1.ProviderSpec (machinev1.Spec (machine s))) in
  (forall found e, (@instanceExists w R s).1 = Val (found, Some e) -> found = None) /\
  (forall i,
      (@instanceExists w R s).1 = Val (Some i, None) ->
      exists spec rest,
        let opts := {| clients.Name := machineName (machine s);
                       clients.Image := openstackconfigv1.Image spec;
                       clients.Flavor := openstackconfigv1.Flavor spec |} in
        decoded = (Some spec, None) /\
        log (@instanceExists w R s).2
        = log s ++ [CallNewInstanceServiceFromMachine (machine s); CallGetInstanceList opts] /\
        GetInstanceList w (log s ++ [CallNewInstanceServiceFromMachine (machine s)]) opts
        = (i :: rest, None)) /\
  ((@instanceExists w R s).1 = Panic <-> decoded = (None, None)).
Proof.
  intros decoded. subst decoded.
  unfold instanceExists, newInstanceService, call, bind, getMachine, invoke, checkWith,
    deref, ret, Return, panic.
  cbn [log machine].
  destruct (MachineSpecFromProviderSpec w _) as [[spec |] [e |]]; cbn [log machine fst snd].
  - split; [by intros found e' [= <- _] |]. split; [intros; discriminate |].
    split; intros; discriminate.
  - destruct (NewInstanceServiceFromMachine w _ _) as [e |]; cbn [log machine fst snd].
    { split; [by intros found e' [= <- _] |]. split; [intros; discriminate |].
      split; intros; discriminate. }
    destruct (GetInstanceList w _ _) as [[| i rest] [e |]] eqn:Hl; cbn [log machine fst snd].
    + split; [by intros found e' [= <- _] |]. split; [intros; discriminate |].
      split; intros; discriminate.
    + split; [intros; discriminate |]. split; [intros; discriminate |].
      split; intros; discriminate.
    + split; [by intros found e' [= <- _] |]. split; [intros; discriminate |].
      split; intros; discriminate.
    + split; [intros; discriminate |]. split; [| split; intros; discriminate].
      intros i' [= <-]. exists spec, rest. cbv zeta.
      split; [done |]. split; [by rewrite <- app_assoc | done].
  - split; [by intros found e' [= <- _] |]. split; [intros; discriminate |].
    split; intros; discriminate.
  - split; [intros; discriminate |]. split; [intros; discriminate |]. done.
Qed.

(** ** The override of the timeout, in polls *)

Lemma pollTicks_minutes n :
  -153722867 <= n <= 153722867 ->
  pollTicks RetryIntervalInstanceStatus (Go.mul64 n time.Minute) = Z.to_nat (6 * n).
Proof.
  intros Hn. unfold pollTicks, Go.mul64. rewrite wrap64_small.
  - f_equal. unfold RetryIntervalInstanceStatus, time.Minute, time.Second.
    replace (n * (60 * 1000000000)) with (6 * n * (10 * 1000000000)) by lia.
    apply Z.div_mul. lia.
  - unfold Go.MinInt64, Go.MaxInt64, time.Minute, time.Second. lia.
Qed.

Lemma timeout_minutes n :
  -153722867 <= n <= 153722867 -> Go.mul64 n time.Minute = n * time.Minute.
Proof.
  intros Hn. unfold Go.mul64. apply wrap64_small.
  unfold Go.MinInt64, Go.MaxInt64, time.Minute, time.Second. lia.
Qed.

(** A timeout of whole minutes leaves nothing after the last tick. *)
Lemma pollRemainder_minutes n :
  -153722867 <= n <= 153722867 ->
  pollRemainder RetryIntervalInstanceStatus (Go.mul64 n time.Minute) <= 0.
Proof.
  intros Hn. unfold pollRemainder. rewrite (pollTicks_minutes n Hn), (timeout_minutes n Hn).
  unfold RetryIntervalInstanceStatus, time.Minute, time.Second. lia.
Qed.

(** While every read shows an instance that is not active, the ticks of
    a poll are used up: the instance is read at once and after every
    tick. *)
Lemma pollLoop_not_active (w : World) :
  (forall l id, exists i',
      GetInstance w l id = (Some i', None) /\ clients.Status i' <> "ACTIVE") ->
  forall n i s, exists i' ext,
    pollLoop n RetryIntervalInstanceStatus (pollCondition w) (Some i) s
    = (Val (Some i', (false, None)), {| machine := machine s; log := log s ++ ext |}) /\
    countCalls isGetInstance ext = S n /\
    countCalls isSleep ext = n /\
    Forall waitsInterval ext.
Proof.
  intros Hna. induction n as [| n IH]; intros i s; cbn [pollLoop];
    unfold bind at 1; unfold pollCondition, bind, deref, ret, invoke; cbn [log machine];
    destruct (Hna (log s) (clients.ID i)) as (i' & Hg & Hst);
    rewrite Hg; apply String.eqb_neq in Hst; rewrite Hst; cbn [log machine].
  - exists i', [CallGetInstance (clients.ID i)]. repeat split. repeat constructor.
  - match goal with
    | |- context [pollLoop n _ _ (Some i') ?st] =>
        destruct (IH i' st) as (i'' & ext & E & C1 & C2 & C3)
    end.
    unfold pollCondition, bind, deref, ret, invoke in E. rewrite E. cbn [log machine].
    exists i'', (CallGetInstance (clients.ID i) :: Sleep RetryIntervalInstanceStatus :: ext).
    rewrite <- !app_assoc. simpl. rewrite C1, C2.
    repeat split. by repeat constructor.
Qed.

(** X17. When CLUSTER_API_OPENSTACK_INSTANCE_CREATE_TIMEOUT parses as
    [n] minutes (up to 153722867 in absolute value) and [n] is not zero,
    Create does not stay in the poll: it waits at most [6 n] times, each
    time for the retry interval, and reads the instance at most
    [6 n + 2] times; for a negative value that is no wait and at most two
    reads. For zero the poll has no time limit: when the checks pass,
    there is no user data, the instance is created and every read shows
    it not active, Create does not return; at the horizon it is still
    polling, having read the instance once more than there were ticks.
    The first value beyond the range, 153722868, wraps to a negative
    timeout, with no tick. *)
Theorem Create_timeout_override (w : World) (s : State) (v : string) (n : Z) :
  Environ w !! InstanceCreateTimeoutEnv = Some v ->
  Go.Atoi v = Some n ->
  -153722867 <= n <= 153722867 ->
  (n <> 0 ->
   (Create w s).1 <> Unfinished /\
   exists ext,
     log (Create w s).2 = log s ++ ext /\
     Forall waitsInterval ext /\
     (countCalls isSleep ext <= Z.to_nat (6 * n))%nat /\
     (countCalls isGetInstance ext <= S (S (Z.to_nat (6 * n))))%nat /\
     (n < 0 -> countCalls isSleep ext = 0%nat /\ (countCalls isGetInstance ext <= 2)%nat)) /\
  (n = 0 ->
   forall infra spec s1 i,
     Create_validate w s = (Val (infra, Some spec), s1) ->
     machineProviderID (machine s) = None ->
     openstackconfigv1.UserDataSecret spec = None ->
     let created :=
       CallInstanceCreate
         (machineNamespace (machine s) +:+ "-" +:+ label (machine s) ClusterLabel)
         (machineName (machine s)) spec "" (openstackconfigv1.KeyName spec) in
     InstanceCreate w (log s1)
       (machineNamespace (machine s) +:+ "-" +:+ label (machine s) ClusterLabel)
       (machineName (machine s)) spec "" (openstackconfigv1.KeyName spec)
     = (Some i, None) ->
     (forall l id, exists i',
         GetInstance w l id = (Some i', None) /\ clients.Status i' <> "ACTIVE") ->
     (Create w s).1 = Unfinished /\
     exists ext,
       log (Create w s).2 = log s1 ++ created :: ext /\
       countCalls isGetInstance ext = S (Horizon w) /\
       countCalls isSleep ext = Horizon w /\
       Forall waitsInterval ext) /\
  instanceCreateTimeout {[ InstanceCreateTimeoutEnv := "153722868" ]} < 0 /\
  pollTicks RetryIntervalInstanceStatus
    (instanceCreateTimeout {[ InstanceCreateTimeoutEnv := "153722868" ]}) = 0%nat.
Proof.
  intros Henv Hv Hn.
  assert (Ht : instanceCreateTimeout (Environ w) = n * time.Minute).
  { unfold instanceCreateTimeout.
    by rewrite (getTimeout_override _ _ _ _ _ Henv Hv), (timeout_minutes n Hn). }
  split; [| split; [| split; reflexivity]].
  - intros Hn0.
    assert (Ht0 : instanceCreateTimeout (Environ w) <> 0).
    { rewrite Ht. unfold time.Minute, time.Second. lia. }
    split; [by apply Create_finishes |].
    destruct (Create_meters w s) as (ext & E & _ & C2 & C3 & C4).
    unfold pollTries in C2. unfold pollWait in C3.
    apply Z.eqb_neq in Ht0. rewrite Ht0 in C2, C3.
    unfold instanceCreateTimeout in C2, C3, C4.
    rewrite (getTimeout_override _ _ _ _ _ Henv Hv) in C2, C3, C4.
    rewrite (pollTicks_minutes n Hn) in C2.
    apply (waitsOf_interval _ _ (pollRemainder_minutes n Hn)) in C4.
    rewrite (totalWait_count ext C4), (timeout_minutes n Hn) in C3.
    assert (Hz : (countCalls isSleep ext <= Z.to_nat (6 * n))%nat).
    { unfold RetryIntervalInstanceStatus, time.Minute, time.Second in C3. lia. }
    exists ext. split; [done |]. split; [done |]. split; [done |]. split; [done |].
    intros Hneg. lia.
  - intros -> infra spec s1 i Hval Hpid Hsecret created Hcreate Hna.
    assert (Ht0 : (instanceCreateTimeout (Environ w) =? 0) = true) by (by rewrite Ht).
    pose proof (Create_validate_phase w s) as Hph. rewrite Hval in Hph. simpl in Hph.
    destruct Hph as (Hm & _).
    unfold Create, Create_provisioned, call, bind. rewrite Hval. cbv beta iota.
    rewrite (Create_guard_unbound w s1) by (by rewrite Hm). cbv beta iota.
    unfold Create_userData, deref, bind, ret. rewrite Hsecret. cbv beta iota.
    unfold Create_render, Create_postprocess, ret. cbn [String.eqb negb andb].
    unfold Create_provision, bind, getMachine, invoke, checkWith, ret.
    cbn [log machine]. rewrite Hm, Hcreate. cbv beta iota.
    unfold PollImmediate, pollAnswer, bind. rewrite Ht0.
    match goal with
    | |- context [pollLoop _ _ _ (Some i) ?st] =>
        destruct (pollLoop_not_active w Hna (Horizon w) i st) as (i' & ext & E & C1 & C2 & C3)
    end.
    rewrite E. cbn [fst snd log machine unfinished].
    split; [reflexivity |]. exists ext. by rewrite <- app_assoc.
Qed.

Lemma Create_timeout_override_witness :
  (Create (worldOf (with_environ {[ InstanceCreateTimeoutEnv := "1" ]} neverActive))
     (start fresh)).1 <> Unfinished /\
  countCalls isGetInstance
    (log (Create (worldOf (with_environ {[ InstanceCreateTimeoutEnv := "1" ]} neverActive))
            (start fresh)).2) = 8%nat /\
  (Create (with_horizon 5
             (worldOf (with_environ {[ InstanceCreateTimeoutEnv := "0" ]} neverActive)))
     (start fresh)).1 = Unfinished.
Proof.
  destruct (Create_timeout_override
              (worldOf (with_environ {[ InstanceCreateTimeoutEnv := "1" ]} neverActive))
              (start fresh) "1" 1) as (H1 & _);
    [reflexivity | reflexivity | lia |].
  destruct (H1 ltac:(lia)) as (Hfin & _).
  destruct (Create_timeout_override
              (with_horizon 5
                 (worldOf (with_environ {[ InstanceCreateTimeoutEnv := "0" ]} neverActive)))
              (start fresh) "0" 0) as (_ & H0 & _);
    [reflexivity | reflexivity | lia |].
  destruct (H0 eq_refl "infra-1" (spec1 None)
              (Create_validate
                 (with_horizon 5
                    (worldOf (with_environ {[ InstanceCreateTimeoutEnv := "0" ]} neverActive)))
                 (start fresh)).2
              (server1 "BUILD")) as (Hun & _).
  - vm_compute. reflexivity.
  - reflexivity.
  - reflexivity.
  - reflexivity.
  - intros l id. exists (server1 "BUILD"). split; [reflexivity | discriminate].
  - split; [exact Hfin |]. split; [vm_compute; reflexivity | exact Hun].
Defined.

(** ** Templating switched off *)

(** X18. Templating is switched off by the presence of the
    disableTemplating key in the user-data secret, whatever its value.
    Then the user data of the secret goes on as it is: after the read of
    the secret, which is looked up in the namespace of the reference or,
    when that is empty, in the namespace of the machine, the rendering
    calls nothing (no startup script is rendered, no bootstrap token is
    made) and hands the user data back unchanged. *)
Theorem Create_templating_disabled (w : World) (s : State)
  (spec : openstackconfigv1.OpenstackProviderSpec) (ref : openstackconfigv1.SecretReference)
  (secret : corev1.Secret) (userData value : string) :
  openstackconfigv1.UserDataSecret spec = Some ref ->
  openstackconfigv1.Name ref <> "" ->
  let namespace :=
    if String.eqb (openstackconfigv1.Namespace ref) "" then machineNamespace (machine s)
    else openstackconfigv1.Namespace ref in
  SecretsGet w (log s) namespace (openstackconfigv1.Name ref) = (Some secret, None) ->
  corev1.Data secret !! UserDataKey = Some userData ->
  corev1.Data secret !! DisableTemplatingKey = Some value ->
  let s' := {| machine := machine s;
               log := log s ++ [CallSecretsGet namespace (openstackconfigv1.Name ref)] |} in
  exists postprocessor postprocess,
    Create_userData w (Some spec) s
    = (Val (spec, (userData, true, postprocessor, postprocess)), s') /\
    Create_render w userData true s' = (Val userData, s').
Proof.
  intros Href Hname namespace Hget Hud Hdt s'. apply String.eqb_neq in Hname.
  exists (default "" (corev1.Data secret !! PostprocessorKey)),
    (negb (isNil (corev1.Data secret !! PostprocessorKey))).
  split.
  - unfold Create_userData, bind, deref, ret, getMachine, invoke. rewrite Href.
    rewrite Hname. fold namespace. cbn [negb fst snd log machine Return].
    rewrite Hget. cbn [check ret deref]. rewrite Hud, Hdt. reflexivity.
  - unfold Create_render. cbn [negb]. rewrite andb_false_r. reflexivity.
Qed.

Lemma Create_templating_disabled_witness :
  exists s',
    Create_userData (worldOf (with_secret (Some secretTemplatingOff, None) calm))
      (Some (spec1 (Some userDataRef))) (start fresh)
    = (Val (spec1 (Some userDataRef), ("#!/bin/sh", true, "", false)), s') /\
    Create_render (worldOf (with_secret (Some secretTemplatingOff, None) calm))
      "#!/bin/sh" true s' = (Val "#!/bin/sh", s').
Proof.
  destruct (Create_templating_disabled
              (worldOf (with_secret (Some secretTemplatingOff, None) calm))
              (start fresh) (spec1 (Some userDataRef)) userDataRef
              secretTemplatingOff "#!/bin/sh" "false")
    as (pp & b & H1 & H2);
    [reflexivity | discriminate | reflexivity | reflexivity | reflexivity |].
  eexists. split; [| exact H2].
  rewrite H1. vm_compute in H1. injection H1 as <- <-. reflexivity.
Defined.
